(** * Order fulfilment pipeline of the ordering platform

    A shallow embedding of the order pipeline of the repository:

    - [src/lib/rateLimit.ts]: the client-side rate limiter kept in
      [localStorage];
    - the orders migration: the tables [orders], [order_items] and
      [rate_limit_logs] with their row level security policies, the
      functions [generate_order_number], [check_rate_limit] and
      [cleanup_rate_limit_logs], and the triggers [update_updated_at_column]
      and [set_completed_at];
    - [supabase/functions/lalamove/index.ts]: the signing proxy in front of
      the courier provider, with its [handleOrder];
    - [src/lib/lalamove.ts]: the browser's side of that proxy;
    - the [useOrders] hook: [createOrder], [fetchOrders], [fetchOrderById],
      [updateOrderStatus], [bulkUpdateStatus] and [getOrderStats].

    Conventions.  Browser times ([Date.now()]) are integer milliseconds since
    the epoch; database times ([now()]) are integer microseconds since the
    epoch and the session time zone is UTC.  Money amounts are integers:
    whole amounts, which JavaScript's numbers and the [decimal(10,2)]
    columns hold exactly; the rounding of other amounts is not modelled, and
    no statement below relates an amount read back from a column to the
    amount that was submitted.
    What the outside world decides (clock readings, random identifiers,
    transport and backend failures, the courier's answers, the role of the
    session that checks out) is passed to each operation explicitly. *)

From Stdlib Require Import ZArith NArith List String Ascii Bool Lia.
From Stdlib Require Import DecimalString DecimalZ.
From Stdlib Require Import Permutation Sorted DecimalPos.
Import ListNotations.

Local Open Scope string_scope.
Local Open Scope Z_scope.

(* ------------------------------------------------------------------------- *)
(** ** Text helpers: decimal printing, [LPAD], zero filling *)

Module Text.

(** Decimal text of an integer, as a template literal or [::text] prints it. *)
Definition of_Z (z : Z) : string := NilZero.string_of_int (Z.to_int z).

(** Reading back a string of decimal digits (leading zeros allowed). *)
Definition to_Z (s : string) : option Z :=
  match NilEmpty.uint_of_string s with
  | Some d => Some (Z.of_uint d)
  | None => None
  end.

Definition is_digit (c : ascii) : bool :=
  let n := nat_of_ascii c in (48 <=? n)%nat && (n <=? 57)%nat.

Fixpoint all_digits (s : string) : bool :=
  match s with
  | EmptyString => true
  | String c s' => is_digit c && all_digits s'
  end.

Fixpoint repeat_char (c : ascii) (n : nat) : string :=
  match n with
  | O => EmptyString
  | S n' => String c (repeat_char c n')
  end.

(** PostgreSQL [LPAD(s, len, fill)] with a one-character fill: a string that
    is already too long is cut on the right. *)
Definition lpad (s : string) (len : nat) (fill : ascii) : string :=
  if (len <=? String.length s)%nat then substring 0 len s
  else repeat_char fill (len - String.length s) ++ s.

(** Zero filling to a minimal width, as [TO_CHAR] and [toISOString] do for
    their numeric fields: nothing is cut. *)
Definition zero_fill (width : nat) (z : Z) : string :=
  let s := of_Z z in
  repeat_char "0"%char (width - String.length s) ++ s.

(** [s] occurs in [t] as a contiguous substring. *)
Fixpoint occurs_in (s t : string) : bool :=
  if prefix s t then true
  else match t with
       | EmptyString => false
       | String _ t' => occurs_in s t'
       end.

(** [p] holds on the [n] integers from [z] on. *)
Fixpoint all_from (n : nat) (z : Z) (p : Z -> bool) : bool :=
  match n with
  | O => true
  | S n' => p z && all_from n' (z + 1) p
  end.

(** The number [z], padded to four characters, reads back as [z]. *)
Definition lpad4_reads_back_b (z : Z) : bool :=
  match to_Z (lpad (of_Z z) 4 "0"%char) with
  | Some z' => z' =? z
  | None => false
  end.

End Text.

(* ------------------------------------------------------------------------- *)
(** ** Calendar: dates of the proleptic Gregorian calendar *)

Module Calendar.

Record Date : Type := mkDate { year : Z; month : Z; day : Z }.

Definition Date_eqb (a b : Date) : bool :=
  (year a =? year b) && (month a =? month b) && (day a =? day b).

(** The civil date of a day number (days since 1970-01-01). *)
Definition civil_from_days (d : Z) : Date :=
  let z := d + 719468 in
  let era := z / 146097 in
  let doe := z - era * 146097 in
  let yoe := (doe - doe / 1460 + doe / 36524 - doe / 146096) / 365 in
  let y := yoe + era * 400 in
  let doy := doe - (365 * yoe + yoe / 4 - yoe / 100) in
  let mp := (5 * doy + 2) / 153 in
  let dd := doy - (153 * mp + 2) / 5 + 1 in
  let m := if mp <? 10 then mp + 3 else mp - 9 in
  mkDate (if m <=? 2 then y + 1 else y) m dd.

Definition usec_per_day : Z := 86400 * 1000000.
Definition msec_per_day : Z := 86400 * 1000.

(** SQL [DATE(t)] of a [timestamptz] (microseconds, UTC session). *)
Definition DATE (t : Z) : Date := civil_from_days (t / usec_per_day).

(** SQL [TO_CHAR(d, 'YYYYMMDD')]. *)
Definition TO_CHAR_YYYYMMDD (d : Date) : string :=
  Text.zero_fill 4 (year d) ++ Text.zero_fill 2 (month d)
    ++ Text.zero_fill 2 (day d).

(** JavaScript [new Date(ms).toISOString()]. *)
Definition toISOString (ms : Z) : string :=
  let d := civil_from_days (ms / msec_per_day) in
  let r := ms mod msec_per_day in
  let yy := if (0 <=? year d) && (year d <=? 9999)
            then Text.zero_fill 4 (year d)
            else (if year d <? 0 then "-" else "+")
                   ++ Text.zero_fill 6 (Z.abs (year d)) in
  yy ++ "-" ++ Text.zero_fill 2 (month d) ++ "-" ++ Text.zero_fill 2 (day d)
     ++ "T" ++ Text.zero_fill 2 (r / 3600000)
     ++ ":" ++ Text.zero_fill 2 ((r / 60000) mod 60)
     ++ ":" ++ Text.zero_fill 2 ((r / 1000) mod 60)
     ++ "." ++ Text.zero_fill 3 (r mod 1000) ++ "Z".

End Calendar.

(* ------------------------------------------------------------------------- *)
(** ** JavaScript arrays: the stable [Array.prototype.sort] *)

Module Js.

Section Sort.

Context {A : Type}.

(** The comparator, a negative value meaning that the first argument goes
    first. *)
Variable cmp : A -> A -> Z.

Fixpoint insert_sorted (x : A) (l : list A) : list A :=
  match l with
  | [] => [x]
  | y :: l' => if cmp x y <=? 0 then x :: l else y :: insert_sorted x l'
  end.

(** Elements are inserted from the right, each in front of the elements it
    ties with, so the order of ties is the one of the input. *)
Definition sort (l : list A) : list A := fold_right insert_sorted [] l.

End Sort.

End Js.

(* ------------------------------------------------------------------------- *)
(** ** [src/lib/rateLimit.ts]: the client-side rate limiter *)

Module RateLimit.

Inductive ActionType : Type := order_placement | admin_action.

Definition ActionType_eqb (a b : ActionType) : bool :=
  match a, b with
  | order_placement, order_placement => true
  | admin_action, admin_action => true
  | _, _ => false
  end.

Record RateLimitEntry : Type := mkEntry {
  ip : string;
  actionType : ActionType;
  timestamp : Z;
  expiresAt : Z
}.

Definition DEFAULT_COOLDOWN_SECONDS : Z := 30.

(** What [localStorage] holds under [RATE_LIMIT_STORAGE_KEY]. *)
Inductive StoredItem : Type :=
| NoItem                                  (* [getItem] gives [null] or [''] *)
| Unreadable                              (* [JSON.parse] or the filter throws *)
| Stored (entries : list RateLimitEntry). (* a JSON array of entries *)

(** The browser's [localStorage], with the ways it can fail. *)
Record LocalStorage : Type := mkStorage {
  item : StoredItem;
  getItem_throws : bool;
  setItem_throws : bool
}.

Definition same_pair (ip0 : string) (a : ActionType) (e : RateLimitEntry) : bool :=
  String.eqb (ip e) ip0 && ActionType_eqb (actionType e) a.

(** [getStoredRateLimits], [now] being its [Date.now()] reading. *)
Definition getStoredRateLimits (ls : LocalStorage) (now : Z) : list RateLimitEntry :=
  if getItem_throws ls then []
  else match item ls with
       | NoItem => []
       | Unreadable => []
       | Stored entries => filter (fun entry => now <? expiresAt entry) entries
       end.

(** [saveRateLimits]: a failing [setItem] is caught and nothing is written. *)
Definition saveRateLimits (ls : LocalStorage) (entries : list RateLimitEntry) : LocalStorage :=
  if setItem_throws ls then ls
  else mkStorage (Stored entries) (getItem_throws ls) (setItem_throws ls).

(** [recordAction]; [now0] is the reading inside [getStoredRateLimits] and
    [now] the one of [recordAction] itself. *)
Definition recordAction (ls : LocalStorage) (ip0 : string) (a : ActionType)
    (cooldownSeconds : Z) (now0 now : Z) : LocalStorage :=
  let entries := getStoredRateLimits ls now0 in
  let expires := now + cooldownSeconds * 1000 in
  let filtered := filter (fun entry => negb (same_pair ip0 a entry)) entries in
  saveRateLimits ls (filtered ++ [mkEntry ip0 a now expires]).

Record RateLimitResult : Type := mkResult {
  allowed : bool;
  cooldownRemaining : option Z
}.

(** [Math.ceil(x / 1000)] on an integer [x]. *)
Definition ceil_div_1000 (x : Z) : Z := - ((- x) / 1000).

(** [entries.filter(...).sort((a, b) => b.timestamp - a.timestamp)[0]] *)
Definition most_recent (ip0 : string) (a : ActionType)
    (entries : list RateLimitEntry) : option RateLimitEntry :=
  hd_error (Js.sort (fun x y => timestamp y - timestamp x)
                    (filter (same_pair ip0 a) entries)).

(** [checkRateLimit]; [now0] is the reading inside [getStoredRateLimits] and
    [now] the one of [checkRateLimit] itself.  The cooldown argument is not
    used by the body. *)
Definition checkRateLimit (ls : LocalStorage) (ip0 : string) (a : ActionType)
    (cooldownSeconds : Z) (now0 now : Z) : RateLimitResult :=
  let entries := getStoredRateLimits ls now0 in
  let recentEntry := most_recent ip0 a entries in
  match recentEntry with
  | None => mkResult true None
  | Some e =>
      if expiresAt e <=? now then mkResult true None
      else mkResult false (Some (ceil_div_1000 (expiresAt e - now)))
  end.

End RateLimit.

(* ------------------------------------------------------------------------- *)
(** ** The orders migration: tables, functions and triggers *)

Module Db.

Import Calendar.

Inductive ServiceType : Type := dine_in | pickup | delivery.

Inductive OrderStatus : Type :=
| pending | confirmed | preparing | ready | out_for_delivery
| completed | cancelled.

Definition OrderStatus_eqb (a b : OrderStatus) : bool :=
  match a, b with
  | pending, pending | confirmed, confirmed | preparing, preparing
  | ready, ready | out_for_delivery, out_for_delivery
  | completed, completed | cancelled, cancelled => true
  | _, _ => false
  end.

(** A row of [orders], with the columns of the later migrations. *)
Record OrderRow : Type := mkOrderRow {
  id : string;
  order_number : string;
  customer_name : string;
  contact_number : string;
  service_type : ServiceType;
  address : option string;
  landmark : option string;
  pickup_time : option string;
  party_size : option Z;
  dine_in_time : option string;
  payment_method : string;
  reference_number : option string;
  status : OrderStatus;
  total : Z;
  notes : option string;
  customer_ip : string;
  created_at : Z;
  updated_at : Z;
  completed_at : option Z;
  delivery_fee : option Z;
  lalamove_quotation_id : option string;
  lalamove_order_id : option string;
  lalamove_status : option string;
  lalamove_tracking_url : option string
}.

(** A row of [order_items]. *)
Record OrderItemRow : Type := mkOrderItemRow {
  item_id : string;
  order_id : string;
  menu_item_id : option string;
  menu_item_name : string;
  quantity : Z;
  unit_price : Z;
  total_price : Z;
  selected_variation : option string;
  selected_add_ons : option string;
  item_created_at : Z
}.

(** A row of [rate_limit_logs]. *)
Record RateLimitLog : Type := mkRateLimitLog {
  log_id : string;
  ip_address : string;
  action_type : string;
  log_timestamp : Z;
  expires_at : Z
}.

Record Database : Type := mkDatabase {
  orders : list OrderRow;
  order_items : list OrderItemRow;
  rate_limit_logs : list RateLimitLog
}.

Inductive PgError : Type :=
| integer_out_of_range
| unique_violation (constraint : string)
| check_violation (constraint : string)
| foreign_key_violation (constraint : string)
| no_single_row
| backend_failure (message : string).

(** *** Row level security *)

(** The role of a database session: [anon] for a visitor, [authenticated]
    for a signed-in member of the staff.  The three tables have row level
    security enabled, and the functions run with the rights of the session
    that calls them. *)
Inductive Role : Type := anon | authenticated.

(** The policies of [orders]: everyone may insert and read; only
    ["Authenticated users can manage orders"] ([FOR ALL TO authenticated
    USING (true)]) lets a session update a row. *)
Definition may_update (role : Role) (r : OrderRow) : bool :=
  match role with
  | authenticated => true
  | anon => false
  end.

(** The policies of [rate_limit_logs]: everyone may insert; only
    ["Authenticated users can read rate limit logs"] lets a session see a
    row. *)
Definition may_read_log (role : Role) (l : RateLimitLog) : bool :=
  match role with
  | authenticated => true
  | anon => false
  end.

(** *** Column assignments *)

Definition with_status (s : OrderStatus) (r : OrderRow) : OrderRow :=
  mkOrderRow (id r) (order_number r) (customer_name r) (contact_number r)
    (service_type r) (address r) (landmark r) (pickup_time r) (party_size r)
    (dine_in_time r) (payment_method r) (reference_number r) s (total r)
    (notes r) (customer_ip r) (created_at r) (updated_at r) (completed_at r)
    (delivery_fee r) (lalamove_quotation_id r) (lalamove_order_id r)
    (lalamove_status r) (lalamove_tracking_url r).

Definition with_updated_at (t : Z) (r : OrderRow) : OrderRow :=
  mkOrderRow (id r) (order_number r) (customer_name r) (contact_number r)
    (service_type r) (address r) (landmark r) (pickup_time r) (party_size r)
    (dine_in_time r) (payment_method r) (reference_number r) (status r)
    (total r) (notes r) (customer_ip r) (created_at r) t (completed_at r)
    (delivery_fee r) (lalamove_quotation_id r) (lalamove_order_id r)
    (lalamove_status r) (lalamove_tracking_url r).

Definition with_completed_at (t : option Z) (r : OrderRow) : OrderRow :=
  mkOrderRow (id r) (order_number r) (customer_name r) (contact_number r)
    (service_type r) (address r) (landmark r) (pickup_time r) (party_size r)
    (dine_in_time r) (payment_method r) (reference_number r) (status r)
    (total r) (notes r) (customer_ip r) (created_at r) (updated_at r) t
    (delivery_fee r) (lalamove_quotation_id r) (lalamove_order_id r)
    (lalamove_status r) (lalamove_tracking_url r).

Definition with_lalamove (oid st url : option string) (r : OrderRow) : OrderRow :=
  mkOrderRow (id r) (order_number r) (customer_name r) (contact_number r)
    (service_type r) (address r) (landmark r) (pickup_time r) (party_size r)
    (dine_in_time r) (payment_method r) (reference_number r) (status r)
    (total r) (notes r) (customer_ip r) (created_at r) (updated_at r)
    (completed_at r) (delivery_fee r) (lalamove_quotation_id r) oid st url.

Definition with_delivery_fee (fee : option Z) (r : OrderRow) : OrderRow :=
  mkOrderRow (id r) (order_number r) (customer_name r) (contact_number r)
    (service_type r) (address r) (landmark r) (pickup_time r) (party_size r)
    (dine_in_time r) (payment_method r) (reference_number r) (status r)
    (total r) (notes r) (customer_ip r) (created_at r) (updated_at r)
    (completed_at r) fee (lalamove_quotation_id r) (lalamove_order_id r)
    (lalamove_status r) (lalamove_tracking_url r).

(** *** [generate_order_number] *)

Definition int4_max : Z := 2147483647.
Definition int4_min : Z := -2147483648.

(** A value stored in an [integer] variable: out of range is an error. *)
Definition int4 (z : Z) : PgError + Z :=
  if (int4_min <=? z) && (z <=? int4_max) then inr z
  else inl integer_out_of_range.

(** [SELECT COUNT( * ) FROM orders WHERE DATE(created_at) = CURRENT_DATE]. *)
Definition count_today (os : list OrderRow) (today : Date) : Z :=
  Z.of_nat (List.length
    (filter (fun o => Date_eqb (DATE (created_at o)) today) os)).

(** [EXISTS (SELECT 1 FROM orders WHERE order_number = n)]. *)
Definition number_exists (os : list OrderRow) (n : string) : bool :=
  existsb (fun o => String.eqb (order_number o) n) os.

(** ['ORD-' || TO_CHAR(CURRENT_DATE, 'YYYYMMDD') || '-' || LPAD(seq::text, 4, '0')]. *)
Definition format_order_number (today : Date) (seq : Z) : string :=
  "ORD-" ++ TO_CHAR_YYYYMMDD today ++ "-" ++ Text.lpad (Text.of_Z seq) 4 "0"%char.

(** The [WHILE EXISTS ... LOOP]; [None] when the fuel runs out before the
    loop has left. *)
Fixpoint uniqueness_loop (fuel : nat) (os : list OrderRow) (today : Date)
    (order_count : Z) (new_order_number : string) : option (PgError + string) :=
  match fuel with
  | O => None
  | S fuel' =>
      if number_exists os new_order_number then
        match int4 (order_count + 1) with
        | inl e => Some (inl e)
        | inr order_count' =>
            match int4 (order_count' + 1) with
            | inl e => Some (inl e)
            | inr seq =>
                uniqueness_loop fuel' os today order_count'
                  (format_order_number today seq)
            end
        end
      else Some (inr new_order_number)
  end.

(** The function body; [now] is the transaction's [now()], from which
    [CURRENT_DATE] is taken. *)
Definition generate_order_number (fuel : nat) (os : list OrderRow) (now : Z)
    : option (PgError + string) :=
  let today := DATE now in
  match int4 (count_today os today) with
  | inl e => Some (inl e)
  | inr order_count =>
      match int4 (order_count + 1) with
      | inl e => Some (inl e)
      | inr seq =>
          uniqueness_loop fuel os today order_count
            (format_order_number today seq)
      end
  end.

(** *** [check_rate_limit] *)

Definition action_type_ok (a : string) : bool :=
  String.eqb a "order_placement" || String.eqb a "admin_action".

(** [SELECT MAX(timestamp) ... WHERE ... AND expires_at > now()]. *)
Definition last_action_time (logs : list RateLimitLog) (p_ip_address p_action_type : string)
    (now : Z) : option Z :=
  fold_right
    (fun l acc =>
       if String.eqb (ip_address l) p_ip_address
          && String.eqb (action_type l) p_action_type
          && (now <? expires_at l)
       then match acc with
            | None => Some (log_timestamp l)
            | Some m => Some (Z.max (log_timestamp l) m)
            end
       else acc)
    None logs.

(** [INSERT INTO rate_limit_logs (ip_address, action_type, expires_at)]. *)
Definition insert_rate_limit_log (logs : list RateLimitLog) (uuid : string)
    (p_ip_address p_action_type : string) (now expires : Z)
    : PgError + list RateLimitLog :=
  if action_type_ok p_action_type
  then inr (logs ++ [mkRateLimitLog uuid p_ip_address p_action_type now expires])%list
  else inl (check_violation "rate_limit_logs_action_type_check").

Definition seconds (n : Z) : Z := n * 1000000.

(** The function is not [SECURITY DEFINER]: its [SELECT] sees the rows the
    calling session may read, its [INSERT] is open to every session. *)
Definition check_rate_limit (role : Role) (logs : list RateLimitLog)
    (uuid : string) (p_ip_address p_action_type : string)
    (p_cooldown_seconds : Z) (now : Z)
    : PgError + (bool * list RateLimitLog) :=
  let record_action :=
    match insert_rate_limit_log logs uuid p_ip_address p_action_type now
            (now + seconds p_cooldown_seconds) with
    | inl e => inl e
    | inr logs' => inr (true, logs')
    end in
  match last_action_time (filter (may_read_log role) logs) p_ip_address
          p_action_type now with
  | None => record_action
  | Some t =>
      let cooldown_end := t + seconds p_cooldown_seconds in
      if cooldown_end <=? now then record_action
      else inr (false, logs)
  end.

(** *** Triggers of [orders] *)

Definition update_updated_at_column (OLD NEW : OrderRow) (now : Z) : OrderRow :=
  with_updated_at now NEW.

Definition set_completed_at (OLD NEW : OrderRow) (now : Z) : OrderRow :=
  if OrderStatus_eqb (status NEW) completed
     && negb (OrderStatus_eqb (status OLD) completed)
  then with_completed_at (Some now) NEW
  else if negb (OrderStatus_eqb (status NEW) completed)
  then with_completed_at None NEW
  else NEW.

(** The [BEFORE UPDATE] triggers fire in the order of their names:
    [set_orders_completed_at], then [update_orders_updated_at]. *)
Definition before_update (OLD NEW : OrderRow) (now : Z) : OrderRow :=
  update_updated_at_column OLD (set_completed_at OLD NEW now) now.

(** *** Statements *)

(** [UPDATE orders SET ... WHERE ...]: one statement, on the rows that the
    [WHERE] clause selects among those the session may update.  [fault] is
    what the backend may raise while it works on a row; an error on any row
    aborts the statement and no row is changed. *)
Fixpoint update_rows (sel : OrderRow -> bool) (set : OrderRow -> OrderRow)
    (fault : OrderRow -> option PgError) (now : Z) (rows : list OrderRow)
    : PgError + list OrderRow :=
  match rows with
  | [] => inr []
  | r :: rows' =>
      if sel r then
        match fault r with
        | Some e => inl e
        | None =>
            match update_rows sel set fault now rows' with
            | inl e => inl e
            | inr rows'' => inr (before_update r (set r) now :: rows'')
            end
        end
      else
        match update_rows sel set fault now rows' with
        | inl e => inl e
        | inr rows'' => inr (r :: rows'')
        end
  end.

(** In the session of [role]: a row that the policies do not let the session
    update is passed over without an error. *)
Definition update_orders (role : Role) (d : Database) (sel : OrderRow -> bool)
    (set : OrderRow -> OrderRow) (fault : OrderRow -> option PgError) (now : Z)
    : PgError + Database :=
  match update_rows (fun r => may_update role r && sel r) set fault now
          (orders d) with
  | inl e => inl e
  | inr rows => inr (mkDatabase rows (order_items d) (rate_limit_logs d))
  end.

(** The row an insert of [values] makes: [id], [created_at] and
    [updated_at] take their defaults. *)
Definition inserted_row (uuid : string) (now : Z) (values : OrderRow) : OrderRow :=
  mkOrderRow uuid (order_number values) (customer_name values)
    (contact_number values) (service_type values) (address values)
    (landmark values) (pickup_time values) (party_size values)
    (dine_in_time values) (payment_method values)
    (reference_number values) (status values) (total values)
    (notes values) (customer_ip values) now now (completed_at values)
    (delivery_fee values) (lalamove_quotation_id values)
    (lalamove_order_id values) (lalamove_status values)
    (lalamove_tracking_url values).

(** [INSERT INTO orders ... RETURNING *]: [order_number] and [id] are
    unique. *)
Definition insert_order (d : Database) (uuid : string) (now : Z)
    (values : OrderRow) : PgError + (OrderRow * Database) :=
  if number_exists (orders d) (order_number values)
  then inl (unique_violation "orders_order_number_key")
  else if existsb (fun o => String.eqb (id o) uuid) (orders d)
  then inl (unique_violation "orders_pkey")
  else
    let row := inserted_row uuid now values in
    inr (row, mkDatabase (orders d ++ [row])%list (order_items d) (rate_limit_logs d)).

(** The constraints an [order_items] row has to pass. *)
Definition item_violation (d : Database) (it : OrderItemRow) : option PgError :=
  if negb (existsb (fun o => String.eqb (id o) (order_id it)) (orders d))
  then Some (foreign_key_violation "order_items_order_id_fkey")
  else if quantity it <=? 0
  then Some (check_violation "order_items_quantity_check")
  else None.

Fixpoint first_violation (d : Database) (its : list OrderItemRow) : option PgError :=
  match its with
  | [] => None
  | it :: its' =>
      match item_violation d it with
      | Some e => Some e
      | None => first_violation d its'
      end
  end.

(** The defaults of [order_items]: [id] and [created_at]. *)
Fixpoint with_item_defaults (uuid : nat -> string) (now : Z) (k : nat)
    (its : list OrderItemRow) : list OrderItemRow :=
  match its with
  | [] => []
  | it :: its' =>
      mkOrderItemRow (uuid k) (order_id it) (menu_item_id it)
        (menu_item_name it) (quantity it) (unit_price it) (total_price it)
        (selected_variation it) (selected_add_ons it) now
      :: with_item_defaults uuid now (S k) its'
  end.

(** [INSERT INTO order_items] of several rows: one statement, all rows or
    none. *)
Definition insert_order_items (d : Database) (uuid : nat -> string) (now : Z)
    (its : list OrderItemRow) : PgError + Database :=
  match first_violation d its with
  | Some e => inl e
  | None =>
      inr (mkDatabase (orders d)
             (order_items d ++ with_item_defaults uuid now 0 its)%list
             (rate_limit_logs d))
  end.

(** [SELECT *, order_items( * ) FROM orders WHERE id = ...] with [.single()]. *)
Definition select_order (d : Database) (id0 : string)
    : PgError + (OrderRow * list OrderItemRow) :=
  match filter (fun r => String.eqb (id r) id0) (orders d) with
  | [r] => inr (r, filter (fun it => String.eqb (order_id it) id0) (order_items d))
  | _ => inl no_single_row
  end.

(** The numbers of a day are carried by orders created on that day. *)
Definition day_scoped (os : list OrderRow) (today : Date) : Prop :=
  forall o seq, In o os -> order_number o = format_order_number today seq ->
                DATE (created_at o) = today.

(** The completion timestamp is there exactly when the order is completed. *)
Definition completion_inv (r : OrderRow) : Prop :=
  completed_at r <> None <-> status r = completed.

End Db.

(* ------------------------------------------------------------------------- *)
(** ** The [useOrders] hook *)

Module Hook.

Import Db.

(** What a [throw] carries: the error object of the backend client, or a
    JavaScript [Error] with its message. *)
Inductive Thrown : Type :=
| PostgrestError (e : PgError)
| JsError (message : string).

(** A line of [console.error]. *)
Inductive LogLine : Type := Log (label : string) (what : option Thrown).

Record CartItem : Type := mkCartItem {
  cart_id : string;
  name : string;
  cart_quantity : Z;
  totalPrice : Z;
  selectedVariation : option string;
  selectedAddOns : option string
}.

Record CreateOrderOptions : Type := mkOptions {
  opt_address : option string;
  opt_landmark : option string;
  opt_pickupTime : option string;
  opt_partySize : option Z;
  opt_dineInTime : option string;
  opt_referenceNumber : option string;
  opt_notes : option string;
  opt_deliveryFee : option Z;
  opt_lalamoveQuotationId : option string;
  opt_deliveryLat : option string;
  opt_deliveryLng : option string
}.

Record DeliveryStoreConfig : Type := mkConfig {
  market : string;
  serviceType : string;
  sandbox : bool;
  storeName : string;
  storePhone : string;
  storeAddress : string;
  storeLatitude : string;
  storeLongitude : string
}.

Record DeliveryOrderResult : Type := mkDeliveryOrderResult {
  orderId : string;
  bookingStatus : string;
  shareLink : string;
  driverId : option string
}.

(** The arguments [createDeliveryOrder] is called with. *)
Record BookingCall : Type := mkBookingCall {
  bc_quotationId : string;
  bc_recipientName : string;
  bc_recipientPhone : string;
  bc_config : DeliveryStoreConfig;
  bc_orderId : string;
  bc_deliveryAddress : option string;
  bc_deliveryLat : option string;
  bc_deliveryLng : option string
}.

(** An order as the hook hands it out ([formatOrderData]). *)
Record Order : Type := mkOrder {
  row : OrderRow;
  items : list OrderItemRow
}.

(** The state the hook works on. *)
Record World : Type := mkWorld {
  db : Database;
  storage : RateLimit.LocalStorage;
  client_session_id : option string;      (* [sessionStorage] *)
  console : list LogLine;
  hook_orders : list Order;               (* [orders] state *)
  hook_error : option string              (* [error] state *)
}.

(** What the outside decides during one call of a hook operation. *)
Record Outside : Type := mkOutside {
  session_now : Z;                 (* [Date.now()] in [getClientIP] *)
  session_random : string;         (* [Math.random().toString(36).substr(2, 9)] *)
  check_now0 : Z;                  (* readings in [checkRateLimit] *)
  check_now : Z;
  record_now0 : Z;                 (* readings in [recordAction] *)
  record_now : Z;
  rpc_fault : option PgError;      (* the [rpc] call fails before it runs *)
  rpc_now : Z;                     (* [now()] of the [rpc] transaction *)
  rpc_fuel : nat;                  (* loop rounds before the statement times out *)
  insert_fault : option PgError;   (* the order insert fails *)
  insert_uuid : string;
  insert_now : Z;
  items_fault : option PgError;    (* the items insert fails *)
  item_uuid : nat -> string;
  items_now : Z;
  book : BookingCall -> Thrown + DeliveryOrderResult;  (* [createDeliveryOrder] *)
  update_request_fault : option PgError;       (* an update request fails *)
  update_fault : OrderRow -> option PgError;   (* an update fails on a row *)
  update_now : Z;
  fetch_fault : option PgError;    (* the single-order read fails *)
  list_fault : option PgError;     (* the list read fails *)
  checkout_role : Role             (* the session in which [createOrder] runs *)
}.

(** *** State and exceptions *)

Definition M (A : Type) : Type := World -> (Thrown + A) * World.

Definition ret {A} (a : A) : M A := fun w => (inr a, w).

Definition bind {A B} (m : M A) (k : A -> M B) : M B :=
  fun w => match m w with
           | (inl e, w') => (inl e, w')
           | (inr a, w') => k a w'
           end.

Definition throw {A} (e : Thrown) : M A := fun w => (inl e, w).

Definition console_error (label : string) (what : option Thrown) : M unit :=
  fun w => (inr tt,
            mkWorld (db w) (storage w) (client_session_id w)
              (console w ++ [Log label what])%list (hook_orders w) (hook_error w)).

(** [try { m } catch (err) { console.error(label, err); throw err; }] *)
Definition try_log_rethrow {A} (label : string) (m : M A) : M A :=
  fun w => match m w with
           | (inl e, w') =>
               match console_error label (Some e) w' with
               | (_, w'') => (inl e, w'')
               end
           | (inr a, w') => (inr a, w')
           end.

(** [try { m } catch (err) { console.error(label, err); }] with [d] as the
    value that is left when [m] throws. *)
Definition try_log_swallow {A} (label : string) (d : A) (m : M A) : M A :=
  fun w => match m w with
           | (inl e, w') =>
               match console_error label (Some e) w' with
               | (_, w'') => (inr d, w'')
               end
           | (inr a, w') => (inr a, w')
           end.

Declare Scope hook_scope.
Delimit Scope hook_scope with hook.
Notation "x <- m ;; k" := (bind m (fun x => k))
  (at level 100, m at next level, right associativity) : hook_scope.
Notation "m ;;; k" := (bind m (fun _ => k))
  (at level 100, right associativity) : hook_scope.
Local Open Scope hook_scope.

Definition get_db : M Database := fun w => (inr (db w), w).

Definition put_db (d : Database) : M unit :=
  fun w => (inr tt, mkWorld d (storage w) (client_session_id w) (console w)
                      (hook_orders w) (hook_error w)).

Definition put_storage (s : RateLimit.LocalStorage) : M unit :=
  fun w => (inr tt, mkWorld (db w) s (client_session_id w) (console w)
                      (hook_orders w) (hook_error w)).

Definition put_session (s : string) : M unit :=
  fun w => (inr tt, mkWorld (db w) (storage w) (Some s) (console w)
                      (hook_orders w) (hook_error w)).

Definition put_view (os : list Order) (err : option string) : M unit :=
  fun w => (inr tt, mkWorld (db w) (storage w) (client_session_id w) (console w)
                      os err).

(** A backend answer [{ data, error }] followed by [if (error) throw error]. *)
Definition or_throw {A} (r : PgError + A) : M A :=
  match r with
  | inl e => throw (PostgrestError e)
  | inr a => ret a
  end.

(** *** JavaScript values *)

(** [x || null] on an optional string: the empty string is falsy. *)
Definition truthy_string (o : option string) : option string :=
  match o with
  | Some s => if String.eqb s "" then None else Some s
  | None => None
  end.

(** [x || null] on an optional number: zero is falsy. *)
Definition truthy_number (o : option Z) : option Z :=
  match o with
  | Some n => if n =? 0 then None else Some n
  | None => None
  end.

(** White space, within ASCII. *)
Definition is_space (c : ascii) : bool :=
  let n := nat_of_ascii c in ((9 <=? n)%nat && (n <=? 13)%nat) || (n =? 32)%nat.

Fixpoint trim_left (s : string) : string :=
  match s with
  | String c s' => if is_space c then trim_left s' else s
  | EmptyString => EmptyString
  end.

Fixpoint string_rev (s acc : string) : string :=
  match s with
  | EmptyString => acc
  | String c s' => string_rev s' (String c acc)
  end.

(** [s.trim()] *)
Definition trim (s : string) : string :=
  string_rev (trim_left (string_rev (trim_left s) "")) "".

(** [s.replace(/\D/g, '')] *)
Fixpoint only_digits (s : string) : string :=
  match s with
  | EmptyString => EmptyString
  | String c s' =>
      if Text.is_digit c then String c (only_digits s') else only_digits s'
  end.

Definition normalizePhoneNumber (phone : string) : option string :=
  if String.eqb phone "" then None else
  let trimmed := trim phone in
  if String.eqb trimmed "" then None else
  if prefix "+" trimmed then Some trimmed else
  let digits := only_digits trimmed in
  if String.eqb digits "" then None else
  let isPH := prefix "63" digits || prefix "0" digits || prefix "9" digits in
  if isPH then
    if prefix "63" digits then Some ("+" ++ digits)
    else if prefix "0" digits
    then Some ("+63" ++ substring 1 (String.length digits - 1) digits)
    else Some ("+63" ++ digits)
  else Some ("+" ++ digits).

Definition is_hex (c : ascii) : bool :=
  let n := nat_of_ascii c in
  ((48 <=? n) && (n <=? 57) || (65 <=? n) && (n <=? 70)
   || (97 <=? n) && (n <=? 102))%nat.

(** A run of [n] hexadecimal digits at the head of [s]; what follows it. *)
Fixpoint hex_run (n : nat) (s : string) : option string :=
  match n, s with
  | O, _ => Some s
  | S n', String c s' => if is_hex c then hex_run n' s' else None
  | S _, EmptyString => None
  end.

Definition hyphen (s : string) : option string :=
  match s with
  | String "-"%char s' => Some s'
  | _ => None
  end.

Definition and_then {A B} (o : option A) (f : A -> option B) : option B :=
  match o with
  | Some a => f a
  | None => None
  end.

(** [id.match(/^([0-9a-f]{8}-[0-9a-f]{4}-[0-9a-f]{4}-[0-9a-f]{4}-[0-9a-f]{12})/i)] *)
Definition uuid_match (s : string) : option string :=
  and_then (hex_run 8 s) (fun s1 =>
  and_then (hyphen s1) (fun s2 =>
  and_then (hex_run 4 s2) (fun s3 =>
  and_then (hyphen s3) (fun s4 =>
  and_then (hex_run 4 s4) (fun s5 =>
  and_then (hyphen s5) (fun s6 =>
  and_then (hex_run 4 s6) (fun s7 =>
  and_then (hyphen s7) (fun s8 =>
  and_then (hex_run 12 s8) (fun _ => Some (substring 0 36 s)))))))))).

(** *** The rate limiter as the hook calls it *)

Definition read_fails (ls : RateLimit.LocalStorage) : bool :=
  RateLimit.getItem_throws ls
  || match RateLimit.item ls with
     | RateLimit.Unreadable => true
     | _ => false
     end.

Definition log_if (b : bool) (label : string) : M unit :=
  if b then console_error label None else ret tt.

(** [getClientIP] *)
Definition getClientIP (o : Outside) : M string :=
  fun w =>
    match truthy_string (client_session_id w) with
    | Some sessionId => (inr sessionId, w)
    | None =>
        let sessionId :=
          "session_" ++ Text.of_Z (session_now o) ++ "_" ++ session_random o in
        (put_session sessionId ;;; ret sessionId) w
    end.

Definition checkRateLimit (o : Outside) (ip : string) (a : RateLimit.ActionType)
    (cooldownSeconds : Z) : M RateLimit.RateLimitResult :=
  fun w =>
    (log_if (read_fails (storage w)) "Error reading rate limits from storage:" ;;;
     ret (RateLimit.checkRateLimit (storage w) ip a cooldownSeconds
            (check_now0 o) (check_now o))) w.

Definition recordAction (o : Outside) (ip : string) (a : RateLimit.ActionType)
    (cooldownSeconds : Z) : M unit :=
  fun w =>
    (log_if (read_fails (storage w)) "Error reading rate limits from storage:" ;;;
     log_if (RateLimit.setItem_throws (storage w))
            "Error saving rate limits to storage:" ;;;
     put_storage (RateLimit.recordAction (storage w) ip a cooldownSeconds
                    (record_now0 o) (record_now o))) w.

(** *** Reading orders *)

Definition formatOrderData (r : OrderRow) (its : list OrderItemRow) : Order :=
  mkOrder (with_delivery_fee (truthy_number (delivery_fee r)) r) its.

Definition items_of (d : Database) (r : OrderRow) : list OrderItemRow :=
  filter (fun it => String.eqb (order_id it) (id r)) (order_items d).

(** [err instanceof Error ? err.message : fallback] *)
Definition message_or (e : Thrown) (fallback : string) : string :=
  match e with
  | JsError m => m
  | PostgrestError _ => fallback
  end.

(** [fetchOrders()] without filters; it never throws. *)
Definition fetchOrders (o : Outside) : M unit :=
  fun w =>
    match list_fault o with
    | Some e =>
        (console_error "Error fetching orders:" (Some (PostgrestError e)) ;;;
         put_view (hook_orders w)
           (Some (message_or (PostgrestError e) "Failed to fetch orders"))) w
    | None =>
        put_view
          (map (fun r => formatOrderData r (items_of (db w) r))
             (Js.sort (fun a b => created_at b - created_at a) (orders (db w))))
          None w
    end.

Definition fetchOrderById (o : Outside) (id0 : string) : M (option Order) :=
  try_log_rethrow "Error fetching order:"
    (d <- get_db ;;
     data <- match fetch_fault o with
             | Some e => throw (PostgrestError e)
             | None => or_throw (select_order d id0)
             end ;;
     ret (Some (formatOrderData (fst data) (snd data)))).

(** *** [createOrder] *)

Definition opt {A} (f : CreateOrderOptions -> option A)
    (options : option CreateOrderOptions) : option A :=
  match options with
  | Some os => f os
  | None => None
  end.

Definition rate_limit_message (r : RateLimit.RateLimitResult) : string :=
  "Rate limit exceeded. "
  ++ match truthy_number (RateLimit.cooldownRemaining r) with
     | Some n => "Please wait " ++ Text.of_Z n ++ " seconds."
     | None => "Please try again later."
     end.

(** [supabase.rpc('generate_order_number')]; a loop that outlives the
    statement timeout is cancelled by the backend. *)
Definition rpc_generate_order_number (o : Outside) : M string :=
  d <- get_db ;;
  match rpc_fault o with
  | Some e => throw (PostgrestError e)
  | None =>
      match generate_order_number (rpc_fuel o) (orders d) (rpc_now o) with
      | None =>
          throw (PostgrestError
                   (backend_failure "canceling statement due to statement timeout"))
      | Some r => or_throw r
      end
  end.

Definition order_values (orderNumber customerName contactNumber : string)
    (serviceType : ServiceType) (paymentMethod : string) (total : Z)
    (options : option CreateOrderOptions) (clientIP : string) : OrderRow :=
  mkOrderRow "" orderNumber customerName contactNumber serviceType
    (truthy_string (opt opt_address options))
    (truthy_string (opt opt_landmark options))
    (truthy_string (opt opt_pickupTime options))
    (truthy_number (opt opt_partySize options))
    (truthy_string (opt opt_dineInTime options))
    paymentMethod
    (truthy_string (opt opt_referenceNumber options))
    pending total
    (truthy_string (opt opt_notes options))
    clientIP 0 0 None
    (opt opt_deliveryFee options)
    (truthy_string (opt opt_lalamoveQuotationId options))
    None None None.

Definition order_item_values (order : OrderRow) (item : CartItem) : OrderItemRow :=
  let menuItemId :=
    if String.eqb (cart_id item) "" then None else uuid_match (cart_id item) in
  mkOrderItemRow "" (id order) menuItemId (name item) (cart_quantity item)
    (totalPrice item) (totalPrice item * cart_quantity item)
    (truthy_string (selectedVariation item))
    (truthy_string (selectedAddOns item)) 0.

Definition insert_order_request (o : Outside) (values : OrderRow) : M OrderRow :=
  d <- get_db ;;
  match insert_fault o with
  | Some e => throw (PostgrestError e)
  | None =>
      r <- or_throw (insert_order d (insert_uuid o) (insert_now o) values) ;;
      put_db (snd r) ;;; ret (fst r)
  end.

Definition insert_items_request (o : Outside) (its : list OrderItemRow) : M unit :=
  d <- get_db ;;
  match items_fault o with
  | Some e => throw (PostgrestError e)
  | None =>
      d' <- or_throw (insert_order_items d (item_uuid o) (items_now o) its) ;;
      put_db d'
  end.

Definition update_request (o : Outside) (role : Role) (sel : OrderRow -> bool)
    (set : OrderRow -> OrderRow) : M unit :=
  d <- get_db ;;
  match update_request_fault o with
  | Some e => throw (PostgrestError e)
  | None =>
      d' <- or_throw (update_orders role d sel set (update_fault o)
                        (update_now o)) ;;
      put_db d'
  end.

Definition createOrder (o : Outside) (lalamoveConfig : option DeliveryStoreConfig)
    (cartItems : list CartItem) (customerName contactNumber : string)
    (serviceType : ServiceType) (paymentMethod : string) (total : Z)
    (options : option CreateOrderOptions) : M Order :=
  try_log_rethrow "Error creating order:"
    (clientIP <- getClientIP o ;;
     rateLimitCheck <- checkRateLimit o clientIP RateLimit.order_placement 30 ;;
     if negb (RateLimit.allowed rateLimitCheck)
     then throw (JsError (rate_limit_message rateLimitCheck))
     else
     orderNumber <- rpc_generate_order_number o ;;
     if String.eqb orderNumber ""
     then throw (JsError "Failed to generate order number")
     else
     order <- insert_order_request o
                (order_values orderNumber customerName contactNumber serviceType
                   paymentMethod total options clientIP) ;;
     let orderItems := map (order_item_values order) cartItems in
     insert_items_request o orderItems ;;;
     lalamoveOrderResult <-
       match serviceType, truthy_string (opt opt_lalamoveQuotationId options),
             lalamoveConfig with
       | delivery, Some quotationId, Some config =>
           try_log_swallow "Failed to create Lalamove order:" None
             (let normalizedRecipientPhone :=
                match normalizePhoneNumber contactNumber with
                | Some p => p
                | None => contactNumber
                end in
              match book o (mkBookingCall quotationId customerName
                              normalizedRecipientPhone config (id order)
                              (opt opt_address options)
                              (opt opt_deliveryLat options)
                              (opt opt_deliveryLng options)) with
              | inl e => throw e
              | inr r => ret (Some r)
              end)
       | _, _, _ => ret None
       end ;;
     match lalamoveOrderResult with
     | Some r =>
         fun w =>
           match update_request o (checkout_role o)
                   (fun x => String.eqb (id x) (id order))
                   (with_lalamove (Some (orderId r)) (Some (bookingStatus r))
                      (Some (shareLink r))) w with
           | (inl e, w') =>
               console_error "Failed to save Lalamove order info:" (Some e) w'
           | (inr _, w') => (inr tt, w')
           end
     | None => ret tt
     end ;;;
     recordAction o clientIP RateLimit.order_placement 30 ;;;
     completeOrder <- fetchOrderById o (id order) ;;
     match completeOrder with
     | None => throw (JsError "Failed to fetch created order")
     | Some c => fetchOrders o ;;; ret c
     end).

(** The stages of [createOrder], named for reasoning: the throttle, the two
    inserts, the booking with the save of its result, and the rest.
    [createOrder_stages] below shows that [createOrder] is their sequence. *)

Definition throttle (o : Outside) : M string :=
  clientIP <- getClientIP o ;;
  rateLimitCheck <- checkRateLimit o clientIP RateLimit.order_placement 30 ;;
  if negb (RateLimit.allowed rateLimitCheck)
  then throw (JsError (rate_limit_message rateLimitCheck))
  else ret clientIP.

Definition persist (o : Outside) (cartItems : list CartItem)
    (customerName contactNumber : string) (serviceType : ServiceType)
    (paymentMethod : string) (total : Z) (options : option CreateOrderOptions)
    (clientIP : string) : M OrderRow :=
  orderNumber <- rpc_generate_order_number o ;;
  if String.eqb orderNumber ""
  then throw (JsError "Failed to generate order number")
  else
  order <- insert_order_request o
             (order_values orderNumber customerName contactNumber serviceType
                paymentMethod total options clientIP) ;;
  insert_items_request o (map (order_item_values order) cartItems) ;;;
  ret order.

Definition booking (o : Outside) (lalamoveConfig : option DeliveryStoreConfig)
    (customerName contactNumber : string) (serviceType : ServiceType)
    (options : option CreateOrderOptions) (order : OrderRow)
    : M (option DeliveryOrderResult) :=
  match serviceType, truthy_string (opt opt_lalamoveQuotationId options),
        lalamoveConfig with
  | delivery, Some quotationId, Some config =>
      try_log_swallow "Failed to create Lalamove order:" None
        (let normalizedRecipientPhone :=
           match normalizePhoneNumber contactNumber with
           | Some p => p
           | None => contactNumber
           end in
         match book o (mkBookingCall quotationId customerName
                         normalizedRecipientPhone config (id order)
                         (opt opt_address options)
                         (opt opt_deliveryLat options)
                         (opt opt_deliveryLng options)) with
         | inl e => throw e
         | inr r => ret (Some r)
         end)
  | _, _, _ => ret None
  end.

Definition save_booking (o : Outside) (order : OrderRow)
    (lalamoveOrderResult : option DeliveryOrderResult) : M unit :=
  match lalamoveOrderResult with
  | Some r =>
      fun w =>
        match update_request o (checkout_role o)
                (fun x => String.eqb (id x) (id order))
                (with_lalamove (Some (orderId r)) (Some (bookingStatus r))
                   (Some (shareLink r))) w with
        | (inl e, w') =>
            console_error "Failed to save Lalamove order info:" (Some e) w'
        | (inr _, w') => (inr tt, w')
        end
  | None => ret tt
  end.

Definition finish (o : Outside) (clientIP : string) (order : OrderRow) : M Order :=
  recordAction o clientIP RateLimit.order_placement 30 ;;;
  completeOrder <- fetchOrderById o (id order) ;;
  match completeOrder with
  | None => throw (JsError "Failed to fetch created order")
  | Some c => fetchOrders o ;;; ret c
  end.

(** *** Status changes *)

(** Status changes are the staff's operations: they run in a signed-in
    session, the one the policies let update orders. *)
Definition updateOrderStatus (o : Outside) (id0 : string) (s : OrderStatus) : M unit :=
  try_log_rethrow "Error updating order status:"
    (update_request o authenticated (fun r => String.eqb (id r) id0)
       (with_status s) ;;;
     fetchOrders o).

Definition bulkUpdateStatus (o : Outside) (ids : list string) (s : OrderStatus) : M unit :=
  try_log_rethrow "Error bulk updating order status:"
    (update_request o authenticated
       (fun r => existsb (String.eqb (id r)) ids) (with_status s) ;;;
     fetchOrders o).

End Hook.

(* ------------------------------------------------------------------------- *)
(** ** Web Crypto and [btoa]: SHA-256, HMAC, base64 *)

Module Crypto.

Local Open Scope N_scope.

(** Strings are taken as the bytes of their UTF-8 encoding, which is what
    [TextEncoder.encode] produces. *)
Fixpoint encode (s : string) : list N :=
  match s with
  | EmptyString => []
  | String c s' => N_of_ascii c :: encode s'
  end.

Definition w32 (x : N) : N := x mod 4294967296.
Definition add32 (x y : N) : N := w32 (x + y).
Definition rotr (n x : N) : N := N.lor (N.shiftr x n) (w32 (N.shiftl x (32 - n))).
Definition not32 (x : N) : N := N.lxor x 4294967295.

Definition Ch (x y z : N) : N := N.lxor (N.land x y) (N.land (not32 x) z).
Definition Maj (x y z : N) : N :=
  N.lxor (N.lxor (N.land x y) (N.land x z)) (N.land y z).
Definition Sigma0 (x : N) : N := N.lxor (N.lxor (rotr 2 x) (rotr 13 x)) (rotr 22 x).
Definition Sigma1 (x : N) : N := N.lxor (N.lxor (rotr 6 x) (rotr 11 x)) (rotr 25 x).
Definition sigma0 (x : N) : N := N.lxor (N.lxor (rotr 7 x) (rotr 18 x)) (N.shiftr x 3).
Definition sigma1 (x : N) : N := N.lxor (N.lxor (rotr 17 x) (rotr 19 x)) (N.shiftr x 10).

(** The round constants and the initial state are the fractional parts of
    the cube and square roots of the first primes. *)
Definition is_prime (n : nat) : bool :=
  forallb (fun d => negb (Nat.eqb (Nat.modulo n d) 0)) (seq 2 (n - 2)).

Definition first_primes : list N :=
  Eval vm_compute in map N.of_nat (filter is_prime (seq 2 310)).

Fixpoint cube_root_bits (bits : nat) (n r : N) : N :=
  match bits with
  | O => r
  | S b =>
      let c := N.lor r (N.shiftl 1 (N.of_nat b)) in
      if c * c * c <=? n then cube_root_bits b n c else cube_root_bits b n r
  end.

Definition round_constants : list N :=
  Eval vm_compute in
    map (fun p => w32 (cube_root_bits 36 (p * N.shiftl 1 96) 0)) first_primes.

Definition initial_state : list N :=
  Eval vm_compute in
    map (fun p => w32 (N.sqrt (p * N.shiftl 1 64))) (firstn 8 first_primes).

(** Padding: a 1 bit, zeros, and the bit length on 64 bits. *)
Definition be_bytes (count : nat) (x : N) : list N :=
  map (fun i => N.shiftr x (8 * N.of_nat (count - 1 - i)) mod 256) (seq 0 count).

Definition pad (msg : list N) : list N :=
  let len := N.of_nat (List.length msg) in
  let zeros := (119 - len mod 64) mod 64 in
  (msg ++ 128 :: repeat 0 (N.to_nat zeros) ++ be_bytes 8 (8 * len))%list.

Fixpoint be_word (bs : list N) (acc : N) : N :=
  match bs with
  | [] => acc
  | b :: bs' => be_word bs' (acc * 256 + b)
  end.

(** Cutting into chunks of [k] elements; [n] bounds the number of chunks. *)
Fixpoint chunks {A} (n k : nat) (l : list A) : list (list A) :=
  match n, l with
  | O, _ => []
  | _, [] => []
  | S n', _ => firstn k l :: chunks n' k (skipn k l)
  end.

Fixpoint schedule (rounds : nat) (w : list N) : list N :=
  match rounds with
  | O => w
  | S r =>
      let t := List.length w in
      let at_ k := nth (t - k) w 0 in
      schedule r
        (w ++ [add32 (add32 (sigma1 (at_ 2%nat)) (at_ 7%nat))
                     (add32 (sigma0 (at_ 15%nat)) (at_ 16%nat))])%list
  end.

Definition round (st : list N) (kw : N * N) : list N :=
  match st with
  | [a; b; c; d; e; f; g; h] =>
      let t1 := add32 (add32 (add32 h (Sigma1 e)) (add32 (Ch e f g) (fst kw))) (snd kw) in
      let t2 := add32 (Sigma0 a) (Maj a b c) in
      [add32 t1 t2; a; b; c; add32 d t1; e; f; g]
  | _ => st
  end.

Definition compress (st : list N) (block : list N) : list N :=
  let w := schedule 48 (map (fun b => be_word b 0) (chunks 16 4 block)) in
  map (fun p => add32 (fst p) (snd p))
      (combine st (fold_left round (combine round_constants w) st)).

Definition sha256 (msg : list N) : list N :=
  let p := pad msg in
  flat_map (be_bytes 4)
    (fold_left compress (chunks (List.length p) 64 p) initial_state).

(** [crypto.subtle.sign('HMAC', key, data)] with hash SHA-256. *)
Definition hmac_sha256 (key data : list N) : list N :=
  let k0 := if (64 <? List.length key)%nat then sha256 key else key in
  let k := (k0 ++ repeat 0 (64 - List.length k0))%list in
  sha256 (map (N.lxor 92) k ++ sha256 (map (N.lxor 54) k ++ data))%list.

(** [btoa] on the byte string of [bytes]. *)
Definition base64_char (i : N) : ascii :=
  if i <? 26 then ascii_of_N (65 + i)
  else if i <? 52 then ascii_of_N (97 + (i - 26))
  else if i <? 62 then ascii_of_N (48 + (i - 52))
  else if i =? 62 then "+"%char else "/"%char.

Fixpoint base64 (fuel : nat) (bytes : list N) : string :=
  match fuel, bytes with
  | O, _ => EmptyString
  | _, [] => EmptyString
  | S _, [a] =>
      String (base64_char (a / 4))
        (String (base64_char (a mod 4 * 16)) "==")
  | S _, [a; b] =>
      String (base64_char (a / 4))
        (String (base64_char (a mod 4 * 16 + b / 16))
           (String (base64_char (b mod 16 * 4)) "="))
  | S fuel', a :: b :: c :: rest =>
      String (base64_char (a / 4))
        (String (base64_char (a mod 4 * 16 + b / 16))
           (String (base64_char (b mod 16 * 4 + c / 64))
              (String (base64_char (c mod 64)) (base64 fuel' rest))))
  end.

Definition arrayBufferToBase64 (buffer : list N) : string :=
  base64 (S (List.length buffer)) buffer.

Definition hex_digit (i : N) : ascii :=
  if i <? 10 then ascii_of_N (48 + i) else ascii_of_N (87 + i).

Fixpoint hex (bytes : list N) : string :=
  match bytes with
  | [] => EmptyString
  | b :: bs => String (hex_digit (b / 16)) (String (hex_digit (b mod 16)) (hex bs))
  end.

End Crypto.

(* ------------------------------------------------------------------------- *)
(** ** [supabase/functions/lalamove/index.ts]: the signing proxy *)

Module Proxy.

Set Warnings "-register-all".

(** JSON values; a number is carried as its text. *)
Inductive Json : Type :=
| JNull
| JBool (b : bool)
| JNumber (text : string)
| JString (s : string)
| JArray (elements : list Json)
| JObject (fields : list (string * Json)).

Set Warnings "register-all".

(** The double quote. *)
Definition dquote : string := String (ascii_of_nat 34) EmptyString.

Definition escape_char (c : ascii) : string :=
  let n := N_of_ascii c in
  if (n =? 34)%N then "\" ++ dquote
  else if (n =? 92)%N then "\\"
  else if (n =? 8)%N then "\b"
  else if (n =? 12)%N then "\f"
  else if (n =? 10)%N then "\n"
  else if (n =? 13)%N then "\r"
  else if (n =? 9)%N then "\t"
  else if (n <? 32)%N
  then "\u00" ++ String (Crypto.hex_digit (n / 16)) (String (Crypto.hex_digit (n mod 16)) "")
  else String c "".

Fixpoint escape (s : string) : string :=
  match s with
  | EmptyString => EmptyString
  | String c s' => escape_char c ++ escape s'
  end.

Definition quote (s : string) : string := dquote ++ escape s ++ dquote.

(** [JSON.stringify] *)
Fixpoint stringify (j : Json) : string :=
  match j with
  | JNull => "null"
  | JBool true => "true"
  | JBool false => "false"
  | JNumber t => t
  | JString s => quote s
  | JArray l =>
      "[" ++ (fix elems (l : list Json) : string :=
                match l with
                | [] => ""
                | [x] => stringify x
                | x :: l' => stringify x ++ "," ++ elems l'
                end) l ++ "]"
  | JObject fs =>
      "{" ++ (fix members (fs : list (string * Json)) : string :=
                match fs with
                | [] => ""
                | [(k, v)] => quote k ++ ":" ++ stringify v
                | (k, v) :: fs' => quote k ++ ":" ++ stringify v ++ "," ++ members fs'
                end) fs ++ "}"
  end.

Record HttpRequest : Type := mkRequest {
  url : string;
  method : string;
  headers : list (string * string);
  body : option string
}.

Record HttpResponse : Type := mkResponse {
  ok : bool;
  text : string;               (* [response.text()] *)
  json : option Json           (* [response.json()], [None] when it rejects *)
}.

(** What the outside decides while one request is made. *)
Record Wire : Type := mkWire {
  sign_now : Z;                             (* [new Date()] in [signRequest] *)
  randomUUID : string;                      (* [crypto.randomUUID()] *)
  fetch : HttpRequest -> string + HttpResponse   (* rejection or response *)
}.

Definition CRLF : string := String (ascii_of_nat 13) (String (ascii_of_nat 10) "").

Definition quoteBaseUrl (sandbox : bool) : string :=
  if sandbox then "https://rest.sandbox.lalamove.com/v3"
  else "https://rest.lalamove.com/v3".

Record Signed : Type := mkSigned { timestamp : string; signature : string }.

(** The string the signature is computed over. *)
Definition message (timestamp method path body : string) : string :=
  timestamp ++ CRLF ++ method ++ CRLF ++ path ++ CRLF ++ CRLF ++ body.

Definition signRequest (now : Z) (method path body secret : string) : Signed :=
  let timestamp := Calendar.toISOString now in
  let key := Crypto.encode secret in
  let signatureBuffer :=
    Crypto.hmac_sha256 key (Crypto.encode (message timestamp method path body)) in
  mkSigned timestamp (Crypto.arrayBufferToBase64 signatureBuffer).

(** The request [makeLalamoveRequest] hands to [fetch]. *)
Definition lalamove_request (API_KEY API_SECRET : string) (w : Wire)
    (method path : string) (body : option (list (string * Json)))
    (market : string) (sandbox : bool) : HttpRequest :=
  let bodyString :=
    match body with
    | Some fields => stringify (JObject fields)
    | None => ""
    end in
  let signature := signature (signRequest (sign_now w) method path bodyString API_SECRET) in
  mkRequest (quoteBaseUrl sandbox ++ path) method
    [("Content-Type", "application/json");
     ("X-LLM-Market", market);
     ("Authorization", "hmac " ++ API_KEY ++ ":" ++ signature);
     ("X-Request-Id", "srv-" ++ randomUUID w)]
    (if String.eqb bodyString "" then None else Some bodyString).

(** [makeLalamoveRequest]: the request that goes out, and what the caller
    gets: a thrown message, or the parsed answer ([None] for [null]). *)
Definition makeLalamoveRequest (API_KEY API_SECRET : string) (w : Wire)
    (method path : string) (body : option (list (string * Json)))
    (market : string) (sandbox : bool)
    : HttpRequest * (string + option Json) :=
  let request := lalamove_request API_KEY API_SECRET w method path body market sandbox in
  (request,
   match fetch w request with
   | inl rejection => inl rejection
   | inr response =>
       if ok response then inr (json response)
       else inl (if String.eqb (text response) ""
                 then "Lalamove API request failed" else text response)
   end).

(** Looking a header up by its name. *)
Fixpoint header (name : string) (hs : list (string * string)) : option string :=
  match hs with
  | [] => None
  | (k, v) :: hs' => if String.eqb k name then Some v else header name hs'
  end.

(** [needle] is legible somewhere in the request: in its address, in a
    header or in its body. *)
Definition carries (needle : string) (r : HttpRequest) : bool :=
  Text.occurs_in needle (url r)
  || existsb (fun h => Text.occurs_in needle (fst h) || Text.occurs_in needle (snd h))
             (headers r)
  || match body r with
     | Some b => Text.occurs_in needle b
     | None => false
     end.

End Proxy.

(* ------------------------------------------------------------------------- *)
(** ** Concrete situations *)

Module Scenario.

Import Db Hook.

(** A working, empty [localStorage]. *)
Definition empty_storage : RateLimit.LocalStorage :=
  RateLimit.mkStorage RateLimit.NoItem false false.

(** Identity [S1] has recorded an order placement at time 0, with the
    pipeline's cooldown of 30 seconds, and with a cooldown of 60 seconds. *)
Definition storage_S1 : RateLimit.LocalStorage :=
  RateLimit.recordAction empty_storage "S1" RateLimit.order_placement 30 0 0.

Definition storage_S1_60 : RateLimit.LocalStorage :=
  RateLimit.recordAction empty_storage "S1" RateLimit.order_placement 60 0 0.

(** A [localStorage] whose content does not parse and that refuses writes. *)
Definition broken_storage : RateLimit.LocalStorage :=
  RateLimit.mkStorage RateLimit.Unreadable false true.

(** 2025-09-02T00:00:00Z, in milliseconds. *)
Definition t0 : Z := 1756771200000.

Definition plain_order (uuid number : string) (st : OrderStatus)
    (done : option Z) : OrderRow :=
  mkOrderRow uuid number "Ann" "09171234567" dine_in None None None None None
    "cash" None st 240 None "S1" (t0 * 1000) (t0 * 1000) done None None None
    None None.

(** Two orders of the day: one pending, one completed. *)
Definition two_orders : Database :=
  mkDatabase
    [plain_order "id-1" "ORD-20250902-0001" pending None;
     plain_order "id-2" "ORD-20250902-0002" completed (Some (t0 * 1000))]
    [] [].

Definition world_of (d : Database) (ls : RateLimit.LocalStorage) : World :=
  mkWorld d ls None [] [] None.

(** The outside during a call that starts at browser time [t]: the inserted
    order gets [uuid]; [ifault] is the fate of the items insert, [bk] the
    courier proxy, [ufault] what updates meet on a row.  The browser that
    checks out is a visitor's. *)
Definition outside (t : Z) (uuid : string) (ifault : option PgError)
    (bk : BookingCall -> Thrown + DeliveryOrderResult)
    (ufault : OrderRow -> option PgError) : Outside :=
  mkOutside t "k3x9q1z7a" (t + 1) (t + 2) (t + 900) (t + 901)
    None (t * 1000 + 100) 100
    None uuid (t * 1000 + 200)
    ifault (fun k => "item-" ++ Text.of_Z (Z.of_nat k) ++ "-of-" ++ uuid)
    (t * 1000 + 300)
    bk None ufault (t * 1000 + 400) None None anon.

Definition no_booking : BookingCall -> Thrown + DeliveryOrderResult :=
  fun _ => inl (JsError "unused").

Definition no_fault : OrderRow -> option PgError := fun _ => None.

(** The backend cannot lock the row of order [i]. *)
Definition fault_on (i : string) : OrderRow -> option PgError :=
  fun r => if String.eqb (id r) i
           then Some (backend_failure "could not obtain lock on row")
           else None.

(** The cart of the checkout scenario: two shakes at 120. *)
Definition shake_cart : list CartItem :=
  [mkCartItem "41d67da1-f4ba-4b92-bfee-429d1be59e3f-265399d1-none" "Shake" 2 120
     None None].

Definition connection_lost : PgError := backend_failure "connection lost".

(** A first dine-in order of the day by a new visitor, and the same
    submission when the connection is lost before the items insert. *)
Definition first_order : (Thrown + Order) * World :=
  createOrder (outside t0 "id-1" None no_booking no_fault) None shake_cart
    "Ann" "09171234567" dine_in "cash" 240 None
    (world_of (mkDatabase [] [] []) empty_storage).

Definition interrupted_order : (Thrown + Order) * World :=
  createOrder (outside t0 "id-1" (Some connection_lost) no_booking no_fault)
    None shake_cart "Ann" "09171234567" dine_in "cash" 240 None
    (world_of (mkDatabase [] [] []) empty_storage).

(** A day on which 102 orders were placed and the first 51 removed again:
    the 51 orders left carry the numbers 0052 to 0102. *)
Definition busy_day : list OrderRow :=
  map (fun k =>
         plain_order ("id-" ++ Text.of_Z (Z.of_nat k))
           (format_order_number (Calendar.DATE (t0 * 1000)) (Z.of_nat k))
           pending None)
      (seq 52 51).

(** A delivery order with a quotation, while the courier proxy times out. *)
Definition store_config : DeliveryStoreConfig :=
  mkConfig "PH" "MOTORCYCLE" true "Cafe" "+639170000000" "1 Main St"
    "14.5995" "120.9842".

Definition delivery_options : option CreateOrderOptions :=
  Some (mkOptions (Some "2 Side St") None None None None None None (Some 60)
          (Some "Q-1") (Some "14.6") (Some "120.99")).

Definition proxy_times_out : BookingCall -> Thrown + DeliveryOrderResult :=
  fun _ => inl (JsError "Delivery proxy request failed").

Definition delivery_outside : Outside :=
  outside t0 "id-1" None proxy_times_out no_fault.

Definition empty_world : World :=
  world_of (mkDatabase [] [] []) empty_storage.

(** The server-side log after identity [S1] was let through at time 0 with a
    cooldown of 30 seconds. *)
Definition server_logs_S1 : list RateLimitLog :=
  [mkRateLimitLog "log-1" "S1" "order_placement" 0 (seconds 30)].

(** A [localStorage] that refuses every write (its quota is used up), and
    two submissions by the same visitor, five seconds apart, from a browser
    with that storage. *)
Definition full_storage : RateLimit.LocalStorage :=
  RateLimit.mkStorage RateLimit.NoItem false true.

Definition first_try : (Thrown + Order) * World :=
  createOrder (outside t0 "id-1" None no_booking no_fault) None shake_cart
    "Ann" "09171234567" dine_in "cash" 240 None
    (world_of (mkDatabase [] [] []) full_storage).

Definition second_try : (Thrown + Order) * World :=
  createOrder (outside (t0 + 5000) "id-2" None no_booking no_fault) None
    shake_cart "Ann" "09171234567" dine_in "cash" 240 None (snd first_try).

(** The same two submissions from a browser whose storage works. *)
Definition second_order : (Thrown + Order) * World :=
  createOrder (outside (t0 + 5000) "id-2" None no_booking no_fault) None
    shake_cart "Ann" "09171234567" dine_in "cash" 240 None (snd first_order).

(** A quotation request sent by the proxy at 2025-09-02T00:00:00.123Z. *)
Definition wire : Proxy.Wire :=
  Proxy.mkWire (t0 + 123) "123e4567-e89b-42d3-a456-426614174000"
    (fun _ => inr (Proxy.mkResponse true "{}" (Some (Proxy.JObject [])))).

Definition quote_body : option (list (string * Proxy.Json)) :=
  Some [("data",
         Proxy.JObject
           [("serviceType", Proxy.JString "MOTORCYCLE");
            ("language", Proxy.JString "en_PH");
            ("stops", Proxy.JArray []);
            ("item", Proxy.JObject [("quantity", Proxy.JString "1");
                                    ("weight", Proxy.JString "1")])])].

Definition quote_request : Proxy.HttpRequest :=
  fst (Proxy.makeLalamoveRequest "pk_test" "sk_test" wire "POST" "/quotations"
         quote_body "PH" true).

End Scenario.

(* ------------------------------------------------------------------------- *)
(** ** [src/lib/rateLimit.ts]: clearing entries; what the storage holds *)

Module RateLimitAdmin.

Import RateLimit.

(** The entries under [RATE_LIMIT_STORAGE_KEY], expired ones included. *)
Definition stored (ls : LocalStorage) : list RateLimitEntry :=
  match item ls with
  | Stored entries => entries
  | _ => []
  end.

(** No identity has two entries for one kind of action. *)
Definition one_per_pair (entries : list RateLimitEntry) : bool :=
  forallb (fun e =>
             (List.length (filter (same_pair (ip e) (actionType e)) entries) <=? 1)%nat)
          entries.

(** The callback of the [filter] in [clearRateLimits]: [true] keeps the
    entry.  An absent or empty [ip] and an absent [actionType] are falsy. *)
Definition survives (ip1 : option string) (a1 : option ActionType)
    (entry : RateLimitEntry) : bool :=
  if match ip1 with
     | Some i => negb (String.eqb (ip entry) i)
     | None => false
     end then true
  else if match a1 with
          | Some x => negb (ActionType_eqb (actionType entry) x)
          | None => false
          end then true
  else false.

(** [clearRateLimits(ip?, actionType?)]; [now0] is the reading inside
    [getStoredRateLimits].  [removeItem] is not inside a [try]: when it
    throws, so does the call ([None]). *)
Definition clearRateLimits (ls : LocalStorage) (ip0 : option string)
    (a : option ActionType) (removeItem_throws : bool) (now0 : Z)
    : option LocalStorage :=
  match Hook.truthy_string ip0, a with
  | None, None =>
      if removeItem_throws then None
      else Some (mkStorage NoItem (getItem_throws ls) (setItem_throws ls))
  | ip1, a1 =>
      let entries := getStoredRateLimits ls now0 in
      let filtered := filter (survives ip1 a1) entries in
      Some (saveRateLimits ls filtered)
  end.

End RateLimitAdmin.

(* ------------------------------------------------------------------------- *)
(** ** The orders migration: the clean-up function and the table constraints *)

Module Maintenance.

Import Db.

(** [DELETE FROM rate_limit_logs WHERE expires_at < now() - interval '1 day'] *)
Definition cleanup_rate_limit_logs (logs : list RateLimitLog) (now : Z)
    : list RateLimitLog :=
  filter (fun l => negb (expires_at l <? now - Calendar.usec_per_day)) logs.

(** [id] is the primary key of [orders] and [order_number] is [UNIQUE]. *)
Definition keys_unique (d : Database) : Prop :=
  NoDup (map id (orders d)) /\ NoDup (map order_number (orders d)).

(** [order_items.order_id] references an order and [quantity > 0]. *)
Definition items_consistent (d : Database) : Prop :=
  Forall (fun it =>
            0 < quantity it
            /\ existsb (fun o => String.eqb (id o) (order_id it)) (orders d) = true)
         (order_items d).

(** Two rows that differ at most in [status], [updated_at] and
    [completed_at]. *)
Definition same_but_status (r r' : OrderRow) : Prop :=
  with_status pending (with_updated_at 0 (with_completed_at None r'))
  = with_status pending (with_updated_at 0 (with_completed_at None r)).

End Maintenance.

(* ------------------------------------------------------------------------- *)
(** ** The [useOrders] hook: what an operation keeps *)

Module Frame.

Import Db Hook.

(** [m] keeps [Q]: whatever [m] answers, [Q] holds of the database
    afterwards if it held before. *)
Definition keeps {A} (Q : Database -> Prop) (m : M A) : Prop :=
  forall w, Q (db w) -> Q (db (snd (m w))).

(** The outside [o] with another courier proxy. *)
Definition with_book (bk : BookingCall -> Thrown + DeliveryOrderResult)
    (o : Outside) : Outside :=
  mkOutside (session_now o) (session_random o) (check_now0 o) (check_now o)
    (record_now0 o) (record_now o) (rpc_fault o) (rpc_now o) (rpc_fuel o)
    (insert_fault o) (insert_uuid o) (insert_now o) (items_fault o)
    (item_uuid o) (items_now o) bk (update_request_fault o) (update_fault o)
    (update_now o) (fetch_fault o) (list_fault o) (checkout_role o).

(** The outside [o] with the checkout in a session of [role]. *)
Definition with_role (role : Role) (o : Outside) : Outside :=
  mkOutside (session_now o) (session_random o) (check_now0 o) (check_now o)
    (record_now0 o) (record_now o) (rpc_fault o) (rpc_now o) (rpc_fuel o)
    (insert_fault o) (insert_uuid o) (insert_now o) (items_fault o)
    (item_uuid o) (items_now o) (book o) (update_request_fault o)
    (update_fault o) (update_now o) (fetch_fault o) (list_fault o) role.

(** What a line of an order says, and a line of the cart: the name of the
    item and how many of it. *)
Definition item_line (it : OrderItemRow) : string * Z :=
  (menu_item_name it, quantity it).

Definition cart_line (c : CartItem) : string * Z :=
  (name c, cart_quantity c).

(** Every character of [s] passes [p]. *)
Fixpoint all_chars (p : ascii -> bool) (s : string) : bool :=
  match s with
  | EmptyString => true
  | String c s' => p c && all_chars p s'
  end.

(** A phone number typed without a plus sign. *)
Definition no_plus (s : string) : bool :=
  all_chars (fun c => negb (Ascii.eqb c "+"%char)) s.

End Frame.

(* ------------------------------------------------------------------------- *)
(** ** The [useOrders] hook: [getOrderStats] *)

Module Stats.

Import Db Hook.

Local Open Scope hook_scope.

Record OrderStats : Type := mkStats {
  total_orders : Z;
  pending_orders : Z;
  today_orders : Z;
  today_revenue : Z;
  completed_orders : Z;
  cancelled_orders : Z
}.

(** What the outside decides during [getOrderStats]: the local midnight that
    [today.setHours(0, 0, 0, 0)] gives, in milliseconds, and which of the six
    queries (numbered from 0 in the order of the source) come back with an
    error, that is with [count] or [data] null. *)
Record StatsOutside : Type := mkStatsOutside {
  today_start : Z;
  query_fails : nat -> bool
}.

(** A [select('*', { count: 'exact', head: true })] with its filters. *)
Definition count (fails : bool) (p : OrderRow -> bool) (os : list OrderRow)
    : option Z :=
  if fails then None else Some (Z.of_nat (List.length (filter p os))).

(** [x || 0] *)
Definition or_zero (x : option Z) : Z :=
  match x with
  | Some n => n
  | None => 0
  end.

(** The six requests are sent one after the other; they read the table as
    this session left it, no other session writing in between. *)
Definition getOrderStats (so : StatsOutside) : M OrderStats :=
  try_log_rethrow "Error fetching order stats:"
    (d <- get_db ;;
     let os := orders d in
     let todayStart := today_start so * 1000 in
     let todayEnd := (today_start so + 24 * 60 * 60 * 1000) * 1000 in
     let today := fun o => (todayStart <=? created_at o) && (created_at o <? todayEnd) in
     let has := fun s o => OrderStatus_eqb (status o) s in
     let totalOrders := count (query_fails so 0) (fun _ => true) os in
     let pendingOrders := count (query_fails so 1) (has pending) os in
     let todayOrders := count (query_fails so 2) today os in
     let todayOrdersData :=
       if query_fails so 3 then None
       else Some (filter (fun o => today o && has completed o) os) in
     let todayRevenue :=
       match todayOrdersData with
       | Some rows => fold_left (fun sum order => sum + total order) rows 0
       | None => 0
       end in
     let completedOrders := count (query_fails so 4) (has completed) os in
     let cancelledOrders := count (query_fails so 5) (has cancelled) os in
     ret (mkStats (or_zero totalOrders) (or_zero pendingOrders)
            (or_zero todayOrders) todayRevenue (or_zero completedOrders)
            (or_zero cancelledOrders))).

End Stats.

(* ------------------------------------------------------------------------- *)
(** ** [src/lib/lalamove.ts]: the browser's side of the courier proxy *)

Module Delivery.

Import Hook Proxy.

(** [requireProxy]; [FUNCTION_BASE_URL] is absent when the environment
    variable is not set. *)
Definition requireProxy (FUNCTION_BASE_URL : option string) : Thrown + string :=
  match truthy_string FUNCTION_BASE_URL with
  | Some base => inr base
  | None => inl (JsError "Missing VITE_LALAMOVE_FUNCTION_URL environment variable")
  end.

(** [base.replace(/\/$/, '')]: one slash at the very end goes. *)
Fixpoint drop_trailing_slash (s : string) : string :=
  match s with
  | EmptyString => EmptyString
  | String c EmptyString => if Ascii.eqb c "/"%char then EmptyString else s
  | String c s' => String c (drop_trailing_slash s')
  end.

Definition buildFunctionUrl (FUNCTION_BASE_URL : option string) (path : string)
    : Thrown + string :=
  match requireProxy FUNCTION_BASE_URL with
  | inl e => inl e
  | inr base =>
      inr (drop_trailing_slash base
           ++ (if prefix "/" path then path else "/" ++ path))
  end.

(** The object [createDeliveryOrder] hands to [JSON.stringify], which leaves
    an undefined [metadata] out. *)
Definition order_payload (quotationId recipientName recipientPhone : string)
    (config : DeliveryStoreConfig) (metadata : option Json)
    : list (string * Json) :=
  ([("quotationId", JString quotationId);
    ("recipientName", JString recipientName);
    ("recipientPhone", JString recipientPhone);
    ("market", JString (market config));
    ("sandbox", JBool (sandbox config));
    ("storeName", JString (storeName config));
    ("storePhone", JString (storePhone config))]
   ++ match metadata with
      | Some m => [("metadata", m)]
      | None => []
      end)%list.

(** The request [createDeliveryOrder] makes, when the proxy is configured. *)
Definition order_request (FUNCTION_BASE_URL : option string)
    (quotationId recipientName recipientPhone : string)
    (config : DeliveryStoreConfig) (metadata : option Json)
    : Thrown + HttpRequest :=
  match buildFunctionUrl FUNCTION_BASE_URL "/order" with
  | inl e => inl e
  | inr address =>
      inr (mkRequest address "POST" [("Content-Type", "application/json")]
             (Some (stringify
                      (JObject (order_payload quotationId recipientName
                                  recipientPhone config metadata)))))
  end.

End Delivery.

(* ------------------------------------------------------------------------- *)
(** ** [supabase/functions/lalamove/index.ts]: [handleOrder] *)

Module Edge.

Import Proxy.

Definition CORS_HEADERS : list (string * string) :=
  [("Access-Control-Allow-Origin", "*");
   ("Access-Control-Allow-Methods", "POST, OPTIONS");
   ("Access-Control-Allow-Headers", "Content-Type")].

(** A [Response] of the function. *)
Record Answer : Type := mkAnswer {
  status : Z;
  answer_headers : list (string * string);
  answer_body : option string
}.

(** What a handler comes to: a response, or an exception ([Some] with the
    message of an [Error] that [makeLalamoveRequest] threw, [None] for a
    [TypeError] or a rejected [req.json()]). *)
Inductive Outcome : Type :=
| Answered (a : Answer)
| Threw (message : option string).

(** An own property of a parsed object. *)
Fixpoint field (key : string) (fs : list (string * Json)) : option Json :=
  match fs with
  | [] => None
  | (k, v) :: fs' => if String.eqb k key then Some v else field key fs'
  end.

(** [value[key]] on a value other than [null], for a [key] that is neither
    an index nor a member every object inherits; [None] is [undefined]. *)
Definition member (value : Json) (key : string) : option Json :=
  match value with
  | JObject fs => field key fs
  | _ => None
  end.

(** A template literal's or a header's text of a value. *)
Fixpoint to_String (v : Json) : string :=
  match v with
  | JNull => "null"
  | JBool true => "true"
  | JBool false => "false"
  | JNumber t => t
  | JString s => s
  | JArray l =>
      (fix join (l : list Json) : string :=
         match l with
         | [] => ""
         | [x] => match x with JNull => "" | _ => to_String x end
         | x :: l' =>
             match x with JNull => "" | _ => to_String x end ++ "," ++ join l'
         end) l
  | JObject _ => "[object Object]"
  end.

Definition text_of (v : option Json) : string :=
  match v with
  | Some x => to_String x
  | None => "undefined"
  end.

(** [Boolean(v)]; the text of a number is the one JavaScript prints, so zero
    is ["0"]. *)
Definition to_Boolean (v : option Json) : bool :=
  match v with
  | None => false
  | Some JNull => false
  | Some (JBool b) => b
  | Some (JNumber t) => negb (String.eqb t "0")
  | Some (JString s) => negb (String.eqb s "")
  | Some (JArray _) => true
  | Some (JObject _) => true
  end.

(** [v || d] *)
Definition or_else (v : option Json) (d : Json) : Json :=
  match v with
  | Some x => if to_Boolean v then x else d
  | None => d
  end.

(** An object literal some of whose values may be [undefined], as
    [JSON.stringify] takes it: those members are left out. *)
Fixpoint defined (fs : list (string * option Json)) : list (string * Json) :=
  match fs with
  | [] => []
  | (k, Some v) :: fs' => (k, v) :: defined fs'
  | (_, None) :: fs' => defined fs'
  end.

(** [quotation.stops?.[k]?.id] on a [quotation] other than [null]. *)
Definition stop_id (quotation : Json) (k : nat) : option Json :=
  let stop :=
    match member quotation "stops" with
    | Some (JArray l) => nth_error l k
    | Some (JObject fs) => field (Text.of_Z (Z.of_nat k)) fs
    | _ => None
    end in
  match stop with
  | Some (JObject fs) => field "id" fs
  | _ => None
  end.

Definition ORDER_REQUIRED : list string :=
  ["quotationId"; "recipientName"; "recipientPhone"; "market"; "sandbox";
   "storeName"; "storePhone"].

(** [required.some((key) => payload[key] === undefined)] *)
Definition lacks (required : list string) (payload : Json) : bool :=
  existsb (fun key => match member payload key with
                      | None => true
                      | Some _ => false
                      end) required.

(** The body of the booking request. *)
Definition order_body (payload quotation : Json) : list (string * Json) :=
  let senderStopId := or_else (stop_id quotation 0) (JString "") in
  let recipientStopId := or_else (stop_id quotation 1) (JString "") in
  [("data",
    JObject (defined
      [("quotationId", member payload "quotationId");
       ("sender",
        Some (JObject (defined
                [("stopId", Some senderStopId);
                 ("name", member payload "storeName");
                 ("phone", member payload "storePhone")])));
       ("recipients",
        Some (JArray
                [JObject (defined
                   [("stopId", Some recipientStopId);
                    ("name", member payload "recipientName");
                    ("phone", member payload "recipientPhone");
                    ("remarks", Some (JString ""))])]));
       ("isPODEnabled", Some (JBool true));
       ("metadata", Some (or_else (member payload "metadata") (JObject [])))]))].

(** The k-th request of a handler: [makeLalamoveRequest], with what the
    outside decides while that request is made. *)
Definition request (API_KEY API_SECRET : string) (wires : nat -> Wire) (k : nat)
    (method path : string) (body : option (list (string * Json)))
    (market : string) (sandbox : bool) : HttpRequest * (string + option Json) :=
  makeLalamoveRequest API_KEY API_SECRET (wires k) method path body market sandbox.

Definition missing_fields : Answer :=
  mkAnswer 400 (CORS_HEADERS ++ [("Content-Type", "application/json")])
    (Some (stringify (JObject [("error", JString "Missing order payload fields")]))).

(** The response to a booking the courier answered with [order]. *)
Definition booked (order : Json) : Answer :=
  mkAnswer 200 (("Content-Type", "application/json") :: CORS_HEADERS)
    (Some (stringify
             (JObject (defined
                [("orderId", member order "id");
                 ("status", member order "status");
                 ("shareLink", member order "shareLink");
                 ("driverId", member order "driverId")])))).

(** [handleOrder]: the requests handed to [fetch], in their order, and what
    the handler comes to.  [payload] is what [req.json()] gives, [None] when
    it rejects. *)
Definition handleOrder (API_KEY API_SECRET : string) (wires : nat -> Wire)
    (payload : option Json) : list HttpRequest * Outcome :=
  match payload with
  | None => ([], Threw None)
  | Some JNull => ([], Threw None)
  | Some p =>
      if lacks ORDER_REQUIRED p then ([], Answered missing_fields)
      else
        let market := text_of (member p "market") in
        let sandbox := to_Boolean (member p "sandbox") in
        let quotation :=
          request API_KEY API_SECRET wires 0 "GET"
            ("/quotations/" ++ text_of (member p "quotationId")) None market
            sandbox in
        match snd quotation with
        | inl message => ([fst quotation], Threw (Some message))
        | inr None => ([fst quotation], Threw None)
        | inr (Some JNull) => ([fst quotation], Threw None)
        | inr (Some q) =>
            let order :=
              request API_KEY API_SECRET wires 1 "POST" "/orders"
                (Some (order_body p q)) market sandbox in
            match snd order with
            | inl message => ([fst quotation; fst order], Threw (Some message))
            | inr None => ([fst quotation; fst order], Threw None)
            | inr (Some JNull) => ([fst quotation; fst order], Threw None)
            | inr (Some o) => ([fst quotation; fst order], Answered (booked o))
            end
        end
  end.

(** The characters of base64 text: letters, digits, [+], [/] and the padding
    [=]. *)
Definition is_base64_char (c : ascii) : bool :=
  let n := N_of_ascii c in
  ((65 <=? n) && (n <=? 90) || (97 <=? n) && (n <=? 122)
   || (48 <=? n) && (n <=? 57) || (n =? 43) || (n =? 47) || (n =? 61))%N.

End Edge.


(* ------------------------------------------------------------------------- *)
(** ** More scenarios *)

Module Cases.

Import Db Hook.

(** Identities [S1] and [S2] have each placed an order, at 0 and after one
    second. *)
Definition two_visitors : RateLimit.LocalStorage :=
  RateLimit.recordAction Scenario.storage_S1 "S2" RateLimit.order_placement 30
    1000 1000.

(** The courier proxy accepts the booking. *)
Definition courier_accepts : BookingCall -> Thrown + DeliveryOrderResult :=
  fun _ =>
    inr (mkDeliveryOrderResult "LM-1" "ASSIGNING_DRIVER"
           "https://share.lalamove.com/LM-1" None).

Definition booked_outside : Outside :=
  Scenario.outside Scenario.t0 "id-1" None courier_accepts Scenario.no_fault.

(** An administrator's session on the day of the two orders. *)
Definition admin_outside : Outside :=
  Scenario.outside Scenario.t0 "id-3" None Scenario.no_booking Scenario.no_fault.

Definition admin_world : World :=
  Scenario.world_of Scenario.two_orders Scenario.empty_storage.

(** A day on which the numbers 0001 to 9999 are all taken. *)
Definition full_day : list OrderRow :=
  map (fun k =>
         Scenario.plain_order ("id-" ++ Text.of_Z (Z.of_nat k))
           (format_order_number (Calendar.DATE (Scenario.t0 * 1000)) (Z.of_nat k))
           pending None)
      (seq 1 (Z.to_nat 9999)).

(** A day on which 9999 orders were placed, numbered 0001 to 9999, and the
    order numbered 1000 was removed again. *)
Definition day_without_1000 : list OrderRow :=
  map (fun k =>
         Scenario.plain_order ("id-" ++ Text.of_Z (Z.of_nat k))
           (format_order_number (Calendar.DATE (Scenario.t0 * 1000)) (Z.of_nat k))
           pending None)
      (seq 1 (Z.to_nat 999) ++ seq (Z.to_nat 1001) (Z.to_nat 8999)).

End Cases.
(* ========================================================================= *)
(** * Properties *)

(* ------------------------------------------------------------------------- *)
(** ** Sorting *)

Section SortFacts.

Context {A : Type}.
Variable cmp : A -> A -> Z.

Lemma insert_sorted_In (x y : A) (l : list A) :
  In y (Js.insert_sorted cmp x l) <-> y = x \/ In y l.
Proof.
  induction l as [|z l IH]; simpl.
  - intuition congruence.
  - destruct (cmp x z <=? 0); simpl; rewrite ?IH; intuition congruence.
Qed.

Lemma sort_In (y : A) (l : list A) : In y (Js.sort cmp l) <-> In y l.
Proof.
  induction l as [|x l IH]; simpl.
  - tauto.
  - rewrite insert_sorted_In, IH. intuition congruence.
Qed.

Lemma sort_head_None (l : list A) :
  hd_error (Js.sort cmp l) = None -> l = [].
Proof.
  destruct l as [|x l]; [reflexivity|].
  intros H. exfalso.
  assert (Hin : In x (Js.sort cmp (x :: l))) by (apply sort_In; left; reflexivity).
  destruct (Js.sort cmp (x :: l)); [destruct Hin | discriminate].
Qed.

Lemma sort_head_In (l : list A) (e : A) :
  hd_error (Js.sort cmp l) = Some e -> In e l.
Proof.
  intros H. apply sort_In.
  destruct (Js.sort cmp l); simpl in H; [discriminate|].
  injection H as ->. left; reflexivity.
Qed.

End SortFacts.

(** Sorting by a key, largest first, puts a largest element at the head. *)
Lemma sort_desc_head_max {A : Type} (key : A -> Z) (l : list A) (e : A) :
  hd_error (Js.sort (fun x y => key y - key x) l) = Some e ->
  forall x, In x l -> key x <= key e.
Proof.
  revert e. induction l as [|a l IH]; intros e H x Hx.
  - destruct Hx.
  - simpl in H.
    destruct (Js.sort (fun x y => key y - key x) l) as [|b s] eqn:Es.
    + simpl in H. injection H as <-.
      assert (l = []) by (apply (sort_head_None (fun x y => key y - key x)); rewrite Es; reflexivity).
      subst l. destruct Hx as [<-|[]]. lia.
    + simpl in H.
      specialize (IH b eq_refl).
      destruct (key b - key a <=? 0) eqn:Ec; simpl in H; injection H as <-.
      * apply Z.leb_le in Ec.
        destruct Hx as [<-|Hx]; [lia|]. specialize (IH x Hx). lia.
      * apply Z.leb_gt in Ec.
        destruct Hx as [<-|Hx]; [lia|]. apply IH, Hx.
Qed.

(* ------------------------------------------------------------------------- *)
(** ** The client-side rate limiter *)

Lemma ceil_div_1000_pos (x : Z) : 0 < x -> 0 < RateLimit.ceil_div_1000 x.
Proof.
  unfold RateLimit.ceil_div_1000. intros H.
  assert ((- x) / 1000 < 0) by (apply Z.div_lt_upper_bound; lia).
  lia.
Qed.

Lemma ceil_div_1000_le (x c : Z) : x <= c * 1000 -> RateLimit.ceil_div_1000 x <= c.
Proof.
  unfold RateLimit.ceil_div_1000. intros H.
  assert (- c <= (- x) / 1000) by (apply Z.div_le_lower_bound; lia).
  lia.
Qed.

Lemma ceil_div_1000_exact (q : Z) : RateLimit.ceil_div_1000 (q * 1000) = q.
Proof.
  unfold RateLimit.ceil_div_1000.
  replace (- (q * 1000)) with ((- q) * 1000) by lia.
  rewrite Z.div_mul by lia. lia.
Qed.

(** The entries [getStoredRateLimits] hands out are stored, unexpired ones. *)
Lemma getStoredRateLimits_In (ls : RateLimit.LocalStorage) (now : Z)
    (e : RateLimit.RateLimitEntry) :
  In e (RateLimit.getStoredRateLimits ls now) ->
  exists entries,
    RateLimit.item ls = RateLimit.Stored entries /\ In e entries
    /\ now < RateLimit.expiresAt e /\ RateLimit.getItem_throws ls = false.
Proof.
  unfold RateLimit.getStoredRateLimits.
  destruct (RateLimit.getItem_throws ls); [intros []|].
  destruct (RateLimit.item ls) as [| |entries]; try (intros []).
  intros H. apply filter_In in H. destruct H as [Hin Hlt].
  exists entries. repeat split; auto. apply Z.ltb_lt, Hlt.
Qed.

Lemma most_recent_Some ip0 a entries e :
  RateLimit.most_recent ip0 a entries = Some e ->
  In e entries
  /\ RateLimit.same_pair ip0 a e = true
  /\ forall e', In e' entries -> RateLimit.same_pair ip0 a e' = true ->
                RateLimit.timestamp e' <= RateLimit.timestamp e.
Proof.
  unfold RateLimit.most_recent. intros H.
  pose proof (sort_head_In _ _ _ H) as Hin.
  apply filter_In in Hin. destruct Hin as [Hin Hp].
  repeat split; auto.
  intros e' Hin' Hp'.
  apply (sort_desc_head_max RateLimit.timestamp _ _ H).
  apply filter_In. split; assumption.
Qed.

Lemma most_recent_None ip0 a entries :
  RateLimit.most_recent ip0 a entries = None ->
  forall e, In e entries -> RateLimit.same_pair ip0 a e = false.
Proof.
  unfold RateLimit.most_recent. intros H e Hin.
  apply sort_head_None in H.
  destruct (RateLimit.same_pair ip0 a e) eqn:Hp; [|reflexivity].
  assert (Hf : In e (filter (RateLimit.same_pair ip0 a) entries))
    by (apply filter_In; split; assumption).
  rewrite H in Hf. destruct Hf.
Qed.


(** C8 (amended).  For every identity, action kind and cooldown [c]:
    - the check answers "allowed" when no stored entry of the pair is still
      running at [now]; an entry whose expiry equals [now] counts as
      expired, so the tie at the exact expiry instant resolves in favour of
      allowing;
    - it answers "not allowed" when the pair has unexpired entries and all of
      them expire after [now];
    - a "not allowed" answer comes with the remaining seconds of the most
      recent unexpired entry of the pair, [ceil ((expiry - now) / 1000)],
      which is strictly positive, and is at most [c] when that entry expires
      no later than [c] seconds from [now]. *)
Theorem checkRateLimit_decides (ls : RateLimit.LocalStorage) (ip0 : string)
    (a : RateLimit.ActionType) (c now0 now : Z) :
  let r := RateLimit.checkRateLimit ls ip0 a c now0 now in
  let unexpired := RateLimit.getStoredRateLimits ls now0 in
  ((forall e, In e unexpired -> RateLimit.same_pair ip0 a e = true ->
              RateLimit.expiresAt e <= now) ->
   r = RateLimit.mkResult true None)
  /\ ((exists e, In e unexpired /\ RateLimit.same_pair ip0 a e = true) ->
      (forall e, In e unexpired -> RateLimit.same_pair ip0 a e = true ->
                 now < RateLimit.expiresAt e) ->
      RateLimit.allowed r = false)
  /\ (RateLimit.allowed r = false ->
      exists e rem,
        In e unexpired /\ RateLimit.same_pair ip0 a e = true
        /\ (forall e', In e' unexpired -> RateLimit.same_pair ip0 a e' = true ->
                       RateLimit.timestamp e' <= RateLimit.timestamp e)
        /\ now0 < RateLimit.expiresAt e /\ now < RateLimit.expiresAt e
        /\ RateLimit.cooldownRemaining r = Some rem
        /\ rem = RateLimit.ceil_div_1000 (RateLimit.expiresAt e - now)
        /\ 0 < rem
        /\ (RateLimit.expiresAt e <= now + c * 1000 -> rem <= c)).
Proof.
  cbv zeta. unfold RateLimit.checkRateLimit.
  destruct (RateLimit.most_recent ip0 a (RateLimit.getStoredRateLimits ls now0))
    as [e|] eqn:Hsel.
  - apply most_recent_Some in Hsel. destruct Hsel as (Hin & Hp & Hmax).
    destruct (RateLimit.expiresAt e <=? now) eqn:Hexp.
    + apply Z.leb_le in Hexp. split; [reflexivity|]. split.
      * intros _ Hall. specialize (Hall e Hin Hp). lia.
      * simpl. discriminate.
    + apply Z.leb_gt in Hexp. split; [|split].
      * intros Hall. specialize (Hall e Hin Hp). lia.
      * intros _ _. reflexivity.
      * intros _. exists e, (RateLimit.ceil_div_1000 (RateLimit.expiresAt e - now)).
        destruct (getStoredRateLimits_In _ _ _ Hin) as (entries & _ & _ & Hlt & _).
        repeat split; auto.
        -- apply ceil_div_1000_pos. lia.
        -- intros Hc. apply ceil_div_1000_le. lia.
  - split; [reflexivity|]. split.
    + intros (e & Hin & Hp) _.
      rewrite (most_recent_None _ _ _ Hsel e Hin) in Hp. discriminate.
    + simpl. discriminate.
Qed.

(** C10.  The client-side limiter fails open.  When the stored entries
    cannot be read ([getItem] throws, or what is stored does not parse into
    entries), the stored set is taken as empty and [checkRateLimit] allows
    every identity and action kind.  When the write fails, [recordAction]
    leaves the storage as it was, and in both cases the hook's calls return
    normally. *)
Theorem rate_limiter_fails_open (ls : RateLimit.LocalStorage) :
  (Hook.read_fails ls = true ->
   (forall now, RateLimit.getStoredRateLimits ls now = [])
   /\ (forall ip0 a c now0 now,
         RateLimit.checkRateLimit ls ip0 a c now0 now = RateLimit.mkResult true None)
   /\ (forall o ip0 a c w, Hook.storage w = ls ->
         fst (Hook.checkRateLimit o ip0 a c w) = inr (RateLimit.mkResult true None)))
  /\ (RateLimit.setItem_throws ls = true ->
      (forall ip0 a c now0 now, RateLimit.recordAction ls ip0 a c now0 now = ls)
      /\ (forall o ip0 a c w, Hook.storage w = ls ->
            fst (Hook.recordAction o ip0 a c w) = inr tt
            /\ Hook.storage (snd (Hook.recordAction o ip0 a c w)) = ls)).
Proof.
  split.
  - intros Hread.
    assert (Hempty : forall now, RateLimit.getStoredRateLimits ls now = []).
    { intros now. unfold RateLimit.getStoredRateLimits.
      unfold Hook.read_fails in Hread.
      destruct (RateLimit.getItem_throws ls); [reflexivity|].
      destruct (RateLimit.item ls); try reflexivity. discriminate. }
    assert (Hcheck : forall ip0 a c now0 now,
               RateLimit.checkRateLimit ls ip0 a c now0 now
               = RateLimit.mkResult true None).
    { intros. unfold RateLimit.checkRateLimit. rewrite Hempty. reflexivity. }
    repeat split; auto.
    intros o ip0 a c w <-. unfold Hook.checkRateLimit, Hook.bind, Hook.log_if, Hook.ret.
    rewrite Hread. simpl. rewrite Hcheck. reflexivity.
  - intros Hwrite.
    assert (Hrec : forall ip0 a c now0 now,
               RateLimit.recordAction ls ip0 a c now0 now = ls).
    { intros. unfold RateLimit.recordAction, RateLimit.saveRateLimits.
      rewrite Hwrite. reflexivity. }
    split; [exact Hrec|].
    intros o ip0 a c w <-.
    unfold Hook.recordAction, Hook.bind, Hook.log_if, Hook.ret, Hook.put_storage.
    rewrite Hwrite.
    destruct (Hook.read_fails (Hook.storage w)); simpl; rewrite Hrec; split; reflexivity.
Qed.

(** At 5 seconds into a 30 second cooldown the second check is refused with
    25 seconds remaining. *)
Lemma checkRateLimit_decides_witness :
  RateLimit.allowed
    (RateLimit.checkRateLimit Scenario.storage_S1 "S1" RateLimit.order_placement
       30 5000 5000) = false
  /\ exists e rem,
       RateLimit.expiresAt e = 30000 /\ rem = 25
       /\ RateLimit.cooldownRemaining
            (RateLimit.checkRateLimit Scenario.storage_S1 "S1"
               RateLimit.order_placement 30 5000 5000) = Some rem
       /\ 0 < rem <= 30.
Proof.
  pose proof (checkRateLimit_decides Scenario.storage_S1 "S1"
                RateLimit.order_placement 30 5000 5000) as H.
  cbv zeta in H. destruct H as (_ & Hdeny & Hrem).
  assert (Hd : RateLimit.allowed
                 (RateLimit.checkRateLimit Scenario.storage_S1 "S1"
                    RateLimit.order_placement 30 5000 5000) = false).
  { apply Hdeny.
    - exists (RateLimit.mkEntry "S1" RateLimit.order_placement 0 30000).
      split; [left; reflexivity | reflexivity].
    - intros e [<-|[]] _. simpl. lia. }
  split; [exact Hd|].
  destruct (Hrem Hd) as (e & rem & Hin & _ & _ & _ & _ & Hcr & Hval & Hpos & Hle).
  destruct Hin as [<-|[]].
  exists (RateLimit.mkEntry "S1" RateLimit.order_placement 0 30000), rem.
  repeat split; auto.
  apply Hle. simpl. lia.
Defined.

(** C8, as stated, fails.  At the exact expiry instant of a 30 second
    cooldown the check allows; and an entry recorded with a cooldown of 60
    seconds makes a check with [c = 30] answer 59 remaining seconds. *)
Lemma checkRateLimit_tie_allows :
  RateLimit.checkRateLimit Scenario.storage_S1 "S1" RateLimit.order_placement
    30 30000 30000 = RateLimit.mkResult true None
  /\ RateLimit.checkRateLimit Scenario.storage_S1_60 "S1" RateLimit.order_placement
       30 1000 1000 = RateLimit.mkResult false (Some 59).
Proof. split; reflexivity. Qed.

(** With a storage that neither parses nor accepts writes, every check is
    allowed and a recorded action is dropped. *)
Lemma rate_limiter_fails_open_witness :
  Hook.read_fails Scenario.broken_storage = true
  /\ RateLimit.setItem_throws Scenario.broken_storage = true
  /\ RateLimit.checkRateLimit Scenario.broken_storage "S1"
       RateLimit.order_placement 30 5000 5000 = RateLimit.mkResult true None
  /\ RateLimit.recordAction Scenario.broken_storage "S1"
       RateLimit.order_placement 30 0 0 = Scenario.broken_storage.
Proof.
  pose proof (rate_limiter_fails_open Scenario.broken_storage) as [Hr Hw].
  specialize (Hr eq_refl). specialize (Hw eq_refl).
  destruct Hr as (_ & Hc & _). destruct Hw as (Hrec & _).
  split; [reflexivity|]. split; [reflexivity|]. split.
  - apply Hc.
  - apply Hrec.
Defined.
(* ------------------------------------------------------------------------- *)
(** ** Text *)

Lemma repeat_char_length (c : ascii) (n : nat) :
  String.length (Text.repeat_char c n) = n.
Proof. induction n; simpl; congruence. Qed.

Lemma append_length (s t : string) :
  String.length (s ++ t) = (String.length s + String.length t)%nat.
Proof. induction s; simpl; congruence. Qed.

Lemma substring_0_length (n : nat) (s : string) :
  (n <= String.length s)%nat -> String.length (substring 0 n s) = n.
Proof.
  revert s. induction n as [|n IH]; intros s H.
  - destruct s; reflexivity.
  - destruct s as [|c s]; simpl in *; [lia|]. rewrite IH; [reflexivity | lia].
Qed.

Lemma lpad_length (s : string) (len : nat) (fill : ascii) :
  String.length (Text.lpad s len fill) = len.
Proof.
  unfold Text.lpad. destruct (len <=? String.length s)%nat eqn:E.
  - apply Nat.leb_le in E. apply substring_0_length, E.
  - apply Nat.leb_gt in E. rewrite append_length, repeat_char_length. lia.
Qed.

Lemma all_digits_append (s t : string) :
  Text.all_digits (s ++ t) = Text.all_digits s && Text.all_digits t.
Proof.
  induction s as [|c s IH]; simpl; [reflexivity|].
  rewrite IH. apply andb_assoc.
Qed.

Lemma all_digits_substring_0 (n : nat) (s : string) :
  Text.all_digits s = true -> Text.all_digits (substring 0 n s) = true.
Proof.
  revert s. induction n as [|n IH]; intros s H.
  - destruct s; reflexivity.
  - destruct s as [|c s]; simpl in *; [reflexivity|].
    apply andb_true_iff in H. destruct H as [Hc Hs].
    rewrite Hc, (IH _ Hs). reflexivity.
Qed.

Lemma all_digits_zeros (n : nat) : Text.all_digits (Text.repeat_char "0"%char n) = true.
Proof. induction n; simpl; auto. Qed.

Lemma all_digits_uint (d : Decimal.uint) :
  Text.all_digits (NilEmpty.string_of_uint d) = true.
Proof. induction d; simpl; auto. Qed.

Lemma of_Z_digits (z : Z) : 0 <= z -> Text.all_digits (Text.of_Z z) = true.
Proof.
  intros H. unfold Text.of_Z, Z.to_int.
  destruct z as [|p|p]; [reflexivity| |lia].
  unfold NilZero.string_of_int, NilZero.string_of_uint.
  destruct (Pos.to_uint p) eqn:E; try reflexivity; rewrite <- E; apply all_digits_uint.
Qed.

Lemma lpad_digits (z : Z) (len : nat) :
  0 <= z -> Text.all_digits (Text.lpad (Text.of_Z z) len "0"%char) = true.
Proof.
  intros H. unfold Text.lpad.
  destruct (len <=? String.length (Text.of_Z z))%nat.
  - apply all_digits_substring_0, of_Z_digits, H.
  - rewrite all_digits_append, all_digits_zeros, of_Z_digits; auto.
Qed.

Lemma all_from_spec (p : Z -> bool) (n : nat) :
  forall z, Text.all_from n z p = true ->
            forall k, z <= k < z + Z.of_nat n -> p k = true.
Proof.
  induction n as [|n IH]; intros z H k Hk; [lia|].
  cbn [Text.all_from] in H. apply andb_true_iff in H. destruct H as [Hz Hrest].
  destruct (Z.eq_dec k z) as [->|Hne]; [exact Hz|].
  apply (IH (z + 1) Hrest). lia.
Qed.

(** Below 10000 the padded text reads back as the number. *)
Lemma lpad4_reads_back_all :
  Text.all_from (Z.to_nat 10000) 0 Text.lpad4_reads_back_b = true.
Proof. vm_compute. reflexivity. Qed.

Lemma lpad4_reads_back (z : Z) :
  0 <= z <= 9999 -> Text.to_Z (Text.lpad (Text.of_Z z) 4 "0"%char) = Some z.
Proof.
  intros H.
  pose proof (all_from_spec _ _ _ lpad4_reads_back_all z) as Hz.
  unfold Text.lpad4_reads_back_b in Hz.
  destruct (Text.to_Z (Text.lpad (Text.of_Z z) 4 "0"%char)) as [z'|].
  - assert (E : (z' =? z) = true) by (apply Hz; lia).
    apply Z.eqb_eq in E. congruence.
  - assert (E : false = true) by (apply Hz; lia). discriminate E.
Qed.

(* ------------------------------------------------------------------------- *)
(** ** The order number allocator *)

Lemma int4_inr (z : Z) : Db.int4_min <= z <= Db.int4_max -> Db.int4 z = inr z.
Proof.
  intros [H1 H2]. unfold Db.int4.
  apply Z.leb_le in H1. apply Z.leb_le in H2. rewrite H1, H2. reflexivity.
Qed.

Lemma int4_inl (z : Z) : Db.int4_max < z -> Db.int4 z = inl Db.integer_out_of_range.
Proof.
  intros H. unfold Db.int4. apply Z.leb_gt in H. rewrite H, andb_false_r. reflexivity.
Qed.

Lemma int4_bounds : Db.int4_min < 0 /\ 0 < Db.int4_max.
Proof. unfold Db.int4_min, Db.int4_max. lia. Qed.

Section Allocator.

Variable os : list Db.OrderRow.
Variable today : Calendar.Date.

(** The loop returns the first candidate that is not taken, however many
    taken ones come before it. *)
Lemma uniqueness_loop_first_unused (k : nat) :
  forall (c : Z) (fuel : nat),
    0 <= c -> c + 1 + Z.of_nat k <= Db.int4_max ->
    (forall j, 0 <= j < Z.of_nat k -> Db.number_exists os (Db.format_order_number today (c + 1 + j)) = true) ->
    Db.number_exists os (Db.format_order_number today (c + 1 + Z.of_nat k)) = false ->
    (k < fuel)%nat ->
    Db.uniqueness_loop fuel os today c (Db.format_order_number today (c + 1))
    = Some (inr (Db.format_order_number today (c + 1 + Z.of_nat k))).
Proof.
  pose proof int4_bounds as Hb.
  induction k as [|k IH]; intros c fuel Hc Hmax Htaken Hfree Hfuel;
    (destruct fuel as [|fuel]; [lia|]); cbn [Db.uniqueness_loop].
  - replace (c + 1 + Z.of_nat 0) with (c + 1) in * by lia.
    rewrite Hfree. reflexivity.
  - assert (H0 : Db.number_exists os (Db.format_order_number today (c + 1)) = true).
    { replace (c + 1) with (c + 1 + 0) by lia. apply Htaken. lia. }
    rewrite H0.
    rewrite int4_inr by lia. rewrite int4_inr by lia.
    replace (c + 1 + Z.of_nat (S k)) with (c + 1 + 1 + Z.of_nat k) in * by lia.
    apply IH; try lia; auto.
    intros j Hj. replace (c + 1 + 1 + j) with (c + 1 + (j + 1)) by lia.
    apply Htaken. lia.
Qed.

(** While the fuel lasts, every candidate met was taken. *)
Lemma uniqueness_loop_None (fuel : nat) :
  forall c, 0 <= c -> c + 1 <= Db.int4_max ->
    Db.uniqueness_loop fuel os today c (Db.format_order_number today (c + 1)) = None ->
    forall j, 0 <= j < Z.of_nat fuel -> c + 1 + j <= Db.int4_max ->
              Db.number_exists os (Db.format_order_number today (c + 1 + j)) = true.
Proof.
  pose proof int4_bounds as Hb.
  induction fuel as [|fuel IH]; intros c Hc Hmax H j Hj Hjmax; [lia|].
  cbn [Db.uniqueness_loop] in H.
  destruct (Db.number_exists os (Db.format_order_number today (c + 1))) eqn:E; [|discriminate].
  rewrite int4_inr in H by lia.
  destruct (Z.eq_dec j 0) as [->|Hne].
  - replace (c + 1 + 0) with (c + 1) by lia. exact E.
  - rewrite int4_inr in H by lia.
    replace (c + 1 + j) with (c + 1 + 1 + (j - 1)) by lia.
    apply IH; try lia. exact H.
Qed.

(** What the loop gives when it leaves. *)
Lemma uniqueness_loop_result (fuel : nat) :
  forall c r, 0 <= c -> c + 1 <= Db.int4_max ->
    Db.uniqueness_loop fuel os today c (Db.format_order_number today (c + 1)) = Some r ->
    match r with
    | inr n =>
        exists k, 0 <= k /\ c + 1 + k <= Db.int4_max /\ n = Db.format_order_number today (c + 1 + k)
                  /\ Db.number_exists os (Db.format_order_number today (c + 1 + k)) = false
                  /\ forall j, 0 <= j < k -> Db.number_exists os (Db.format_order_number today (c + 1 + j)) = true
    | inl e =>
        e = Db.integer_out_of_range
        /\ forall s, c + 1 <= s <= Db.int4_max -> Db.number_exists os (Db.format_order_number today s) = true
    end.
Proof.
  pose proof int4_bounds as Hb.
  induction fuel as [|fuel IH]; intros c r Hc Hmax H; [discriminate|].
  cbn [Db.uniqueness_loop] in H.
  destruct (Db.number_exists os (Db.format_order_number today (c + 1))) eqn:E.
  - rewrite int4_inr in H by lia.
    destruct (Z_le_gt_dec (c + 1 + 1) Db.int4_max) as [Hle|Hgt].
    + rewrite int4_inr in H by lia.
      specialize (IH (c + 1) r ltac:(lia) Hle H).
      destruct r as [e|n].
      * destruct IH as [-> Hall]. split; [reflexivity|].
        intros s Hs. destruct (Z.eq_dec s (c + 1)) as [->|Hne]; [exact E|].
        apply Hall. lia.
      * destruct IH as (k & Hk & Hkmax & -> & Hfree & Htaken).
        exists (k + 1). replace (c + 1 + (k + 1)) with (c + 1 + 1 + k) by lia.
        repeat split; auto; try lia.
        intros j Hj. destruct (Z.eq_dec j 0) as [->|Hne].
        -- replace (c + 1 + 0) with (c + 1) by lia. exact E.
        -- replace (c + 1 + j) with (c + 1 + 1 + (j - 1)) by lia.
           apply Htaken. lia.
    + rewrite int4_inl in H by lia. injection H as <-.
      split; [reflexivity|]. intros s Hs.
      replace s with (c + 1) by lia. exact E.
  - injection H as <-. exists 0.
    replace (c + 1 + 0) with (c + 1) by lia.
    repeat split; auto; try lia.
Qed.

(** The counter cannot pass the largest [integer]: the loop leaves within
    [int4_max - c] rounds. *)
Lemma uniqueness_loop_terminates (fuel : nat) :
  forall c, 0 <= c -> c + 1 <= Db.int4_max -> Db.int4_max - c <= Z.of_nat fuel ->
    Db.uniqueness_loop fuel os today c (Db.format_order_number today (c + 1)) <> None.
Proof.
  pose proof int4_bounds as Hb.
  induction fuel as [|fuel IH]; intros c Hc Hmax Hfuel; [lia|].
  cbn [Db.uniqueness_loop].
  destruct (Db.number_exists os (Db.format_order_number today (c + 1))); [|discriminate].
  rewrite int4_inr by lia.
  destruct (Z_le_gt_dec (c + 1 + 1) Db.int4_max) as [Hle|Hgt].
  - rewrite int4_inr by lia. apply IH; lia.
  - rewrite int4_inl by lia. discriminate.
Qed.

(** With too little fuel the loop is still running. *)
Lemma uniqueness_loop_out_of_fuel (fuel : nat) :
  forall c, 0 <= c -> c + 1 + Z.of_nat fuel <= Db.int4_max ->
    (forall j, 0 <= j < Z.of_nat fuel ->
               Db.number_exists os (Db.format_order_number today (c + 1 + j)) = true) ->
    Db.uniqueness_loop fuel os today c (Db.format_order_number today (c + 1)) = None.
Proof.
  pose proof int4_bounds as Hb.
  induction fuel as [|fuel IH]; intros c Hc Hmax Htaken; [reflexivity|].
  cbn [Db.uniqueness_loop].
  assert (H0 : Db.number_exists os (Db.format_order_number today (c + 1)) = true).
  { replace (c + 1) with (c + 1 + 0) by lia. apply Htaken. lia. }
  rewrite H0. rewrite int4_inr by lia. rewrite int4_inr by lia.
  apply IH; try lia.
  intros j Hj. replace (c + 1 + 1 + j) with (c + 1 + (j + 1)) by lia.
  apply Htaken. lia.
Qed.

(** More fuel does not change a result. *)
Lemma uniqueness_loop_fuel_mono (fuel : nat) :
  forall fuel' c n r, (fuel <= fuel')%nat ->
    Db.uniqueness_loop fuel os today c n = Some r ->
    Db.uniqueness_loop fuel' os today c n = Some r.
Proof.
  induction fuel as [|fuel IH]; intros fuel' c n r Hle H; [discriminate|].
  destruct fuel' as [|fuel']; [lia|].
  cbn [Db.uniqueness_loop] in *.
  destruct (Db.number_exists os n); [|exact H].
  destruct (Db.int4 (c + 1)) as [e|c']; [exact H|].
  destruct (Db.int4 (c' + 1)) as [e|s]; [exact H|].
  apply IH; [lia | exact H].
Qed.

End Allocator.

Lemma count_today_nonneg (os : list Db.OrderRow) (today : Calendar.Date) :
  0 <= Db.count_today os today.
Proof. unfold Db.count_today. lia. Qed.

Lemma generate_order_number_fuel_mono (os : list Db.OrderRow) (now : Z)
    (fuel fuel' : nat) (r : Db.PgError + string) :
  (fuel <= fuel')%nat ->
  Db.generate_order_number fuel os now = Some r ->
  Db.generate_order_number fuel' os now = Some r.
Proof.
  unfold Db.generate_order_number. intros Hle.
  destruct (Db.int4 (Db.count_today os (Calendar.DATE now))) as [e|c]; [auto|].
  destruct (Db.int4 (c + 1)) as [e|s]; [auto|].
  apply uniqueness_loop_fuel_mono, Hle.
Qed.

Lemma zero_fill_length_all :
  Text.all_from (Z.to_nat 100) 0
    (fun z => (String.length (Text.zero_fill 2 z) =? 2)%nat) = true
  /\ Text.all_from (Z.to_nat 10000) 0
       (fun z => (String.length (Text.zero_fill 4 z) =? 4)%nat) = true.
Proof. vm_compute. split; reflexivity. Qed.

Lemma zero_fill_2_length (z : Z) :
  0 <= z <= 99 -> String.length (Text.zero_fill 2 z) = 2%nat.
Proof.
  intros H. destruct zero_fill_length_all as [H2 _].
  apply Nat.eqb_eq. apply (all_from_spec _ _ _ H2 z). lia.
Qed.

Lemma zero_fill_4_length (z : Z) :
  0 <= z <= 9999 -> String.length (Text.zero_fill 4 z) = 4%nat.
Proof.
  intros H. destruct zero_fill_length_all as [_ H4].
  apply Nat.eqb_eq. apply (all_from_spec _ _ _ H4 z). lia.
Qed.

Lemma zero_fill_digits (w : nat) (z : Z) :
  0 <= z -> Text.all_digits (Text.zero_fill w z) = true.
Proof.
  intros H. unfold Text.zero_fill.
  rewrite all_digits_append, all_digits_zeros, of_Z_digits; auto.
Qed.

(** The month and the day of a civil date are in their ranges. *)
Lemma civil_from_days_bounds (d : Z) :
  1 <= Calendar.month (Calendar.civil_from_days d) <= 12
  /\ 1 <= Calendar.day (Calendar.civil_from_days d) <= 31.
Proof.
  unfold Calendar.civil_from_days. cbv zeta. cbn [Calendar.month Calendar.day].
  set (z := d + 719468).
  set (era := z / 146097).
  set (doe := z - era * 146097).
  assert (Hdoe : 0 <= doe <= 146096).
  { subst doe era. pose proof (Z.mod_pos_bound z 146097 ltac:(lia)) as H.
    rewrite Z.mod_eq in H by lia. lia. }
  clearbody doe. clear z era.
  set (yoe := (doe - doe / 1460 + doe / 36524 - doe / 146096) / 365).
  set (doy := doe - (365 * yoe + yoe / 4 - yoe / 100)).
  assert (Hdoy : 0 <= doy <= 365).
  { subst doy yoe. Z.div_mod_to_equations. lia. }
  clearbody doy. clear yoe doe Hdoe.
  set (mp := (5 * doy + 2) / 153).
  assert (Hmp : 0 <= mp <= 11) by (subst mp; Z.div_mod_to_equations; lia).
  assert (Hdd : 1 <= doy - (153 * mp + 2) / 5 + 1 <= 31).
  { subst mp. Z.div_mod_to_equations. lia. }
  split; [|exact Hdd].
  destruct (mp <? 10) eqn:E; [apply Z.ltb_lt in E | apply Z.ltb_ge in E]; lia.
Qed.

(** For a date of the years 0 to 9999, [YYYYMMDD] is eight digits. *)
Lemma TO_CHAR_YYYYMMDD_shape (t : Z) :
  0 <= Calendar.year (Calendar.DATE t) <= 9999 ->
  String.length (Calendar.TO_CHAR_YYYYMMDD (Calendar.DATE t)) = 8%nat
  /\ Text.all_digits (Calendar.TO_CHAR_YYYYMMDD (Calendar.DATE t)) = true.
Proof.
  intros Hy. unfold Calendar.DATE in *.
  destruct (civil_from_days_bounds (t / Calendar.usec_per_day)) as [Hm Hd].
  unfold Calendar.TO_CHAR_YYYYMMDD. split.
  - rewrite !append_length, zero_fill_4_length, !zero_fill_2_length by lia.
    reflexivity.
  - rewrite !all_digits_append, !zero_fill_digits by lia. reflexivity.
Qed.

(** On a day without orders, when the numbers of a day are carried by the
    orders of that day, the first number of the day is free. *)
Lemma first_number_free (os : list Db.OrderRow) (today : Calendar.Date) :
  Db.count_today os today = 0 -> Db.day_scoped os today ->
  Db.number_exists os (Db.format_order_number today 1) = false.
Proof.
  intros Hcount Hscoped.
  destruct (Db.number_exists os (Db.format_order_number today 1)) eqn:E;
    [|reflexivity].
  exfalso. unfold Db.number_exists in E.
  apply existsb_exists in E. destruct E as (o & Hin & Heq).
  apply String.eqb_eq in Heq.
  pose proof (Hscoped o 1 Hin Heq) as Hdate.
  unfold Db.count_today in Hcount.
  assert (Hf : In o (filter (fun o => Calendar.Date_eqb
                                        (Calendar.DATE (Db.created_at o)) today) os)).
  { apply filter_In. split; [exact Hin|]. rewrite Hdate.
    unfold Calendar.Date_eqb. rewrite !Z.eqb_refl. reflexivity. }
  destruct (filter _ os); [destruct Hf | simpl in Hcount; lia].
Qed.

(** C3 (amended).  On every state of [orders] the allocator comes to an
    end.  What it returns is ['ORD-'], the current date as [YYYYMMDD] (eight
    digits for the years 0 to 9999), ['-'] and four digits [NNNN], made by
    [LPAD] from the sequence number [seq], the first number above today's
    count of orders whose identifier is not yet taken (every number between
    the count and [seq] is taken).  [NNNN] is [seq], zero-padded, as long as
    [seq] is at most 9999; a longer one is cut to its first four digits.
    The only other outcome is the overflow of the [integer] counter, when
    every number up to the largest [integer] is taken.  On a day without
    orders the result is [ORD-YYYYMMDD-0001], provided [0001] is free, as it
    is when the numbers of a day are carried by the orders of that day. *)
Theorem generate_order_number_form (os : list Db.OrderRow) (now : Z) :
  let today := Calendar.DATE now in
  let count := Db.count_today os today in
  let YYYYMMDD := Calendar.TO_CHAR_YYYYMMDD today in
  (exists fuel,
     match Db.generate_order_number fuel os now with
     | Some (inr n) =>
         exists seq,
           let NNNN := Text.lpad (Text.of_Z seq) 4 "0"%char in
           count < seq <= Db.int4_max
           /\ n = "ORD-" ++ YYYYMMDD ++ "-" ++ NNNN
           /\ String.length NNNN = 4%nat
           /\ Text.all_digits NNNN = true
           /\ (seq <= 9999 -> Text.to_Z NNNN = Some seq)
           /\ Db.number_exists os n = false
           /\ (forall s, count < s < seq ->
                 Db.number_exists os (Db.format_order_number today s) = true)
     | Some (inl e) =>
         e = Db.integer_out_of_range
         /\ (forall s, count < s <= Db.int4_max ->
               Db.number_exists os (Db.format_order_number today s) = true)
     | None => False
     end)
  /\ (0 <= Calendar.year today <= 9999 ->
      String.length YYYYMMDD = 8%nat /\ Text.all_digits YYYYMMDD = true)
  /\ (count = 0 ->
      Db.number_exists os (Db.format_order_number today 1) = false ->
      forall fuel, (0 < fuel)%nat ->
        Db.generate_order_number fuel os now
        = Some (inr ("ORD-" ++ YYYYMMDD ++ "-0001")))
  /\ (count = 0 -> Db.day_scoped os today ->
      forall fuel, (0 < fuel)%nat ->
        Db.generate_order_number fuel os now
        = Some (inr ("ORD-" ++ YYYYMMDD ++ "-0001"))).
Proof.
  cbv zeta. pose proof int4_bounds as Hb.
  pose proof (count_today_nonneg os (Calendar.DATE now)) as Hc.
  assert (Hfirst :
            Db.count_today os (Calendar.DATE now) = 0 ->
            Db.number_exists os (Db.format_order_number (Calendar.DATE now) 1) = false ->
            forall fuel, (0 < fuel)%nat ->
              Db.generate_order_number fuel os now
              = Some (inr ("ORD-" ++ Calendar.TO_CHAR_YYYYMMDD (Calendar.DATE now)
                                  ++ "-0001"))).
  { intros H0 Hfree fuel Hfuel. unfold Db.generate_order_number.
    rewrite H0. destruct fuel as [|fuel]; [lia|].
    rewrite (int4_inr 0) by lia.
    replace (0 + 1) with 1 by lia. rewrite (int4_inr 1) by lia.
    cbn [Db.uniqueness_loop]. rewrite Hfree. reflexivity. }
  split; [|split; [apply TO_CHAR_YYYYMMDD_shape|split; [exact Hfirst|]]].
  - exists (Z.to_nat Db.int4_max). unfold Db.generate_order_number.
    destruct (Z_le_gt_dec (Db.count_today os (Calendar.DATE now) + 1) Db.int4_max)
      as [Hle|Hgt].
    + rewrite int4_inr by lia. rewrite int4_inr by lia.
      destruct (Db.uniqueness_loop (Z.to_nat Db.int4_max) os (Calendar.DATE now)
                  (Db.count_today os (Calendar.DATE now))
                  (Db.format_order_number (Calendar.DATE now)
                     (Db.count_today os (Calendar.DATE now) + 1))) as [r|] eqn:E.
      * apply uniqueness_loop_result in E; try lia.
        destruct r as [e|n].
        -- destruct E as [-> Hall]. split; [reflexivity|].
           intros s Hs. apply Hall. lia.
        -- destruct E as (k & Hk & Hkmax & -> & Hfree & Htaken).
           exists (Db.count_today os (Calendar.DATE now) + 1 + k).
           split; [lia|]. split; [reflexivity|].
           split; [apply lpad_length|].
           split; [apply lpad_digits; lia|].
           split; [intros H; apply lpad4_reads_back; lia|].
           split; [exact Hfree|].
           intros s Hs.
           replace s with (Db.count_today os (Calendar.DATE now) + 1
                           + (s - Db.count_today os (Calendar.DATE now) - 1)) by lia.
           apply Htaken. lia.
      * exfalso. revert E. apply uniqueness_loop_terminates; lia.
    + destruct (Z_le_gt_dec (Db.count_today os (Calendar.DATE now)) Db.int4_max)
        as [Hle'|Hgt'].
      * rewrite int4_inr by lia. rewrite int4_inl by lia.
        split; [reflexivity|]. intros s Hs. lia.
      * rewrite int4_inl by lia. split; [reflexivity|]. intros s Hs. lia.
  - intros H0 Hscoped. apply Hfirst; [exact H0|].
    apply first_number_free; assumption.
Qed.

(** On a day without orders the allocator returns [ORD-20250902-0001]; on
    the day of the two orders, numbered 0001 and 0002, it returns
    [ORD-20250902-0003]. *)
Lemma generate_order_number_form_witness :
  Db.generate_order_number 1 [] (Scenario.t0 * 1000)
  = Some (inr "ORD-20250902-0001")
  /\ exists fuel,
       Db.generate_order_number fuel (Db.orders Scenario.two_orders)
         (Scenario.t0 * 1000)
       = Some (inr "ORD-20250902-0003").
Proof.
  split.
  - destruct (generate_order_number_form [] (Scenario.t0 * 1000))
      as (_ & _ & H & _).
    cbv zeta in H. rewrite (H eq_refl eq_refl 1%nat) by lia. reflexivity.
  - destruct (generate_order_number_form (Db.orders Scenario.two_orders)
                (Scenario.t0 * 1000)) as ([fuel H] & _).
    cbv zeta in H. exists fuel.
    assert (Hcount : Db.count_today (Db.orders Scenario.two_orders)
                       (Calendar.DATE (Scenario.t0 * 1000)) = 2)
      by (vm_compute; reflexivity).
    assert (Hfree : Db.number_exists (Db.orders Scenario.two_orders)
                      (Db.format_order_number
                         (Calendar.DATE (Scenario.t0 * 1000)) 3) = false)
      by (vm_compute; reflexivity).
    rewrite Hcount in H.
    destruct (Db.generate_order_number fuel (Db.orders Scenario.two_orders)
                (Scenario.t0 * 1000)) as [[e|n]|]; [| |destruct H].
    + exfalso. destruct H as [_ Hall].
      rewrite Hall in Hfree by (unfold Db.int4_max; lia). discriminate Hfree.
    + destruct H as (seq & Hseq & -> & _ & _ & _ & _ & Htaken).
      assert (seq = 3).
      { destruct (Z_le_gt_dec seq 3); [lia|].
        rewrite (Htaken 3) in Hfree by lia. discriminate Hfree. }
      subst seq. vm_compute. reflexivity.
Defined.

Lemma append_inj_l (p a b : string) : p ++ a = p ++ b -> a = b.
Proof.
  induction p as [|c p IH]; cbn; intros H; [exact H|].
  injection H as H. exact (IH H).
Qed.

(** Below 10000 two sequence numbers give two order numbers. *)
Lemma format_order_number_inj (today : Calendar.Date) (s s' : Z) :
  0 <= s <= 9999 -> 0 <= s' <= 9999 ->
  Db.format_order_number today s = Db.format_order_number today s' ->
  s = s'.
Proof.
  intros Hs Hs' H. unfold Db.format_order_number in H.
  do 3 apply append_inj_l in H.
  pose proof (lpad4_reads_back s Hs) as E.
  rewrite H, (lpad4_reads_back s' Hs') in E. congruence.
Qed.

Lemma day_without_1000_count :
  Db.count_today Cases.day_without_1000 (Calendar.DATE (Scenario.t0 * 1000))
  = 9998.
Proof.
  unfold Db.count_today, Cases.day_without_1000.
  assert (Hall : forall l : list nat,
            filter (fun o => Calendar.Date_eqb (Calendar.DATE (Db.created_at o))
                               (Calendar.DATE (Scenario.t0 * 1000)))
              (map (fun k =>
                      Scenario.plain_order ("id-" ++ Text.of_Z (Z.of_nat k))
                        (Db.format_order_number
                           (Calendar.DATE (Scenario.t0 * 1000)) (Z.of_nat k))
                        Db.pending None) l)
            = map (fun k =>
                     Scenario.plain_order ("id-" ++ Text.of_Z (Z.of_nat k))
                       (Db.format_order_number
                          (Calendar.DATE (Scenario.t0 * 1000)) (Z.of_nat k))
                       Db.pending None) l).
  { induction l as [|k l IH]; [reflexivity|].
    cbn [map filter].
    replace (Calendar.Date_eqb
               (Calendar.DATE
                  (Db.created_at
                     (Scenario.plain_order ("id-" ++ Text.of_Z (Z.of_nat k))
                        (Db.format_order_number
                           (Calendar.DATE (Scenario.t0 * 1000)) (Z.of_nat k))
                        Db.pending None)))
               (Calendar.DATE (Scenario.t0 * 1000))) with true by reflexivity.
    rewrite IH. reflexivity. }
  rewrite Hall, length_map, length_app, !length_seq. lia.
Qed.

Lemma day_without_1000_numbers (s : Z) :
  1 <= s <= 9999 ->
  Db.number_exists Cases.day_without_1000
    (Db.format_order_number (Calendar.DATE (Scenario.t0 * 1000)) s)
  = negb (s =? 1000).
Proof.
  intros Hs. unfold Db.number_exists.
  destruct (Z.eqb_spec s 1000) as [->|Hne]; cbn [negb].
  - destruct (existsb _ Cases.day_without_1000) eqn:E; [|reflexivity].
    exfalso. apply existsb_exists in E. destruct E as (o & Hin & Heq).
    apply String.eqb_eq in Heq.
    unfold Cases.day_without_1000 in Hin. apply in_map_iff in Hin.
    destruct Hin as (k & <- & Hk). cbn [Db.order_number Scenario.plain_order] in Heq.
    assert (Hrange : 1 <= Z.of_nat k <= 9999 /\ Z.of_nat k <> 1000).
    { apply in_app_or in Hk. destruct Hk as [Hk|Hk]; apply in_seq in Hk; lia. }
    apply format_order_number_inj in Heq; lia.
  - apply existsb_exists.
    exists (Scenario.plain_order ("id-" ++ Text.of_Z s)
              (Db.format_order_number (Calendar.DATE (Scenario.t0 * 1000)) s)
              Db.pending None).
    split; [|apply String.eqb_refl].
    unfold Cases.day_without_1000. apply in_map_iff. exists (Z.to_nat s).
    rewrite Z2Nat.id by lia. split; [reflexivity|].
    apply in_or_app.
    destruct (Z_lt_ge_dec s 1000); [left|right]; apply in_seq; lia.
Qed.

(** C3, as stated, fails.  On a day on which 9999 orders were placed and the
    order [1000] was removed again, 9998 orders are counted; the allocator
    proposes the sequence number 9999, which is taken, and then 10000.
    [LPAD] cuts the five digits of 10000 down to [1000], a number that is
    free, so the function returns [ORD-20250902-1000]: the suffix is not the
    zero-padded sequence number, it reads back as 1000, the number the
    removed order had. *)
Lemma ten_thousandth_number_is_cut :
  Db.count_today Cases.day_without_1000 (Calendar.DATE (Scenario.t0 * 1000))
  = 9998
  /\ Db.number_exists Cases.day_without_1000
       (Db.format_order_number (Calendar.DATE (Scenario.t0 * 1000)) 9999) = true
  /\ Db.generate_order_number 2 Cases.day_without_1000 (Scenario.t0 * 1000)
     = Some (inr "ORD-20250902-1000")
  /\ Db.format_order_number (Calendar.DATE (Scenario.t0 * 1000)) 10000
     = "ORD-20250902-1000"
  /\ Text.to_Z (Text.lpad (Text.of_Z 10000) 4 "0"%char) = Some 1000.
Proof.
  pose proof int4_bounds as Hb.
  assert (Hcut : Db.format_order_number (Calendar.DATE (Scenario.t0 * 1000)) 10000
                 = Db.format_order_number (Calendar.DATE (Scenario.t0 * 1000)) 1000)
    by (vm_compute; reflexivity).
  split; [exact day_without_1000_count|].
  split; [rewrite day_without_1000_numbers by lia; reflexivity|].
  split; [|split; [vm_compute; reflexivity | vm_compute; reflexivity]].
  unfold Db.generate_order_number. rewrite day_without_1000_count.
  rewrite (int4_inr 9998) by (unfold Db.int4_min, Db.int4_max; lia).
  rewrite (int4_inr (9998 + 1)) by (unfold Db.int4_min, Db.int4_max; lia).
  rewrite (uniqueness_loop_first_unused Cases.day_without_1000
             (Calendar.DATE (Scenario.t0 * 1000)) 1 9998 2).
  - vm_compute. reflexivity.
  - lia.
  - unfold Db.int4_max. lia.
  - intros j Hj. replace (9998 + 1 + j) with 9999 by lia.
    rewrite day_without_1000_numbers by lia. reflexivity.
  - replace (9998 + 1 + Z.of_nat 1) with 10000 by lia.
    rewrite Hcut, day_without_1000_numbers by lia. reflexivity.
  - lia.
Qed.

Import Db Hook.

(* ------------------------------------------------------------------------- *)
(** ** The hook's monad *)

Lemma bind_inr {A B} (m : M A) (k : A -> M B) (w w' : World) (a : A) :
  m w = (inr a, w') -> bind m k w = k a w'.
Proof. unfold bind. intros ->. reflexivity. Qed.

Lemma bind_inl {A B} (m : M A) (k : A -> M B) (w w' : World) (e : Thrown) :
  m w = (inl e, w') -> bind m k w = (inl e, w').
Proof. unfold bind. intros ->. reflexivity. Qed.

Lemma bind_assoc {A B C} (m : M A) (f : A -> M B) (g : B -> M C) (w : World) :
  bind (bind m f) g w = bind m (fun a => bind (f a) g) w.
Proof. unfold bind. destruct (m w) as [[e|a] w']; reflexivity. Qed.

Lemma bind_ext {A B} (m : M A) (f g : A -> M B) (w : World) :
  (forall a w', f a w' = g a w') -> bind m f w = bind m g w.
Proof. unfold bind. intros H. destruct (m w) as [[e|a] w']; auto. Qed.

Lemma try_log_rethrow_ext {A} (label : string) (m m' : M A) (w : World) :
  m w = m' w -> try_log_rethrow label m w = try_log_rethrow label m' w.
Proof. unfold try_log_rethrow. intros ->. reflexivity. Qed.

(** [createOrder] is the sequence of its stages. *)
Lemma createOrder_stages o cfg cart name contact st pay total opts w :
  createOrder o cfg cart name contact st pay total opts w
  = try_log_rethrow "Error creating order:"
      (bind (throttle o) (fun clientIP =>
       bind (persist o cart name contact st pay total opts clientIP) (fun order =>
       bind (booking o cfg name contact st opts order) (fun r =>
       bind (save_booking o order r) (fun _ =>
       finish o clientIP order))))) w.
Proof.
  unfold createOrder. apply try_log_rethrow_ext.
  unfold throttle. rewrite bind_assoc. apply bind_ext. intros ip w1.
  rewrite bind_assoc. apply bind_ext. intros rl w2.
  destruct (negb (RateLimit.allowed rl)); [reflexivity|].
  unfold persist.
  change (bind (ret ip) ?k w2) with (k ip w2). cbn beta.
  rewrite bind_assoc. apply bind_ext. intros n w3.
  destruct (String.eqb n ""); [reflexivity|].
  rewrite bind_assoc. apply bind_ext. intros order w4.
  rewrite bind_assoc. apply bind_ext. intros _ w5.
  reflexivity.
Qed.

(* ------------------------------------------------------------------------- *)
(** ** The stages of [createOrder] *)

(** [getClientIP] hands out the session's identifier, making one when the
    session has none; the identifier is never empty. *)
Lemma getClientIP_run (o : Outside) (w : World) :
  exists ip,
    getClientIP o w
    = (inr ip, mkWorld (db w) (storage w) (Some ip) (console w)
                 (hook_orders w) (hook_error w))
    /\ ip <> ""
    /\ (forall s, client_session_id w = Some s -> s <> "" -> ip = s).
Proof.
  unfold getClientIP.
  destruct (client_session_id w) as [s|] eqn:Es; simpl.
  - destruct (String.eqb s "") eqn:E.
    + eexists. split; [reflexivity|]. split; [discriminate|].
      intros s' [= <-] Hne. apply String.eqb_eq in E. contradiction.
    + exists s. split.
      * destruct w; simpl in *; subst; reflexivity.
      * split; [apply String.eqb_neq, E|]. intros s' [= <-] _. reflexivity.
  - eexists. split; [reflexivity|]. split; [discriminate|]. discriminate.
Qed.

Lemma log_if_run (b : bool) (label : string) (w : World) :
  exists w', log_if b label w = (inr tt, w')
    /\ db w' = db w /\ storage w' = storage w
    /\ client_session_id w' = client_session_id w
    /\ hook_orders w' = hook_orders w /\ hook_error w' = hook_error w
    /\ (forall l, In l (console w) -> In l (console w')).
Proof.
  unfold log_if. destruct b.
  - eexists. split; [reflexivity|]. simpl. repeat split; auto.
    intros l Hl. apply in_or_app. left; exact Hl.
  - exists w. repeat split; auto.
Qed.

(** The throttle lets the identity through or throws the cooldown message; it
    changes neither the database nor the stored entries. *)
Lemma throttle_run (o : Outside) (w : World) :
  exists ip w1,
    ip <> ""
    /\ (forall s, client_session_id w = Some s -> s <> "" -> ip = s)
    /\ db w1 = db w /\ storage w1 = storage w
    /\ client_session_id w1 = Some ip
    /\ (forall l, In l (console w) -> In l (console w1))
    /\ throttle o w
       = (let rl := RateLimit.checkRateLimit (storage w) ip
                      RateLimit.order_placement 30 (check_now0 o) (check_now o) in
          if RateLimit.allowed rl then inr ip
          else inl (JsError (rate_limit_message rl)), w1).
Proof.
  destruct (getClientIP_run o w) as (ip & E1 & Hne & Hsame).
  unfold throttle. rewrite (bind_inr _ _ _ _ _ E1).
  unfold checkRateLimit.
  set (w0 := mkWorld (db w) (storage w) (Some ip) (console w) (hook_orders w) (hook_error w)).
  destruct (log_if_run (read_fails (storage w0))
              "Error reading rate limits from storage:" w0)
    as (w1 & E2 & Hdb & Hst & Hse & _ & _ & Hco).
  exists ip, w1. repeat split; auto.
  unfold bind at 1. unfold bind at 1. rewrite E2. unfold ret. simpl storage.
  destruct (RateLimit.allowed _); reflexivity.
Qed.

(** The two inserts: nothing is written, or the order row alone, or the
    order row and all of its items. *)
Lemma persist_cases o cart name contact st pay total opts ip w :
  let res := persist o cart name contact st pay total opts ip w in
  let d := db w in
  storage (snd res) = storage w
  /\ client_session_id (snd res) = client_session_id w
  /\ console (snd res) = console w
  /\ hook_orders (snd res) = hook_orders w
  /\ hook_error (snd res) = hook_error w
  /\ ((exists e, fst res = inl e /\ db (snd res) = d)
      \/ (exists n r e,
            generate_order_number (rpc_fuel o) (orders d) (rpc_now o) = Some (inr n)
            /\ r = inserted_row (insert_uuid o) (insert_now o)
                     (order_values n name contact st pay total opts ip)
            /\ existsb (fun x => String.eqb (id x) (id r)) (orders d) = false
            /\ fst res = inl (PostgrestError e)
            /\ db (snd res)
               = mkDatabase (orders d ++ [r]) (order_items d) (rate_limit_logs d)
            /\ (items_fault o = Some e
                \/ first_violation
                     (mkDatabase (orders d ++ [r]) (order_items d) (rate_limit_logs d))
                     (map (order_item_values r) cart) = Some e))
      \/ (exists n r,
            generate_order_number (rpc_fuel o) (orders d) (rpc_now o) = Some (inr n)
            /\ r = inserted_row (insert_uuid o) (insert_now o)
                     (order_values n name contact st pay total opts ip)
            /\ existsb (fun x => String.eqb (id x) (id r)) (orders d) = false
            /\ fst res = inr r
            /\ db (snd res)
               = mkDatabase (orders d ++ [r])
                   (order_items d
                    ++ with_item_defaults (item_uuid o) (items_now o) 0
                         (map (order_item_values r) cart))
                   (rate_limit_logs d))).
Proof.
  cbv zeta.
  unfold persist, rpc_generate_order_number, insert_order_request,
    insert_items_request, bind, get_db, put_db, or_throw, throw, ret.
  cbn [fst snd].
  destruct (rpc_fault o) as [e|].
  { cbn. repeat split; auto. left. eexists; split; reflexivity. }
  destruct (generate_order_number (rpc_fuel o) (orders (db w)) (rpc_now o))
    as [[e|n]|] eqn:Egen.
  { cbn. repeat split; auto. left. eexists; split; reflexivity. }
  2:{ cbn. repeat split; auto. left. eexists; split; reflexivity. }
  cbn [fst snd].
  destruct (String.eqb n "") eqn:En.
  { cbn. repeat split; auto. left. eexists; split; reflexivity. }
  cbn [db].
  destruct (insert_fault o) as [e|].
  { cbn. repeat split; auto. left. eexists; split; reflexivity. }
  unfold insert_order.
  destruct (number_exists (orders (db w)) _).
  { cbn. repeat split; auto. left. eexists; split; reflexivity. }
  destruct (existsb _ (orders (db w))) eqn:Eid.
  { cbn. repeat split; auto. left. eexists; split; reflexivity. }
  cbn [fst snd db].
  destruct (items_fault o) as [e|] eqn:Efault.
  { cbn. repeat split; auto. right; left.
    exists n, (inserted_row (insert_uuid o) (insert_now o)
                 (order_values n name contact st pay total opts ip)), e.
    repeat split; auto. }
  unfold insert_order_items.
  destruct (first_violation _ _) as [e|] eqn:Eviol.
  { cbn. repeat split; auto. right; left.
    exists n, (inserted_row (insert_uuid o) (insert_now o)
                 (order_values n name contact st pay total opts ip)), e.
    repeat split; auto. }
  cbn. repeat split; auto. right; right.
  exists n, (inserted_row (insert_uuid o) (insert_now o)
               (order_values n name contact st pay total opts ip)).
  repeat split; auto.
Qed.

(** The booking never throws and writes nothing but a console line. *)
Lemma booking_run o cfg name contact st opts order w :
  exists res w',
    booking o cfg name contact st opts order w = (inr res, w')
    /\ db w' = db w /\ storage w' = storage w
    /\ client_session_id w' = client_session_id w
    /\ hook_orders w' = hook_orders w /\ hook_error w' = hook_error w
    /\ (forall l, In l (console w) -> In l (console w'))
    /\ (forall q c e,
          st = delivery ->
          truthy_string (opt opt_lalamoveQuotationId opts) = Some q ->
          cfg = Some c ->
          book o (mkBookingCall q name
                    match normalizePhoneNumber contact with
                    | Some p => p
                    | None => contact
                    end c (id order) (opt opt_address opts)
                    (opt opt_deliveryLat opts) (opt opt_deliveryLng opts)) = inl e ->
          res = None
          /\ console w'
             = (console w ++ [Log "Failed to create Lalamove order:" (Some e)])%list).
Proof.
  unfold booking.
  destruct st; try (exists None, w; repeat split; auto; discriminate).
  destruct (truthy_string (opt opt_lalamoveQuotationId opts)) as [q|];
    try (exists None, w; repeat split; auto; discriminate).
  destruct cfg as [c|]; try (exists None, w; repeat split; auto; discriminate).
  unfold try_log_swallow, throw, ret, console_error.
  destruct (book o _) as [e|r] eqn:Eb.
  - eexists; eexists. split; [reflexivity|]. cbn.
    do 5 (split; [reflexivity|]). split.
    + intros l Hl. apply in_or_app. left; exact Hl.
    + intros q' c' e' _ [= <-] [= <-] H. rewrite Eb in H.
      injection H as <-. split; reflexivity.
  - exists (Some r), w. do 6 (split; [reflexivity|]). split; [auto|].
    intros q' c' e' _ [= <-] [= <-] H. rewrite Eb in H. discriminate.
Qed.

(** What a statement that went through did to the rows. *)
Lemma update_rows_inr sel set fault now rows rows' :
  update_rows sel set fault now rows = inr rows' ->
  rows' = map (fun r => if sel r then before_update r (set r) now else r) rows
  /\ (forall r, In r rows -> sel r = true -> fault r = None).
Proof.
  revert rows'. induction rows as [|r rows IH]; intros rows' H; simpl in H.
  - injection H as <-. split; [reflexivity|]. intros r [].
  - destruct (sel r) eqn:Es.
    + destruct (fault r) eqn:Ef; [discriminate|].
      destruct (update_rows sel set fault now rows) as [e|rows''] eqn:E; [discriminate|].
      injection H as <-. destruct (IH _ eq_refl) as [-> Hf].
      simpl. rewrite Es. split; [reflexivity|].
      intros r' [<-|Hin] Hs; auto.
    + destruct (update_rows sel set fault now rows) as [e|rows''] eqn:E; [discriminate|].
      injection H as <-. destruct (IH _ eq_refl) as [-> Hf].
      simpl. rewrite Es. split; [reflexivity|].
      intros r' [<-|Hin] Hs; [congruence|auto].
Qed.

(** A statement that failed met a fault on a row it selects. *)
Lemma update_rows_inl sel set fault now rows e :
  update_rows sel set fault now rows = inl e ->
  exists r, In r rows /\ sel r = true /\ fault r = Some e.
Proof.
  induction rows as [|r rows IH]; intros H; simpl in H; [discriminate|].
  destruct (sel r) eqn:Es.
  - destruct (fault r) as [e'|] eqn:Ef.
    + injection H as <-. exists r. repeat split; auto. left; reflexivity.
    + destruct (update_rows sel set fault now rows) as [e'|rows''] eqn:E; [|discriminate].
      injection H as <-. destruct (IH eq_refl) as (r' & Hin & Hs & Hf).
      exists r'. repeat split; auto. right; exact Hin.
  - destruct (update_rows sel set fault now rows) as [e'|rows''] eqn:E; [|discriminate].
    injection H as <-. destruct (IH eq_refl) as (r' & Hin & Hs & Hf).
    exists r'. repeat split; auto. right; exact Hin.
Qed.

Lemma update_request_run o role sel set w :
  exists res w',
    update_request o role sel set w = (res, w')
    /\ storage w' = storage w /\ client_session_id w' = client_session_id w
    /\ console w' = console w
    /\ hook_orders w' = hook_orders w /\ hook_error w' = hook_error w
    /\ order_items (db w') = order_items (db w)
    /\ rate_limit_logs (db w') = rate_limit_logs (db w)
    /\ ((exists e, res = inl (PostgrestError e) /\ db w' = db w
                   /\ (update_request_fault o = Some e
                       \/ update_rows (fun r => may_update role r && sel r) set
                            (update_fault o) (update_now o) (orders (db w))
                          = inl e))
        \/ (res = inr tt
            /\ update_request_fault o = None
            /\ update_rows (fun r => may_update role r && sel r) set
                 (update_fault o) (update_now o) (orders (db w))
               = inr (orders (db w')))).
Proof.
  unfold update_request, bind, get_db, put_db, or_throw, throw, ret, update_orders.
  destruct (update_request_fault o) as [e|].
  - eexists; eexists. split; [reflexivity|]. repeat split; auto.
    left. exists e. auto.
  - destruct (update_rows (fun r => may_update role r && sel r) set
                (update_fault o) (update_now o) (orders (db w)))
      as [e|rows] eqn:E.
    + eexists; eexists. split; [reflexivity|]. repeat split; auto.
      left. exists e. auto.
    + eexists; eexists. split; [reflexivity|]. cbn. repeat split; auto.
Qed.

(** Saving the booking never throws; it touches the rows of [orders] with
    the order's id, and nothing else. *)
Lemma save_booking_run o order res w :
  exists w',
    save_booking o order res w = (inr tt, w')
    /\ storage w' = storage w /\ client_session_id w' = client_session_id w
    /\ hook_orders w' = hook_orders w /\ hook_error w' = hook_error w
    /\ (forall l, In l (console w) -> In l (console w'))
    /\ order_items (db w') = order_items (db w)
    /\ rate_limit_logs (db w') = rate_limit_logs (db w)
    /\ (res = None -> w' = w)
    /\ (orders (db w') = orders (db w)
        \/ exists r,
             res = Some r
             /\ orders (db w')
                = map (fun x => if String.eqb (id x) (id order)
                                then before_update x
                                       (with_lalamove (Some (orderId r))
                                          (Some (bookingStatus r))
                                          (Some (shareLink r)) x)
                                       (update_now o)
                                else x)
                      (orders (db w))).
Proof.
  unfold save_booking. destruct res as [r|].
  - destruct (update_request_run o (checkout_role o)
                (fun x => String.eqb (id x) (id order))
                (with_lalamove (Some (orderId r)) (Some (bookingStatus r))
                   (Some (shareLink r))) w)
      as (res & w' & E & Hst & Hse & Hco & Hho & Hhe & Hit & Hlog & Hcases).
    rewrite E. destruct Hcases as [(e & -> & Hdb & _)|(-> & _ & Hrows)].
    + eexists. split; [reflexivity|]. cbn.
      do 4 (split; [assumption|]). split.
      { intros l Hl. apply in_or_app. left. rewrite Hco. exact Hl. }
      do 2 (split; [assumption|]). split; [discriminate|].
      left. rewrite Hdb. reflexivity.
    + exists w'. split; [reflexivity|].
      do 4 (split; [assumption|]). split.
      { intros l Hl. rewrite Hco. exact Hl. }
      do 2 (split; [assumption|]). split; [discriminate|].
      apply update_rows_inr in Hrows. destruct Hrows as [Hrows _].
      destruct (checkout_role o); cbn in Hrows.
      * left. rewrite Hrows. apply map_id.
      * right. exists r. split; [reflexivity|]. exact Hrows.
  - exists w. unfold ret. do 9 (split; [auto|]). left; reflexivity.
Qed.

Lemma recordAction_run o ip a c w :
  exists w',
    recordAction o ip a c w = (inr tt, w')
    /\ db w' = db w
    /\ storage w' = RateLimit.recordAction (storage w) ip a c
                      (record_now0 o) (record_now o)
    /\ client_session_id w' = client_session_id w
    /\ hook_orders w' = hook_orders w /\ hook_error w' = hook_error w
    /\ (forall l, In l (console w) -> In l (console w')).
Proof.
  unfold recordAction.
  destruct (log_if_run (read_fails (storage w))
              "Error reading rate limits from storage:" w)
    as (w1 & E1 & Hdb1 & Hst1 & Hse1 & Hho1 & Hhe1 & Hco1).
  destruct (log_if_run (RateLimit.setItem_throws (storage w))
              "Error saving rate limits to storage:" w1)
    as (w2 & E2 & Hdb2 & Hst2 & Hse2 & Hho2 & Hhe2 & Hco2).
  rewrite (bind_inr _ _ _ _ _ E1). rewrite (bind_inr _ _ _ _ _ E2).
  eexists. split; [reflexivity|]. cbn.
  repeat split; try congruence. auto.
Qed.

Lemma fetchOrders_run o w :
  exists w',
    fetchOrders o w = (inr tt, w')
    /\ db w' = db w /\ storage w' = storage w
    /\ client_session_id w' = client_session_id w
    /\ (forall l, In l (console w) -> In l (console w')).
Proof.
  unfold fetchOrders. destruct (list_fault o) as [e|].
  - eexists. split; [reflexivity|]. cbn. repeat split; auto.
    intros l Hl. apply in_or_app. left; exact Hl.
  - eexists. split; [reflexivity|]. cbn. repeat split; auto.
Qed.

(** The record of the action and the read of the order: the stored entries
    are replaced by [recordAction]'s, the database is only read, and the
    outcome is the one of the read. *)
Lemma finish_run o ip order w :
  exists w',
    finish o ip order w
    = (match fetch_fault o with
       | Some e => inl (PostgrestError e)
       | None =>
           match select_order (db w) (id order) with
           | inl e => inl (PostgrestError e)
           | inr data => inr (formatOrderData (fst data) (snd data))
           end
       end, w')
    /\ db w' = db w
    /\ storage w' = RateLimit.recordAction (storage w) ip RateLimit.order_placement
                      30 (record_now0 o) (record_now o)
    /\ client_session_id w' = client_session_id w
    /\ (forall l, In l (console w) -> In l (console w')).
Proof.
  unfold finish.
  destruct (recordAction_run o ip RateLimit.order_placement 30 w)
    as (w1 & E1 & Hdb1 & Hst1 & Hse1 & _ & _ & Hco1).
  rewrite (bind_inr _ _ _ _ _ E1).
  unfold fetchOrderById, try_log_rethrow, bind, get_db, or_throw, throw, ret,
    console_error.
  destruct (fetch_fault o) as [e|].
  - eexists. split; [reflexivity|]. cbn. repeat split; auto.
    intros l Hl. apply in_or_app. left; auto.
  - rewrite Hdb1.
    destruct (select_order (db w) (id order)) as [e|data].
    + eexists. split; [reflexivity|]. cbn. repeat split; auto.
      intros l Hl. apply in_or_app. left; auto.
    + destruct (fetchOrders_run o w1) as (w2 & E2 & Hdb2 & Hst2 & Hse2 & Hco2).
      rewrite E2. exists w2. repeat split; try congruence. auto.
Qed.

(** The triggers leave every column but [completed_at] and [updated_at]. *)
Lemma set_completed_at_cases (OLD NEW : OrderRow) (now : Z) :
  set_completed_at OLD NEW now
  = with_completed_at
      (if OrderStatus_eqb (status NEW) completed
       then if OrderStatus_eqb (status OLD) completed
            then completed_at NEW else Some now
       else None) NEW.
Proof.
  unfold set_completed_at.
  destruct (OrderStatus_eqb (status NEW) completed);
    destruct (OrderStatus_eqb (status OLD) completed); cbn; try reflexivity.
  destruct NEW; reflexivity.
Qed.

Lemma before_update_id (OLD NEW : OrderRow) (now : Z) :
  id (before_update OLD NEW now) = id NEW.
Proof.
  unfold before_update, update_updated_at_column.
  rewrite set_completed_at_cases. reflexivity.
Qed.

Lemma before_update_status (OLD NEW : OrderRow) (now : Z) :
  status (before_update OLD NEW now) = status NEW.
Proof.
  unfold before_update, update_updated_at_column.
  rewrite set_completed_at_cases. reflexivity.
Qed.

Lemma map_update_fresh (i : string) (f : OrderRow -> OrderRow) (l : list OrderRow) :
  existsb (fun x => String.eqb (id x) i) l = false ->
  map (fun x => if String.eqb (id x) i then f x else x) l = l.
Proof.
  induction l as [|x l IH]; simpl; intros H; [reflexivity|].
  apply orb_false_iff in H. destruct H as [Hx Hl].
  rewrite Hx, (IH Hl). reflexivity.
Qed.

Lemma filter_id_fresh (i : string) (l : list OrderRow) :
  existsb (fun x => String.eqb (id x) i) l = false ->
  filter (fun x => String.eqb (id x) i) l = [].
Proof.
  induction l as [|x l IH]; simpl; intros H; [reflexivity|].
  apply orb_false_iff in H. destruct H as [Hx Hl].
  rewrite Hx. apply IH, Hl.
Qed.

(** The row appended last, with an [id] no other row has, is the one a
    read by that [id] finds. *)
Lemma select_order_last (l : list OrderRow) (r : OrderRow)
    (its : list OrderItemRow) (logs : list RateLimitLog) :
  existsb (fun x => String.eqb (id x) (id r)) l = false ->
  select_order (mkDatabase (l ++ [r]) its logs) (id r)
  = inr (r, filter (fun it => String.eqb (order_id it) (id r)) its).
Proof.
  intros H. unfold select_order. cbn [orders order_items].
  rewrite filter_app, (filter_id_fresh _ _ H). simpl.
  rewrite String.eqb_refl. reflexivity.
Qed.

(** Every run of [createOrder], by how far it got. *)
Lemma createOrder_run o cfg cart name contact st pay total opts w :
  let res := createOrder o cfg cart name contact st pay total opts w in
  let w' := snd res in
  let d := db w in
  exists ip,
    let rl := RateLimit.checkRateLimit (storage w) ip RateLimit.order_placement 30
                (check_now0 o) (check_now o) in
    ip <> ""
    /\ (forall s, client_session_id w = Some s -> s <> "" -> ip = s)
    /\ client_session_id w' = Some ip
    /\ rate_limit_logs (db w') = rate_limit_logs d
    /\ (forall l, In l (console w) -> In l (console w'))
    /\ ((RateLimit.allowed rl = false
         /\ fst res = inl (JsError (rate_limit_message rl))
         /\ db w' = d /\ storage w' = storage w)
        \/ (RateLimit.allowed rl = true
            /\ (exists e, fst res = inl e) /\ db w' = d /\ storage w' = storage w)
        \/ (RateLimit.allowed rl = true
            /\ exists n r e,
                 generate_order_number (rpc_fuel o) (orders d) (rpc_now o)
                 = Some (inr n)
                 /\ r = inserted_row (insert_uuid o) (insert_now o)
                          (order_values n name contact st pay total opts ip)
                 /\ existsb (fun x => String.eqb (id x) (id r)) (orders d) = false
                 /\ fst res = inl (PostgrestError e)
                 /\ db w' = mkDatabase (orders d ++ [r]) (order_items d)
                              (rate_limit_logs d)
                 /\ (items_fault o = Some e
                     \/ first_violation
                          (mkDatabase (orders d ++ [r]) (order_items d)
                             (rate_limit_logs d))
                          (map (order_item_values r) cart) = Some e)
                 /\ storage w' = storage w)
        \/ (RateLimit.allowed rl = true
            /\ exists n r r',
                 generate_order_number (rpc_fuel o) (orders d) (rpc_now o)
                 = Some (inr n)
                 /\ r = inserted_row (insert_uuid o) (insert_now o)
                          (order_values n name contact st pay total opts ip)
                 /\ existsb (fun x => String.eqb (id x) (id r)) (orders d) = false
                 /\ id r' = id r
                 /\ orders (db w') = (orders d ++ [r'])%list
                 /\ order_items (db w')
                    = (order_items d
                       ++ with_item_defaults (item_uuid o) (items_now o) 0
                            (map (order_item_values r) cart))%list
                 /\ (r' = r
                     \/ exists b,
                          r' = before_update r
                                 (with_lalamove (Some (orderId b))
                                    (Some (bookingStatus b)) (Some (shareLink b)) r)
                                 (update_now o))
                 /\ (forall q c e,
                       st = delivery ->
                       truthy_string (opt opt_lalamoveQuotationId opts) = Some q ->
                       cfg = Some c ->
                       book o (mkBookingCall q name
                                 match normalizePhoneNumber contact with
                                 | Some p => p
                                 | None => contact
                                 end c (id r) (opt opt_address opts)
                                 (opt opt_deliveryLat opts)
                                 (opt opt_deliveryLng opts)) = inl e ->
                       r' = r
                       /\ In (Log "Failed to create Lalamove order:" (Some e))
                             (console w'))
                 /\ storage w'
                    = RateLimit.recordAction (storage w) ip RateLimit.order_placement
                        30 (record_now0 o) (record_now o)
                 /\ fst res
                    = match fetch_fault o with
                      | Some e => inl (PostgrestError e)
                      | None =>
                          inr (formatOrderData r'
                                 (filter (fun it => String.eqb (order_id it) (id r))
                                    (order_items (db w'))))
                      end)).
Proof.
  cbv zeta. rewrite createOrder_stages. unfold try_log_rethrow.
  destruct (throttle_run o w) as (ip & w1 & Hne & Hsame & Hdb1 & Hst1 & Hse1 & Hco1 & Eg).
  exists ip. split; [exact Hne|]. split; [exact Hsame|].
  cbv zeta in Eg.
  destruct (RateLimit.allowed
              (RateLimit.checkRateLimit (storage w) ip RateLimit.order_placement 30
                 (check_now0 o) (check_now o))) eqn:Eal.
  2:{ rewrite (bind_inl _ _ _ _ _ Eg). cbn.
      split; [exact Hse1|]. split; [congruence|]. split.
      { intros l Hl. apply in_or_app. left; auto. }
      left. repeat split; congruence. }
  rewrite (bind_inr _ _ _ _ _ Eg).
  pose proof (persist_cases o cart name contact st pay total opts ip w1) as Hp.
  cbv zeta in Hp.
  destruct (persist o cart name contact st pay total opts ip w1) as [pr w2] eqn:Ep.
  cbn [fst snd] in Hp.
  destruct Hp as (Hst2 & Hse2 & Hco2 & _ & _ & Hcases).
  rewrite Hdb1 in Hcases.
  destruct Hcases as [(e & -> & Hdb2)|[(n & r & e & Hgen & Hr & Hfresh & -> & Hdb2 & Hwhy)
                                      |(n & r & Hgen & Hr & Hfresh & -> & Hdb2)]].
  - rewrite (bind_inl _ _ _ _ _ Ep). cbn.
    split; [congruence|]. split; [congruence|]. split.
    { intros l Hl. apply in_or_app. left. rewrite Hco2. auto. }
    right; left. repeat split; try congruence. exists e; reflexivity.
  - rewrite (bind_inl _ _ _ _ _ Ep). cbn.
    split; [congruence|]. split; [rewrite Hdb2; reflexivity|]. split.
    { intros l Hl. apply in_or_app. left. rewrite Hco2. auto. }
    right; right; left. split; [reflexivity|].
    exists n, r, e. repeat split; auto; congruence.
  - rewrite (bind_inr _ _ _ _ _ Ep).
    destruct (booking_run o cfg name contact st opts r w2)
      as (br & w3 & Eb & Hdb3 & Hst3 & Hse3 & _ & _ & Hco3 & Hfail).
    rewrite (bind_inr _ _ _ _ _ Eb).
    destruct (save_booking_run o r br w3)
      as (w4 & Es & Hst4 & Hse4 & _ & _ & Hco4 & Hit4 & Hlg4 & Hnone & Hrows).
    rewrite (bind_inr _ _ _ _ _ Es).
    destruct (finish_run o ip r w4) as (w5 & Ef & Hdb5 & Hst5 & Hse5 & Hco5).
    rewrite Ef.
    assert (Hconsole : forall l, In l (console w) -> In l (console w5)).
    { intros l Hl. apply Hco5, Hco4, Hco3. rewrite Hco2. auto. }
    assert (Hrows' :
              exists r',
                id r' = id r
                /\ orders (db w4) = (orders (db w) ++ [r'])%list
                /\ (r' = r
                    \/ exists b,
                         r' = before_update r
                                (with_lalamove (Some (orderId b))
                                   (Some (bookingStatus b)) (Some (shareLink b)) r)
                                (update_now o))
                /\ (br = None -> r' = r)).
    { destruct Hrows as [Hsame4|(b & -> & Hmap)].
      - exists r. rewrite Hsame4, Hdb3, Hdb2. cbn. auto.
      - eexists. split; [|split; [|split]].
        2:{ rewrite Hmap, Hdb3, Hdb2. cbn [orders].
            rewrite map_app, (map_update_fresh _ _ _ Hfresh). cbn [map].
            rewrite String.eqb_refl. reflexivity. }
        + rewrite before_update_id. reflexivity.
        + right. exists b. reflexivity.
        + discriminate. }
    destruct Hrows' as (r' & Hid & Horders & Hshape & Hnone').
    assert (Hitems : order_items (db w4)
                     = (order_items (db w)
                        ++ with_item_defaults (item_uuid o) (items_now o) 0
                             (map (order_item_values r) cart))%list).
    { rewrite Hit4, Hdb3, Hdb2. reflexivity. }
    assert (Hsel : select_order (db w4) (id r)
                   = inr (r', filter (fun it => String.eqb (order_id it) (id r))
                                (order_items (db w4)))).
    { destruct (db w4) as [os4 its4 lg4] eqn:Ed4. cbn [orders order_items] in *.
      rewrite Horders, <- Hid. apply select_order_last. rewrite Hid. exact Hfresh. }
    assert (Hresult :
              match fetch_fault o with
              | Some e => inl (PostgrestError e)
              | None =>
                  match select_order (db w4) (id r) with
                  | inl e => inl (PostgrestError e)
                  | inr data => inr (formatOrderData (fst data) (snd data))
                  end
              end
              = match fetch_fault o with
                | Some e => inl (PostgrestError e)
                | None =>
                    inr (formatOrderData r'
                           (filter (fun it => String.eqb (order_id it) (id r))
                              (order_items (db w4))))
                end).
    { rewrite Hsel. reflexivity. }
    rewrite Hresult.
    match goal with |- context [snd ?X] => set (res := X) end.
    assert (Hres :
              exists wf,
                res = (match fetch_fault o with
                       | Some e => inl (PostgrestError e)
                       | None =>
                           inr (formatOrderData r'
                                  (filter (fun it => String.eqb (order_id it) (id r))
                                     (order_items (db w4))))
                       end, wf)
                /\ db wf = db w4 /\ storage wf = storage w5
                /\ client_session_id wf = client_session_id w5
                /\ (forall l, In l (console w5) -> In l (console wf))).
    { subst res. destruct (fetch_fault o).
      - eexists. split; [reflexivity|]. cbn. repeat split; auto.
        intros l Hl. apply in_or_app. left; exact Hl.
      - exists w5. repeat split; auto. }
    destruct Hres as (wf & -> & Hdbf & Hstf & Hsef & Hcof). cbn [fst snd].
    split; [congruence|]. split.
    { rewrite Hdbf, Hlg4, Hdb3, Hdb2. reflexivity. }
    split; [intros l Hl; apply Hcof, Hconsole, Hl|].
    right; right; right. split; [reflexivity|].
    exists n, r, r'.
    split; [exact Hgen|]. split; [exact Hr|]. split; [exact Hfresh|].
    split; [exact Hid|]. split; [rewrite Hdbf; exact Horders|].
    split; [rewrite Hdbf; exact Hitems|]. split; [exact Hshape|]. split.
    { intros q c e Hd Hq Hc Hb.
      destruct (Hfail q c e Hd Hq Hc Hb) as [-> Hlog].
      split; [apply Hnone'; reflexivity|].
      apply Hcof, Hco5, Hco4. rewrite Hlog. apply in_or_app. right. left; reflexivity. }
    split; [rewrite Hstf, Hst5, Hst4, Hst3, Hst2, Hst1; reflexivity|].
    rewrite Hdbf. reflexivity.
Qed.

(* ------------------------------------------------------------------------- *)
(** ** Status changes *)

Lemma completion_inv_before_update (OLD NEW : OrderRow) (now : Z) :
  completed_at NEW = completed_at OLD ->
  completion_inv OLD -> completion_inv (before_update OLD NEW now).
Proof.
  unfold completion_inv, before_update, update_updated_at_column.
  rewrite set_completed_at_cases. cbn.
  intros Hsame [H1 H2].
  destruct (OrderStatus_eqb (status NEW) completed) eqn:En.
  - assert (status NEW = completed) by (destruct (status NEW); try discriminate; reflexivity).
    destruct (OrderStatus_eqb (status OLD) completed) eqn:Eo.
    + assert (status OLD = completed) by (destruct (status OLD); try discriminate; reflexivity).
      rewrite Hsame. split; auto.
    + split; [auto | discriminate].
  - split; [congruence|].
    intros Hc. rewrite Hc in En. discriminate.
Qed.

Lemma Forall_map_if {A} (P : A -> Prop) (sel : A -> bool) (f : A -> A) (l : list A) :
  (forall x, P x -> sel x = true -> P (f x)) ->
  Forall P l -> Forall P (map (fun x => if sel x then f x else x) l).
Proof.
  intros Hf H. induction H as [|x l Hx Hl IH]; simpl; constructor; auto.
  destruct (sel x) eqn:E; auto.
Qed.

(** What a status change leaves in the database. *)
Lemma status_update_run (o : Outside) (sel : OrderRow -> bool) (s : OrderStatus)
    (label : string) (w : World) :
  let res := try_log_rethrow label
               (bind (update_request o authenticated sel (with_status s))
                     (fun _ => fetchOrders o)) w in
  (fst res = inr tt
   /\ orders (db (snd res))
      = map (fun r => if sel r then before_update r (with_status s r) (update_now o)
                      else r) (orders (db w))
   /\ order_items (db (snd res)) = order_items (db w)
   /\ rate_limit_logs (db (snd res)) = rate_limit_logs (db w)
   /\ update_request_fault o = None
   /\ (forall r, In r (orders (db w)) -> sel r = true -> update_fault o r = None))
  \/ (exists e,
        fst res = inl (PostgrestError e)
        /\ db (snd res) = db w
        /\ (update_request_fault o = Some e
            \/ exists r, In r (orders (db w)) /\ sel r = true
                         /\ update_fault o r = Some e)).
Proof.
  cbv zeta. unfold try_log_rethrow.
  destruct (update_request_run o authenticated sel (with_status s) w)
    as (res & w1 & E & _ & _ & _ & _ & _ & Hit & Hlg & Hcases).
  destruct Hcases as [(e & -> & Hdb & Hwhy)|(-> & Hreq & Hrows)].
  - rewrite (bind_inl _ _ _ _ _ E). cbn. right. exists e.
    repeat split; auto.
    destruct Hwhy as [H|H]; [left; exact H|right].
    apply update_rows_inl in H. exact H.
  - rewrite (bind_inr _ _ _ _ _ E).
    destruct (fetchOrders_run o w1) as (w2 & E2 & Hdb2 & _).
    rewrite E2. cbn [fst snd]. left.
    apply update_rows_inr in Hrows. cbn [may_update andb] in Hrows.
    destruct Hrows as [Hmap Hnf].
    rewrite Hdb2. repeat split; auto.
Qed.

(** C7.  A status update, single or bulk, keeps the table in the state
    where [completed_at] is non-null exactly for completed orders.  When
    the update goes through, the order has the new status; moving into
    [completed] sets [completed_at] to the time of the update, and a status
    other than [completed] leaves it null. *)
Theorem status_update_keeps_completion (o : Outside) (w : World) (s : OrderStatus) :
  (forall id0,
     let res := updateOrderStatus o id0 s w in
     (Forall completion_inv (orders (db w)) ->
      Forall completion_inv (orders (db (snd res))))
     /\ (fst res = inr tt ->
         forall r, In r (orders (db w)) -> id r = id0 ->
           exists r',
             In r' (orders (db (snd res))) /\ id r' = id0 /\ status r' = s
             /\ (s = completed -> status r <> completed ->
                 completed_at r' = Some (update_now o))
             /\ (s <> completed -> completed_at r' = None)))
  /\ (forall ids,
        let res := bulkUpdateStatus o ids s w in
        (Forall completion_inv (orders (db w)) ->
         Forall completion_inv (orders (db (snd res))))
        /\ (fst res = inr tt ->
            forall r, In r (orders (db w)) -> In (id r) ids ->
              exists r',
                In r' (orders (db (snd res))) /\ id r' = id r /\ status r' = s
                /\ (s = completed -> status r <> completed ->
                    completed_at r' = Some (update_now o))
                /\ (s <> completed -> completed_at r' = None))).
Proof.
  assert (Hgen : forall sel label,
             let res := try_log_rethrow label
                          (bind (update_request o authenticated sel (with_status s))
                                (fun _ => fetchOrders o)) w in
             (Forall completion_inv (orders (db w)) ->
              Forall completion_inv (orders (db (snd res))))
             /\ (fst res = inr tt ->
                 forall r, In r (orders (db w)) -> sel r = true ->
                   exists r',
                     In r' (orders (db (snd res))) /\ id r' = id r /\ status r' = s
                     /\ (s = completed -> status r <> completed ->
                         completed_at r' = Some (update_now o))
                     /\ (s <> completed -> completed_at r' = None))).
  { intros sel label. cbv zeta.
    destruct (status_update_run o sel s label w)
      as [(Hok & Hrows & _)|(e & Hfail & Hdb & _)].
    - split.
      + intros Hinv. rewrite Hrows. apply Forall_map_if; [|exact Hinv].
        intros x Hx _. apply completion_inv_before_update; [reflexivity|].
        exact Hx.
      + intros _ r Hin Hsel.
        exists (before_update r (with_status s r) (update_now o)).
        split.
        { rewrite Hrows. apply in_map_iff. exists r. rewrite Hsel. auto. }
        split; [rewrite before_update_id; reflexivity|].
        split; [rewrite before_update_status; reflexivity|].
        unfold before_update, update_updated_at_column.
        rewrite set_completed_at_cases. cbn. split.
        * intros -> Hnc. cbn.
          destruct (OrderStatus_eqb (status r) completed) eqn:E; [|reflexivity].
          exfalso. apply Hnc. destruct (status r); try discriminate; reflexivity.
        * intros Hns. destruct (OrderStatus_eqb s completed) eqn:E; [|reflexivity].
          exfalso. apply Hns. destruct s; try discriminate; reflexivity.
    - split.
      + rewrite Hdb. auto.
      + rewrite Hfail. discriminate. }
  split.
  - intros id0. cbv zeta.
    destruct (Hgen (fun r => String.eqb (id r) id0) "Error updating order status:")
      as [Hinv Hrow].
    split; [exact Hinv|].
    intros Hok r Hin Hid.
    destruct (Hrow Hok r Hin) as (r' & H1 & H2 & H3).
    { rewrite Hid. apply String.eqb_refl. }
    exists r'. split; [exact H1|]. split; [congruence|]. exact H3.
  - intros ids. cbv zeta.
    destruct (Hgen (fun r => existsb (String.eqb (id r)) ids)
                "Error bulk updating order status:") as [Hinv Hrow].
    split; [exact Hinv|].
    intros Hok r Hin Hid.
    apply (Hrow Hok r Hin).
    apply existsb_exists. exists (id r). split; [exact Hid | apply String.eqb_refl].
Qed.

(** After the first order was moved into [completed] its [completed_at] is
    the time of the update, and the table still satisfies the invariant. *)
Lemma status_update_keeps_completion_witness :
  let o := Scenario.outside Scenario.t0 "id-3" None Scenario.no_booking
             Scenario.no_fault in
  let w := Scenario.world_of Scenario.two_orders Scenario.empty_storage in
  Forall completion_inv (orders (db (snd (updateOrderStatus o "id-1" completed w))))
  /\ exists r',
       In r' (orders (db (snd (updateOrderStatus o "id-1" completed w))))
       /\ id r' = "id-1" /\ status r' = completed
       /\ completed_at r' = Some (update_now o).
Proof.
  cbv zeta.
  destruct (status_update_keeps_completion
              (Scenario.outside Scenario.t0 "id-3" None Scenario.no_booking
                 Scenario.no_fault)
              (Scenario.world_of Scenario.two_orders Scenario.empty_storage)
              completed) as [H _].
  specialize (H "id-1"). cbv zeta in H. destruct H as [Hinv Hrow].
  split.
  - apply Hinv. repeat constructor; unfold completion_inv; cbn;
      try congruence; try discriminate.
  - destruct (Hrow eq_refl
                (Scenario.plain_order "id-1" "ORD-20250902-0001" pending None)
                (or_introl eq_refl) eq_refl)
      as (r' & Hin & Hid & Hst & Hset & _).
    exists r'. repeat split; auto. apply Hset; [reflexivity | discriminate].
Defined.

(** C9 (amended).  A bulk status change is one statement over the set of
    ids.  Either it goes through, and then every order of the batch that
    exists has the target status (through the triggers) while every other
    order is untouched; or it fails, the error is thrown and no order at all
    is changed.  A fault on any one order of the batch makes the whole
    batch fail. *)
Theorem bulkUpdateStatus_all_or_nothing (o : Outside) (ids : list string)
    (s : OrderStatus) (w : World) :
  let res := bulkUpdateStatus o ids s w in
  let in_batch := fun r : OrderRow => existsb (String.eqb (id r)) ids in
  ((fst res = inr tt
    /\ orders (db (snd res))
       = map (fun r => if in_batch r
                       then before_update r (with_status s r) (update_now o)
                       else r) (orders (db w))
    /\ (forall r, In r (orders (db w)) -> in_batch r = true ->
                  update_fault o r = None))
   \/ (exists e,
         fst res = inl (PostgrestError e)
         /\ db (snd res) = db w
         /\ (update_request_fault o = Some e
             \/ exists r, In r (orders (db w)) /\ in_batch r = true
                          /\ update_fault o r = Some e)))
  /\ ((exists r, In r (orders (db w)) /\ in_batch r = true
                 /\ update_fault o r <> None) ->
      fst res <> inr tt /\ db (snd res) = db w).
Proof.
  cbv zeta.
  pose proof (status_update_run o (fun r => existsb (String.eqb (id r)) ids) s
                "Error bulk updating order status:" w) as H.
  cbv zeta in H. fold (bulkUpdateStatus o ids s) in H.
  split.
  - destruct H as [(Hok & Hrows & _ & _ & _ & Hnf)|(e & Hfail & Hdb & Hwhy)].
    + left. repeat split; auto.
    + right. exists e. repeat split; auto.
  - intros (r & Hin & Hsel & Hfault).
    destruct H as [(Hok & Hrows & _ & _ & _ & Hnf)|(e & Hfail & Hdb & Hwhy)].
    + exfalso. apply Hfault. apply Hnf; assumption.
    + split; [rewrite Hfail; discriminate | exact Hdb].
Qed.

(** C9, as stated, fails.  In a batch of two orders the backend cannot lock
    the second: the bulk change throws and the first order, which nothing
    prevented from changing, keeps its status. *)
Lemma bulkUpdateStatus_one_failure_blocks_all :
  let o := Scenario.outside Scenario.t0 "id-3" None Scenario.no_booking
             (Scenario.fault_on "id-2") in
  let w := Scenario.world_of Scenario.two_orders Scenario.empty_storage in
  fst (bulkUpdateStatus o ["id-1"; "id-2"] cancelled w)
  = inl (PostgrestError (backend_failure "could not obtain lock on row"))
  /\ map status (orders (db (snd (bulkUpdateStatus o ["id-1"; "id-2"] cancelled w))))
     = [pending; completed]
  /\ fst (updateOrderStatus o "id-1" cancelled w) = inr tt
  /\ map status (orders (db (snd (updateOrderStatus o "id-1" cancelled w))))
     = [cancelled; completed].
Proof. cbv zeta. repeat split; reflexivity. Qed.

Lemma bulkUpdateStatus_all_or_nothing_witness :
  let o := Scenario.outside Scenario.t0 "id-3" None Scenario.no_booking
             (Scenario.fault_on "id-2") in
  let w := Scenario.world_of Scenario.two_orders Scenario.empty_storage in
  fst (bulkUpdateStatus o ["id-1"; "id-2"] cancelled w) <> inr tt
  /\ db (snd (bulkUpdateStatus o ["id-1"; "id-2"] cancelled w)) = db w.
Proof.
  cbv zeta.
  apply (bulkUpdateStatus_all_or_nothing
           (Scenario.outside Scenario.t0 "id-3" None Scenario.no_booking
              (Scenario.fault_on "id-2"))
           ["id-1"; "id-2"] cancelled
           (Scenario.world_of Scenario.two_orders Scenario.empty_storage)).
  exists (Scenario.plain_order "id-2" "ORD-20250902-0002" completed
            (Some (Scenario.t0 * 1000))).
  split; [right; left; reflexivity|]. split; [reflexivity | discriminate].
Defined.

(* ------------------------------------------------------------------------- *)
(** ** Order creation *)

Lemma with_item_defaults_length uuid now k its :
  List.length (with_item_defaults uuid now k its) = List.length its.
Proof. revert k. induction its as [|it its IH]; intros k; simpl; auto. Qed.

Lemma with_item_defaults_order_id uuid now k its i :
  Forall (fun it => order_id it = i) its ->
  Forall (fun it => order_id it = i) (with_item_defaults uuid now k its).
Proof.
  revert k. induction its as [|it its IH]; intros k H; simpl; constructor.
  - inversion H; subst. reflexivity.
  - apply IH. inversion H; assumption.
Qed.

Lemma order_item_values_order_id r cart :
  Forall (fun it => order_id it = id r) (map (order_item_values r) cart).
Proof. induction cart; simpl; constructor; auto. Qed.

Lemma inserted_status uuid now n name contact st pay total opts ip :
  status (inserted_row uuid now (order_values n name contact st pay total opts ip))
  = pending.
Proof. reflexivity. Qed.

(** C1 (amended).  [createOrder] writes the order and its items with two
    separate requests, the items in one statement that inserts all rows or
    none; nothing ties the two together.  When it succeeds, the order row and
    one item row per cart line, each pointing to the order, are persisted.
    When it fails, either nothing was persisted; or, only when the items
    insert failed, the order row alone, without any of its items; or, only
    when the read of the created order failed, the order with all its
    items. *)
Theorem createOrder_persistence o cfg cart name contact st pay total opts w :
  let res := createOrder o cfg cart name contact st pay total opts w in
  let d := db w in
  let d' := db (snd res) in
  let both_persisted :=
    exists r its,
      orders d' = (orders d ++ [r])%list
      /\ order_items d' = (order_items d ++ its)%list
      /\ List.length its = List.length cart
      /\ Forall (fun it => order_id it = id r) its
      /\ status r = pending in
  (forall order, fst res = inr order -> both_persisted)
  /\ (forall e, fst res = inl e ->
        d' = d
        \/ (exists r pe,
              orders d' = (orders d ++ [r])%list
              /\ order_items d' = order_items d
              /\ status r = pending
              /\ e = PostgrestError pe
              /\ (items_fault o = Some pe
                  \/ first_violation
                       (mkDatabase (orders d ++ [r]) (order_items d)
                          (rate_limit_logs d))
                       (map (order_item_values r) cart) = Some pe))
        \/ (both_persisted
            /\ exists pe, fetch_fault o = Some pe /\ e = PostgrestError pe)).
Proof.
  cbv zeta.
  destruct (createOrder_run o cfg cart name contact st pay total opts w)
    as (ip & _ & _ & _ & _ & _ & Hcases).
  assert (Hboth :
            forall n r r',
              r = inserted_row (insert_uuid o) (insert_now o)
                    (order_values n name contact st pay total opts ip) ->
              id r' = id r ->
              orders (db (snd (createOrder o cfg cart name contact st pay total opts w)))
              = (orders (db w) ++ [r'])%list ->
              order_items (db (snd (createOrder o cfg cart name contact st pay total opts w)))
              = (order_items (db w)
                 ++ with_item_defaults (item_uuid o) (items_now o) 0
                      (map (order_item_values r) cart))%list ->
              (r' = r
               \/ exists b,
                    r' = before_update r
                           (with_lalamove (Some (orderId b)) (Some (bookingStatus b))
                              (Some (shareLink b)) r) (update_now o)) ->
              exists r its,
                orders (db (snd (createOrder o cfg cart name contact st pay total opts w)))
                = (orders (db w) ++ [r])%list
                /\ order_items (db (snd (createOrder o cfg cart name contact st pay total opts w)))
                   = (order_items (db w) ++ its)%list
                /\ List.length its = List.length cart
                /\ Forall (fun it => order_id it = id r) its
                /\ status r = pending).
  { intros n r r' Hr Hid Hos Hits Hshape.
    exists r', (with_item_defaults (item_uuid o) (items_now o) 0
                  (map (order_item_values r) cart)).
    split; [exact Hos|]. split; [exact Hits|]. split.
    { rewrite with_item_defaults_length, length_map. reflexivity. }
    split.
    { rewrite Hid. apply with_item_defaults_order_id, order_item_values_order_id. }
    destruct Hshape as [->|(b & ->)].
    - rewrite Hr. reflexivity.
    - rewrite before_update_status, Hr. reflexivity. }
  destruct Hcases as [(_ & Hres & Hdb & _)
                     |[(_ & (e0 & Hres) & Hdb & _)
                      |[(_ & n & r & e0 & _ & Hr & _ & Hres & Hdb & Hwhy & _)
                       |(_ & n & r & r' & _ & Hr & _ & Hid & Hos & Hits & Hshape & _ & _ & Hres)]]].
  - split; [intros order H; rewrite Hres in H; discriminate|].
    intros e _. left. exact Hdb.
  - split; [intros order H; rewrite Hres in H; discriminate|].
    intros e _. left. exact Hdb.
  - split; [intros order H; rewrite Hres in H; discriminate|].
    intros e He. right; left. exists r, e0. rewrite Hdb. cbn.
    rewrite Hres in He. injection He as <-.
    repeat split; auto. rewrite Hr. reflexivity.
  - split.
    + intros order _. apply (Hboth n r r'); assumption.
    + intros e He. right; right. split; [apply (Hboth n r r'); assumption|].
      rewrite Hres in He. destruct (fetch_fault o) as [pe|]; [|discriminate].
      exists pe. split; [reflexivity|]. congruence.
Qed.

(** C1, as stated, fails.  The connection is lost after the order insert and
    before the items insert: [createOrder] throws, and the order stays in
    [orders] without any item, where a read by its id finds it. *)
Lemma createOrder_leaves_order_without_items :
  fst Scenario.interrupted_order = inl (PostgrestError Scenario.connection_lost)
  /\ map order_number (orders (db (snd Scenario.interrupted_order)))
     = ["ORD-20250902-0001"]
  /\ order_items (db (snd Scenario.interrupted_order)) = []
  /\ exists r, select_order (db (snd Scenario.interrupted_order)) "id-1" = inr (r, []).
Proof.
  split; [reflexivity|]. split; [reflexivity|]. split; [reflexivity|].
  eexists. reflexivity.
Qed.

(** The first order of the day goes through: its row and its one item are
    persisted, and the order has the number of the scenario. *)
Lemma createOrder_persistence_witness :
  (exists order,
     fst Scenario.first_order = inr order
     /\ order_number (row order) = "ORD-20250902-0001"
     /\ total (row order) = 240 /\ status (row order) = pending)
  /\ exists r its,
       orders (db (snd Scenario.first_order)) = [r]
       /\ order_items (db (snd Scenario.first_order)) = its
       /\ List.length its = 1%nat
       /\ Forall (fun it => order_id it = id r) its
       /\ status r = pending.
Proof.
  split.
  - eexists. split; [reflexivity|]. repeat split; reflexivity.
  - pose proof (createOrder_persistence
                  (Scenario.outside Scenario.t0 "id-1" None Scenario.no_booking
                     Scenario.no_fault)
                  None Scenario.shake_cart "Ann" "09171234567" dine_in "cash" 240 None
                  (Scenario.world_of (mkDatabase [] [] []) Scenario.empty_storage))
      as [Hok _].
    cbv zeta in Hok.
    match type of Hok with
    | forall order, fst ?res = inr order -> _ =>
        destruct (res) as [[e|order] w'] eqn:E; [discriminate E|]
    end.
    destruct (Hok order eq_refl) as (r & its & H1 & H2 & H3 & H4 & H5).
    exists r, its. unfold Scenario.first_order. rewrite E.
    repeat split; auto.
Defined.

(** C5.  A delivery order whose two inserts went through and whose booking
    call throws: the database is left as the inserts made it, the order is
    in [orders] with status [pending] and without booking fields, a read by
    its id finds it, the failure is on the console, and what [createOrder]
    returns is the outcome of the read of the order alone; with a working
    read it is the order, not an error. *)
Theorem booking_failure_keeps_order o c cart name contact pay total opts w
    q e ip w1 r w2 :
  throttle o w = (inr ip, w1) ->
  persist o cart name contact delivery pay total opts ip w1 = (inr r, w2) ->
  truthy_string (opt opt_lalamoveQuotationId opts) = Some q ->
  book o (mkBookingCall q name
            match normalizePhoneNumber contact with
            | Some p => p
            | None => contact
            end c (id r) (opt opt_address opts)
            (opt opt_deliveryLat opts) (opt opt_deliveryLng opts)) = inl e ->
  let res := createOrder o (Some c) cart name contact delivery pay total opts w in
  let its := filter (fun it => String.eqb (order_id it) (id r))
               (order_items (db (snd res))) in
  db (snd res) = db w2
  /\ In r (orders (db (snd res)))
  /\ status r = pending
  /\ lalamove_order_id r = None /\ lalamove_status r = None
  /\ lalamove_tracking_url r = None
  /\ select_order (db (snd res)) (id r) = inr (r, its)
  /\ In (Log "Failed to create Lalamove order:" (Some e)) (console (snd res))
  /\ fst res = match fetch_fault o with
               | Some pe => inl (PostgrestError pe)
               | None => inr (formatOrderData r its)
               end.
Proof.
  intros Eg Ep Hq Hbook. cbv zeta.
  rewrite createOrder_stages. unfold try_log_rethrow.
  rewrite (bind_inr _ _ _ _ _ Eg). rewrite (bind_inr _ _ _ _ _ Ep).
  pose proof (persist_cases o cart name contact delivery pay total opts ip w1) as Hp.
  cbv zeta in Hp. rewrite Ep in Hp. cbn [fst snd] in Hp.
  destruct Hp as (_ & _ & _ & _ & _ & Hcases).
  destruct Hcases as [(e0 & H & _)|[(n & r0 & e0 & _ & _ & _ & H & _)
                                   |(n & r0 & _ & Hr & Hfresh & [= <-] & Hdb2)]];
    try discriminate H.
  destruct (booking_run o (Some c) name contact delivery opts r w2)
    as (br & w3 & Eb & Hdb3 & _ & _ & _ & _ & Hco3 & Hfail).
  destruct (Hfail q c e eq_refl Hq eq_refl Hbook) as [-> Hlog].
  rewrite (bind_inr _ _ _ _ _ Eb).
  destruct (save_booking_run o r None w3)
    as (w4 & Es & _ & _ & _ & _ & _ & _ & _ & Hnone & _).
  rewrite (Hnone eq_refl) in Es. clear w4 Hnone.
  rewrite (bind_inr _ _ _ _ _ Es).
  destruct (finish_run o ip r w3) as (w5 & Ef & Hdb5 & _ & _ & Hco5).
  rewrite Ef.
  assert (Hsel : select_order (db w2) (id r)
                 = inr (r, filter (fun it => String.eqb (order_id it) (id r))
                             (order_items (db w2)))).
  { rewrite Hdb2. apply select_order_last. exact Hfresh. }
  rewrite Hdb3, Hsel. cbn [fst snd].
  match goal with |- context [snd ?X] => set (res := X) end.
  assert (Hres :
            exists wf,
              res = (match fetch_fault o with
                     | Some pe => inl (PostgrestError pe)
                     | None =>
                         inr (formatOrderData r
                                (filter (fun it => String.eqb (order_id it) (id r))
                                   (order_items (db w2))))
                     end, wf)
              /\ db wf = db w2
              /\ (forall l, In l (console w5) -> In l (console wf))).
  { subst res. destruct (fetch_fault o).
    - eexists. split; [reflexivity|]. cbn. split; [congruence|].
      intros l Hl. apply in_or_app. left; exact Hl.
    - exists w5. split; [reflexivity|]. split; [congruence | auto]. }
  destruct Hres as (wf & -> & Hdbf & Hcof). cbn [fst snd].
  rewrite Hdbf.
  split; [reflexivity|]. split.
  { rewrite Hdb2. cbn. apply in_or_app. right. left; reflexivity. }
  split; [rewrite Hr; reflexivity|].
  split; [rewrite Hr; reflexivity|].
  split; [rewrite Hr; reflexivity|].
  split; [rewrite Hr; reflexivity|].
  split; [exact Hsel|]. split.
  { apply Hcof, Hco5. rewrite Hlog. apply in_or_app. right. left; reflexivity. }
  reflexivity.
Qed.

(** The delivery order of the scenario, whose booking call times out, is
    returned to the submitter as a pending order without booking fields, and
    the failure is on the console. *)
Lemma booking_failure_keeps_order_witness :
  let res := createOrder Scenario.delivery_outside (Some Scenario.store_config)
               Scenario.shake_cart "Ann" "09171234567" delivery "cash" 300
               Scenario.delivery_options Scenario.empty_world in
  (exists order,
     fst res = inr order
     /\ status (row order) = pending
     /\ lalamove_quotation_id (row order) = Some "Q-1"
     /\ lalamove_order_id (row order) = None
     /\ lalamove_status (row order) = None
     /\ lalamove_tracking_url (row order) = None)
  /\ In (Log "Failed to create Lalamove order:"
           (Some (JsError "Delivery proxy request failed")))
        (console (snd res)).
Proof.
  cbv zeta.
  epose proof (booking_failure_keeps_order Scenario.delivery_outside
                 Scenario.store_config Scenario.shake_cart "Ann" "09171234567"
                 "cash" 300 Scenario.delivery_options Scenario.empty_world
                 "Q-1" (JsError "Delivery proxy request failed")
                 _ _ _ _ eq_refl eq_refl eq_refl eq_refl) as H.
  cbv zeta in H.
  destruct H as (_ & _ & Hst & Ho & Hs & Hu & _ & Hlog & Hres).
  split; [|exact Hlog].
  eexists. split; [exact Hres|].
  cbn. repeat split; reflexivity.
Defined.

(** C4.  The retry loop is bounded, by the range of its [integer] counter:
    on every state of [orders] the allocator comes to an end within
    [int4_max] rounds.  It then hands out a number that is not taken, or,
    when every candidate up to the largest [integer] is taken, it fails with
    [integer out of range].  That failure, like every other way in which the
    allocator delivers no number (a statement timeout, a failed call), is
    fatal to the submission: [createOrder] throws and the database is left
    as it was, so no partial order is persisted. *)
Theorem allocation_is_bounded :
  (forall os now,
     exists fuel,
       Z.of_nat fuel <= int4_max
       /\ forall fuel', (fuel <= fuel')%nat ->
            (exists n,
               generate_order_number fuel' os now = Some (inr n)
               /\ number_exists os n = false)
            \/ (generate_order_number fuel' os now
                = Some (inl integer_out_of_range)
                /\ forall s,
                     count_today os (Calendar.DATE now) < s <= int4_max ->
                     number_exists os
                       (format_order_number (Calendar.DATE now) s) = true))
  /\ (forall o cfg cart name contact st pay total opts w,
        (forall n, generate_order_number (rpc_fuel o) (orders (db w)) (rpc_now o)
                   <> Some (inr n)) ->
        let res := createOrder o cfg cart name contact st pay total opts w in
        (exists e, fst res = inl e) /\ db (snd res) = db w).
Proof.
  pose proof int4_bounds as Hb.
  split.
  - intros os now. exists (Z.to_nat int4_max). split; [lia|].
    pose proof (count_today_nonneg os (Calendar.DATE now)) as Hc.
    assert (H0 : exists r,
               generate_order_number (Z.to_nat int4_max) os now = Some r
               /\ match r with
                  | inr n => number_exists os n = false
                  | inl e =>
                      e = integer_out_of_range
                      /\ forall s,
                           count_today os (Calendar.DATE now) < s <= int4_max ->
                           number_exists os
                             (format_order_number (Calendar.DATE now) s) = true
                  end).
    { unfold generate_order_number.
      destruct (Z_le_gt_dec (count_today os (Calendar.DATE now) + 1) int4_max)
        as [Hle|Hgt].
      - rewrite int4_inr by lia. rewrite int4_inr by lia.
        destruct (uniqueness_loop (Z.to_nat int4_max) os (Calendar.DATE now)
                    (count_today os (Calendar.DATE now))
                    (format_order_number (Calendar.DATE now)
                       (count_today os (Calendar.DATE now) + 1)))
          as [r|] eqn:E.
        + exists r. split; [reflexivity|].
          apply uniqueness_loop_result in E; try lia.
          destruct r as [e|n].
          * destruct E as [-> Hall]. split; [reflexivity|].
            intros s Hs. apply Hall. lia.
          * destruct E as (k & _ & _ & -> & Hfree & _). exact Hfree.
        + exfalso. revert E. apply uniqueness_loop_terminates; lia.
      - exists (inl integer_out_of_range). split.
        + destruct (Z_le_gt_dec (count_today os (Calendar.DATE now)) int4_max)
            as [Hle'|Hgt'].
          * rewrite int4_inr by lia. rewrite int4_inl by lia. reflexivity.
          * rewrite int4_inl by lia. reflexivity.
        + split; [reflexivity|]. intros s Hs. lia. }
    destruct H0 as (r & Hr & Hshape). intros fuel' Hfuel.
    pose proof (generate_order_number_fuel_mono os now _ fuel' r Hfuel Hr) as Hr'.
    destruct r as [e|n].
    + destruct Hshape as [-> Hall]. right. split; [exact Hr' | exact Hall].
    + left. exists n. split; [exact Hr' | exact Hshape].
  - intros o cfg cart name contact st pay total opts w Hno. cbv zeta.
    destruct (createOrder_run o cfg cart name contact st pay total opts w)
      as (ip & _ & _ & _ & _ & _ & Hcases).
    destruct Hcases as [(_ & Hres & Hdb & _)
                       |[(_ & Hres & Hdb & _)
                        |[(_ & n & r & e0 & Hgen & _)
                         |(_ & n & r & r' & Hgen & _)]]].
    + split; [eexists; exact Hres | exact Hdb].
    + split; [exact Hres | exact Hdb].
    + exfalso. exact (Hno n Hgen).
    + exfalso. exact (Hno n Hgen).
Qed.

(** On the busy day the allocator comes to an end within the bound. *)
Lemma allocation_is_bounded_witness :
  exists fuel,
    Z.of_nat fuel <= int4_max
    /\ generate_order_number fuel Scenario.busy_day (Scenario.t0 * 1000) <> None.
Proof.
  destruct allocation_is_bounded as [H _].
  destruct (H Scenario.busy_day (Scenario.t0 * 1000)) as (fuel & Hle & Hres).
  exists fuel. split; [exact Hle|].
  destruct (Hres fuel (le_n fuel)) as [(n & E & _)|[E _]]; rewrite E; discriminate.
Defined.

(** The bound is far above fifty.  On the busy day the allocator is still
    running after 51 rounds, and in the next one it returns a number. *)
Lemma allocation_retries_past_fifty :
  generate_order_number 51 Scenario.busy_day (Scenario.t0 * 1000) = None
  /\ generate_order_number 52 Scenario.busy_day (Scenario.t0 * 1000)
     = Some (inr "ORD-20250902-0103")
  /\ List.length Scenario.busy_day = 51%nat.
Proof. vm_compute. repeat split; reflexivity. Qed.

(* ------------------------------------------------------------------------- *)
(** ** Two submissions by one identity *)

Lemma filter_filter_negb_nil {A} (p q : A -> bool) (l : list A) :
  filter p (filter q (filter (fun x => negb (p x)) l)) = [].
Proof.
  induction l as [|x l IH]; simpl; [reflexivity|].
  destruct (p x) eqn:Ep; simpl; [exact IH|].
  destruct (q x); simpl; [rewrite Ep|]; exact IH.
Qed.

Lemma same_pair_refl ip a :
  RateLimit.same_pair ip a (RateLimit.mkEntry ip a 0 0) = true.
Proof.
  unfold RateLimit.same_pair. cbn. rewrite String.eqb_refl. destruct a; reflexivity.
Qed.

(** A check that follows a record, on a storage that works and before the
    recorded expiry, is refused with the seconds left. *)
Lemma check_after_record ls ip a c c' t0 t n0 n :
  RateLimit.getItem_throws ls = false ->
  RateLimit.setItem_throws ls = false ->
  n0 < t + c * 1000 -> n < t + c * 1000 ->
  RateLimit.checkRateLimit (RateLimit.recordAction ls ip a c t0 t) ip a c' n0 n
  = RateLimit.mkResult false (Some (RateLimit.ceil_div_1000 (t + c * 1000 - n))).
Proof.
  intros Hget Hset Hn0 Hn.
  unfold RateLimit.recordAction, RateLimit.saveRateLimits. rewrite Hset.
  unfold RateLimit.checkRateLimit, RateLimit.getStoredRateLimits at 1.
  cbn [RateLimit.getItem_throws RateLimit.item]. rewrite Hget.
  unfold RateLimit.most_recent.
  rewrite !filter_app. cbn [filter RateLimit.expiresAt].
  assert (Hlt : (n0 <? t + c * 1000) = true) by (apply Z.ltb_lt; exact Hn0).
  rewrite Hlt. cbn [filter].
  assert (Hp : RateLimit.same_pair ip a (RateLimit.mkEntry ip a t (t + c * 1000)) = true).
  { pose proof (same_pair_refl ip a) as H. exact H. }
  rewrite Hp.
  rewrite (filter_filter_negb_nil (RateLimit.same_pair ip a)).
  cbn [app Js.sort fold_right Js.insert_sorted hd_error RateLimit.expiresAt].
  assert (Hle : (t + c * 1000 <=? n) = false) by (apply Z.leb_gt; exact Hn).
  rewrite Hle. reflexivity.
Qed.

(** C2 (amended).  [createOrder] enforces the rate limit at one point, the
    client-side check on the browser's storage; it never reads or writes
    [rate_limit_logs], the table of the server-side [check_rate_limit].
    When a submission went through and its action was recorded in a storage
    that works, a second submission by the same identity whose check falls
    before the recorded expiry is refused with the seconds left, between 1
    and 30, and nothing is written. *)
Theorem second_submission_rejected
    o1 cfg1 cart1 name1 contact1 st1 pay1 total1 opts1
    o2 cfg2 cart2 name2 contact2 st2 pay2 total2 opts2 w order w1 :
  createOrder o1 cfg1 cart1 name1 contact1 st1 pay1 total1 opts1 w = (inr order, w1) ->
  RateLimit.getItem_throws (storage w) = false ->
  RateLimit.setItem_throws (storage w) = false ->
  record_now o1 <= check_now o2 < record_now o1 + 30 * 1000 ->
  check_now0 o2 < record_now o1 + 30 * 1000 ->
  let res2 := createOrder o2 cfg2 cart2 name2 contact2 st2 pay2 total2 opts2 w1 in
  exists rem,
    rem = RateLimit.ceil_div_1000 (record_now o1 + 30 * 1000 - check_now o2)
    /\ 0 < rem <= 30
    /\ fst res2 = inl (JsError ("Rate limit exceeded. Please wait "
                               ++ Text.of_Z rem ++ " seconds."))
    /\ db (snd res2) = db w1
    /\ rate_limit_logs (db w1) = rate_limit_logs (db w).
Proof.
  intros E1 Hget Hset Hnow Hnow0. cbv zeta.
  destruct (createOrder_run o1 cfg1 cart1 name1 contact1 st1 pay1 total1 opts1 w)
    as (ip & Hne & _ & Hse1 & Hlg1 & _ & Hcases1).
  rewrite E1 in Hse1, Hlg1, Hcases1. cbn [fst snd] in Hse1, Hlg1, Hcases1.
  destruct Hcases1 as [(_ & H & _)|[(_ & (e & H) & _)
                                   |[(_ & n & r & e & _ & _ & _ & H & _)
                                    |(_ & n & r & r' & _ & _ & _ & _ & _ & _ & _ & _ & Hst1 & _)]]];
    try discriminate H.
  destruct (createOrder_run o2 cfg2 cart2 name2 contact2 st2 pay2 total2 opts2 w1)
    as (ip2 & _ & Hsame & _ & _ & _ & Hcases2).
  rewrite (Hsame ip Hse1 Hne) in Hcases2. clear ip2 Hsame.
  rewrite Hst1 in Hcases2.
  rewrite (check_after_record (storage w) ip RateLimit.order_placement 30 30
             (record_now0 o1) (record_now o1) (check_now0 o2) (check_now o2)
             Hget Hset) in Hcases2 by lia.
  cbn [RateLimit.allowed] in Hcases2.
  exists (RateLimit.ceil_div_1000 (record_now o1 + 30 * 1000 - check_now o2)).
  assert (Hpos : 0 < RateLimit.ceil_div_1000 (record_now o1 + 30 * 1000 - check_now o2))
    by (apply ceil_div_1000_pos; lia).
  split; [reflexivity|]. split.
  { split; [exact Hpos|]. apply ceil_div_1000_le. lia. }
  destruct Hcases2 as [(_ & Hres & Hdb & _)|[(H & _)|[(H & _)|(H & _)]]];
    try discriminate H.
  split; [|split; [exact Hdb | exact Hlg1]].
  rewrite Hres. unfold rate_limit_message, truthy_number.
  cbn [RateLimit.cooldownRemaining].
  destruct (RateLimit.ceil_div_1000 (record_now o1 + 30 * 1000 - check_now o2) =? 0)
    eqn:Ez; [apply Z.eqb_eq in Ez; lia|].
  reflexivity.
Qed.

(** Five seconds after the first order of the day, the same visitor is told
    to wait 26 seconds (the action was recorded 0.9 seconds after the
    submission started). *)
Lemma second_submission_rejected_witness :
  fst Scenario.second_order
  = inl (JsError "Rate limit exceeded. Please wait 26 seconds.")
  /\ db (snd Scenario.second_order) = db (snd Scenario.first_order).
Proof.
  unfold Scenario.second_order.
  destruct Scenario.first_order as [[e|order] w1] eqn:E1; [discriminate E1|].
  cbn [snd].
  pose (o1 := Scenario.outside Scenario.t0 "id-1" None Scenario.no_booking
                Scenario.no_fault).
  pose (o2 := Scenario.outside (Scenario.t0 + 5000) "id-2" None
                Scenario.no_booking Scenario.no_fault).
  assert (Ht : record_now o1 <= check_now o2 < record_now o1 + 30 * 1000).
  { vm_compute. split; [intros H; discriminate H | reflexivity]. }
  assert (Ht0 : check_now0 o2 < record_now o1 + 30 * 1000).
  { vm_compute. reflexivity. }
  destruct (second_submission_rejected
              o1 None Scenario.shake_cart "Ann" "09171234567" dine_in "cash" 240 None
              o2 None Scenario.shake_cart "Ann" "09171234567" dine_in "cash" 240 None
              (Scenario.world_of (mkDatabase [] [] []) Scenario.empty_storage)
              order w1 E1 eq_refl eq_refl Ht Ht0)
    as (rem & Hrem & _ & Hres & Hdb & _).
  split; [|exact Hdb]. subst o1 o2. rewrite Hres, Hrem. reflexivity.
Defined.

(** C2, as stated, fails.  From a browser whose storage refuses writes, two
    submissions by the same identity, five seconds apart, both go through:
    both orders are in [orders], and [rate_limit_logs] was never written. *)
Lemma both_submissions_go_through :
  (exists first, fst Scenario.first_try = inr first)
  /\ (exists second, fst Scenario.second_try = inr second)
  /\ map (fun r => (order_number r, customer_ip r))
         (orders (db (snd Scenario.second_try)))
     = [("ORD-20250902-0001", "session_1756771200000_k3x9q1z7a");
        ("ORD-20250902-0002", "session_1756771200000_k3x9q1z7a")]
  /\ rate_limit_logs (db (snd Scenario.second_try)) = [].
Proof.
  vm_compute. split; [eexists; reflexivity|]. split; [eexists; reflexivity|].
  split; reflexivity.
Qed.

(** What a session sees of [rate_limit_logs]. *)
Lemma staff_reads_the_log (logs : list RateLimitLog) :
  filter (may_read_log authenticated) logs = logs.
Proof.
  induction logs as [|l logs IH]; cbn; [reflexivity|]. rewrite IH. reflexivity.
Qed.

Lemma visitor_reads_no_log (logs : list RateLimitLog) :
  filter (may_read_log anon) logs = [].
Proof. induction logs as [|l logs IH]; cbn; [reflexivity|exact IH]. Qed.

(** The server-side [check_rate_limit] checks and records in one step: an
    accepted call appends its entry, a refused call leaves the log as it
    is. *)
Lemma check_rate_limit_records role logs uuid ip a c now ok logs' :
  check_rate_limit role logs uuid ip a c now = inr (ok, logs') ->
  if ok then logs' = (logs ++ [mkRateLimitLog uuid ip a now (now + seconds c)])%list
  else logs' = logs.
Proof.
  unfold check_rate_limit, insert_rate_limit_log.
  destruct (last_action_time (filter (may_read_log role) logs) ip a now) as [t|].
  - destruct (t + seconds c <=? now).
    + destruct (action_type_ok a); [|discriminate].
      intros [= <- <-]. reflexivity.
    + intros [= <- <-]. reflexivity.
  - destruct (action_type_ok a); [|discriminate].
    intros [= <- <-]. reflexivity.
Qed.

(** The two rate-limit checks are not the same check.  Fifteen seconds
    after an action recorded with a cooldown of 30 seconds, asked with a
    cooldown of 10 seconds, the client-side check refuses with 15 seconds
    left (it goes by the recorded expiry), while the server-side function,
    even in a session that reads the log, accepts and records (it adds its
    own cooldown argument to the time of the last action). *)
Lemma server_check_is_another_check :
  RateLimit.checkRateLimit Scenario.storage_S1 "S1" RateLimit.order_placement
    10 15000 15000 = RateLimit.mkResult false (Some 15)
  /\ check_rate_limit authenticated Scenario.server_logs_S1 "log-2" "S1"
       "order_placement" 10 (seconds 15)
     = inr (true,
            [mkRateLimitLog "log-1" "S1" "order_placement" 0 (seconds 30);
             mkRateLimitLog "log-2" "S1" "order_placement" (seconds 15)
               (seconds 25)]).
Proof. split; reflexivity. Qed.

(* ------------------------------------------------------------------------- *)
(** ** The signing proxy *)

(** The model of SHA-256 and HMAC on the vectors of FIPS 180 and RFC 4231
    (test case 2), and base64 on the vectors of RFC 4648. *)
Example sha256_abc :
  Crypto.hex (Crypto.sha256 (Crypto.encode "abc"))
  = "ba7816bf8f01cfea414140de5dae2223b00361a396177a9cb410ff61f20015ad".
Proof. vm_compute. reflexivity. Qed.

Example hmac_sha256_rfc4231_2 :
  Crypto.hex (Crypto.hmac_sha256 (Crypto.encode "Jefe")
                (Crypto.encode "what do ya want for nothing?"))
  = "5bdcc146bf60754e6a042426089575c75a003f089d2739839dec58b964ec3843".
Proof. vm_compute. reflexivity. Qed.

Example base64_rfc4648 :
  map (fun s => Crypto.arrayBufferToBase64 (Crypto.encode s))
      ["f"; "fo"; "foo"; "foob"; "fooba"; "foobar"]
  = ["Zg=="; "Zm8="; "Zm9v"; "Zm9vYg=="; "Zm9vYmE="; "Zm9vYmFy"].
Proof. vm_compute. reflexivity. Qed.

Lemma round_length (st : list N) (kw : N * N) :
  List.length (Crypto.round st kw) = List.length st.
Proof.
  unfold Crypto.round.
  destruct st as [|a [|b [|c [|d [|e [|f [|g [|h [|i st]]]]]]]]]; reflexivity.
Qed.

Lemma fold_round_length (kws : list (N * N)) (st : list N) :
  List.length (fold_left Crypto.round kws st) = List.length st.
Proof.
  revert st. induction kws as [|kw kws IH]; intros st; simpl; [reflexivity|].
  rewrite IH. apply round_length.
Qed.

Lemma compress_length (st block : list N) :
  List.length (Crypto.compress st block) = List.length st.
Proof.
  unfold Crypto.compress.
  rewrite length_map, length_combine, fold_round_length. apply Nat.min_id.
Qed.

Lemma fold_compress_length (blocks : list (list N)) (st : list N) :
  List.length (fold_left Crypto.compress blocks st) = List.length st.
Proof.
  revert st. induction blocks as [|b blocks IH]; intros st; simpl; [reflexivity|].
  rewrite IH. apply compress_length.
Qed.

Lemma flat_map_be_bytes_length (l : list N) :
  List.length (flat_map (Crypto.be_bytes 4) l) = (4 * List.length l)%nat.
Proof.
  induction l as [|x l IH]; [reflexivity|].
  cbn [flat_map]. rewrite length_app, IH.
  unfold Crypto.be_bytes. rewrite length_map, length_seq. simpl. lia.
Qed.

(** A SHA-256 digest, and so an HMAC-SHA256 tag, has 32 bytes. *)
Lemma sha256_length (msg : list N) : List.length (Crypto.sha256 msg) = 32%nat.
Proof.
  unfold Crypto.sha256.
  rewrite flat_map_be_bytes_length, fold_compress_length. reflexivity.
Qed.

Lemma hmac_sha256_length (key data : list N) :
  List.length (Crypto.hmac_sha256 key data) = 32%nat.
Proof. unfold Crypto.hmac_sha256. apply sha256_length. Qed.

(** In base64, 32 bytes take 44 characters. *)
Lemma base64_length_32 (l : list N) :
  List.length l = 32%nat -> String.length (Crypto.arrayBufferToBase64 l) = 44%nat.
Proof.
  intros H.
  do 32 (destruct l as [|? l]; [discriminate H|]).
  destruct l; [|discriminate H]. reflexivity.
Qed.

(** C6 (amended).  Every request [makeLalamoveRequest] sends is signed:
    its [Authorization] header is ['hmac '], the public key, [':'] and the
    signature, the base64 text (44 characters) of the HMAC-SHA256 tag, under
    the shared secret, of the string: timestamp, CRLF, method, CRLF, path,
    CRLF, CRLF, body, where the timestamp is the ISO text of the clock reading
    taken when the request is signed.  The request carries the market in
    [X-LLM-Market] and, in [X-Request-Id], ['srv-'] followed by the UUID drawn
    for this request. *)
Theorem lalamove_request_is_signed (API_KEY API_SECRET : string) (w : Proxy.Wire)
    (method path : string) (body : option (list (string * Proxy.Json)))
    (market : string) (sandbox : bool) :
  let request :=
    fst (Proxy.makeLalamoveRequest API_KEY API_SECRET w method path body market
           sandbox) in
  let bodyString :=
    match body with
    | Some fields => Proxy.stringify (Proxy.JObject fields)
    | None => ""
    end in
  let timestamp := Calendar.toISOString (Proxy.sign_now w) in
  let canonical :=
    timestamp ++ Proxy.CRLF ++ method ++ Proxy.CRLF ++ path ++ Proxy.CRLF
      ++ Proxy.CRLF ++ bodyString in
  let signature :=
    Crypto.arrayBufferToBase64
      (Crypto.hmac_sha256 (Crypto.encode API_SECRET) (Crypto.encode canonical)) in
  Proxy.header "Authorization" (Proxy.headers request)
  = Some ("hmac " ++ API_KEY ++ ":" ++ signature)
  /\ String.length signature = 44%nat
  /\ Proxy.timestamp (Proxy.signRequest (Proxy.sign_now w) method path bodyString
                        API_SECRET) = timestamp
  /\ Proxy.header "X-LLM-Market" (Proxy.headers request) = Some market
  /\ Proxy.header "X-Request-Id" (Proxy.headers request)
     = Some ("srv-" ++ Proxy.randomUUID w)
  /\ Proxy.method request = method
  /\ Proxy.url request = Proxy.quoteBaseUrl sandbox ++ path
  /\ Proxy.body request = (if String.eqb bodyString "" then None else Some bodyString).
Proof.
  cbv zeta. split; [reflexivity|]. split.
  { apply base64_length_32, hmac_sha256_length. }
  repeat split; reflexivity.
Qed.

(** C6, as stated, fails.  The quotation request of the scenario, signed at
    2025-09-02T00:00:00.123Z, has four headers and none of them, nor the
    address, nor the body, shows the timestamp: it went into the signed
    string only. *)
Lemma request_does_not_carry_timestamp :
  Calendar.toISOString (Proxy.sign_now Scenario.wire) = "2025-09-02T00:00:00.123Z"
  /\ Proxy.carries "2025-09-02T00:00:00.123Z" Scenario.quote_request = false
  /\ map fst (Proxy.headers Scenario.quote_request)
     = ["Content-Type"; "X-LLM-Market"; "Authorization"; "X-Request-Id"]
  /\ Proxy.header "Authorization" (Proxy.headers Scenario.quote_request)
     = Some "hmac pk_test:KxVIAPLFiEs50kGhZhtyRFy5NWIrq6qcb9e8bws1vAY=".
Proof. vm_compute. repeat split; reflexivity. Qed.

(* ------------------------------------------------------------------------- *)
(** ** The rate limiter: one entry per identity and action *)

Lemma filter_filter {A} (p q : A -> bool) (l : list A) :
  filter p (filter q l) = filter (fun x => p x && q x) l.
Proof.
  induction l as [|x l IH]; simpl; [reflexivity|].
  destruct (q x); simpl; destruct (p x); simpl; rewrite ?IH; reflexivity.
Qed.

Lemma filter_length_le {A} (p : A -> bool) (l : list A) :
  (List.length (filter p l) <= List.length l)%nat.
Proof.
  induction l as [|x l IH]; simpl; [lia|]. destruct (p x); simpl; lia.
Qed.

Lemma filter_sub_length {A} (p q : A -> bool) (l : list A) :
  (List.length (filter p (filter q l)) <= List.length (filter p l))%nat.
Proof.
  induction l as [|x l IH]; simpl; [lia|].
  destruct (q x); simpl; destruct (p x); simpl; lia.
Qed.

Lemma same_pair_eq ip0 a e :
  RateLimit.same_pair ip0 a e = true ->
  RateLimit.ip e = ip0 /\ RateLimit.actionType e = a.
Proof.
  unfold RateLimit.same_pair. intros H.
  apply andb_true_iff in H. destruct H as [H1 H2].
  apply String.eqb_eq in H1. split; [exact H1|].
  destruct (RateLimit.actionType e), a; simpl in H2; congruence.
Qed.

Lemma one_per_pair_count entries ip0 a :
  RateLimitAdmin.one_per_pair entries = true ->
  (List.length (filter (RateLimit.same_pair ip0 a) entries) <= 1)%nat.
Proof.
  intros H.
  destruct (filter (RateLimit.same_pair ip0 a) entries) as [|e l] eqn:E;
    [simpl; lia|].
  assert (Hin : In e (filter (RateLimit.same_pair ip0 a) entries))
    by (rewrite E; left; reflexivity).
  apply filter_In in Hin. destruct Hin as [Hin Hp].
  apply same_pair_eq in Hp. destruct Hp as [<- <-].
  unfold RateLimitAdmin.one_per_pair in H. rewrite forallb_forall in H.
  specialize (H e Hin). apply Nat.leb_le in H. rewrite E in H. exact H.
Qed.

Lemma one_per_pair_intro entries :
  (forall ip0 a, (List.length (filter (RateLimit.same_pair ip0 a) entries) <= 1)%nat) ->
  RateLimitAdmin.one_per_pair entries = true.
Proof.
  intros H. unfold RateLimitAdmin.one_per_pair. apply forallb_forall.
  intros e _. apply Nat.leb_le. apply H.
Qed.

Lemma filter_unique {A} (p : A -> bool) (l : list A) (x y : A) :
  (List.length (filter p l) <= 1)%nat ->
  In x l -> p x = true -> In y l -> p y = true -> x = y.
Proof.
  intros Hlen Hx Hpx Hy Hpy.
  assert (Ix : In x (filter p l)) by (apply filter_In; auto).
  assert (Iy : In y (filter p l)) by (apply filter_In; auto).
  destruct (filter p l) as [|z [|z' l']]; simpl in *; try lia; try tauto.
  destruct Ix as [<-|[]], Iy as [<-|[]]. reflexivity.
Qed.

Lemma same_pair_other ip0 a ip1 a1 e :
  RateLimit.same_pair ip0 a e = true ->
  RateLimit.same_pair ip1 a1 e = true -> ip1 = ip0 /\ a1 = a.
Proof.
  intros H1 H2. apply same_pair_eq in H1, H2.
  destruct H1 as [<- <-], H2 as [<- <-]. split; reflexivity.
Qed.

Lemma same_pair_dec ip0 a ip1 a1 :
  (ip1 = ip0 /\ a1 = a) \/
  (forall e, RateLimit.same_pair ip0 a e = true -> RateLimit.same_pair ip1 a1 e = false).
Proof.
  destruct (String.eqb ip1 ip0) eqn:Ei.
  - apply String.eqb_eq in Ei. subst ip1.
    destruct a, a1; try (left; split; reflexivity); right; intros e H;
      apply same_pair_eq in H; destruct H as [H1 H2];
      unfold RateLimit.same_pair; rewrite H2; simpl; apply andb_false_r.
  - right. intros e H. apply same_pair_eq in H. destruct H as [H1 H2].
    unfold RateLimit.same_pair. rewrite H1.
    rewrite String.eqb_sym, Ei. reflexivity.
Qed.

(** X1 ([recordAction]).  Recording an action leaves exactly one entry for
    the identity and the action, the new one, which expires the cooldown
    after the recording; the entries of the other pairs that had not expired
    are kept, in their order; and a storage that holds at most one entry per
    pair still does afterwards, whether the write went through or not. *)
Theorem recordAction_keeps_one_entry_per_pair (ls : RateLimit.LocalStorage)
    (ip0 : string) (a : RateLimit.ActionType) (c now0 now : Z) :
  let ls' := RateLimit.recordAction ls ip0 a c now0 now in
  let fresh := RateLimit.mkEntry ip0 a now (now + c * 1000) in
  (RateLimitAdmin.one_per_pair (RateLimitAdmin.stored ls) = true ->
   RateLimitAdmin.one_per_pair (RateLimitAdmin.stored ls') = true)
  /\ (RateLimit.setItem_throws ls = false ->
      filter (RateLimit.same_pair ip0 a) (RateLimitAdmin.stored ls') = [fresh]
      /\ filter (fun e => negb (RateLimit.same_pair ip0 a e)) (RateLimitAdmin.stored ls')
         = filter (fun e => negb (RateLimit.same_pair ip0 a e))
             (RateLimit.getStoredRateLimits ls now0)).
Proof.
  intros ls' fresh.
  assert (Hfresh : RateLimit.same_pair ip0 a fresh = true).
  { unfold RateLimit.same_pair, fresh. simpl. rewrite String.eqb_refl.
    destruct a; reflexivity. }
  assert (Hown : forall l,
             filter (RateLimit.same_pair ip0 a)
               (filter (fun e => negb (RateLimit.same_pair ip0 a e)) l ++ [fresh])
             = [fresh]).
  { intros l. rewrite filter_app, filter_filter. cbn [filter]. rewrite Hfresh.
    replace (filter _ l) with (@nil RateLimit.RateLimitEntry); [reflexivity|].
    symmetry. induction l as [|x l IH]; simpl; [reflexivity|].
    destruct (RateLimit.same_pair ip0 a x); simpl; exact IH. }
  split.
  - intros Hinv. subst ls'. unfold RateLimit.recordAction, RateLimit.saveRateLimits.
    fold fresh.
    destruct (RateLimit.setItem_throws ls); [exact Hinv|].
    unfold RateLimitAdmin.stored at 1. simpl.
    apply one_per_pair_intro. intros ip1 a1.
    destruct (same_pair_dec ip0 a ip1 a1) as [[-> ->]|Hother].
    + rewrite Hown. simpl. lia.
    + rewrite filter_app. cbn [filter]. rewrite (Hother fresh Hfresh).
      rewrite app_nil_r.
      eapply Nat.le_trans; [apply filter_sub_length|].
      unfold RateLimit.getStoredRateLimits.
      destruct (RateLimit.getItem_throws ls); [simpl; lia|].
      pose proof (one_per_pair_count _ ip1 a1 Hinv) as Hc.
      unfold RateLimitAdmin.stored in Hc.
      destruct (RateLimit.item ls); simpl; try lia.
      eapply Nat.le_trans; [apply filter_sub_length|exact Hc].
  - intros Hset. subst ls'. unfold RateLimit.recordAction, RateLimit.saveRateLimits.
    fold fresh. rewrite Hset. unfold RateLimitAdmin.stored. simpl. split; [apply Hown|].
    rewrite filter_app. cbn [filter]. rewrite Hfresh. cbn [negb]. rewrite app_nil_r.
    rewrite filter_filter. apply filter_ext. intros e. apply andb_diag.
Qed.

(** Recording a second order of [S1] replaces its entry and keeps the one of
    [S2]. *)
Lemma recordAction_keeps_one_entry_per_pair_witness :
  let ls' := RateLimit.recordAction Cases.two_visitors "S1"
               RateLimit.order_placement 30 40000 40000 in
  RateLimitAdmin.one_per_pair (RateLimitAdmin.stored ls') = true
  /\ filter (RateLimit.same_pair "S1" RateLimit.order_placement)
       (RateLimitAdmin.stored ls')
     = [RateLimit.mkEntry "S1" RateLimit.order_placement 40000 70000].
Proof.
  cbv zeta.
  destruct (recordAction_keeps_one_entry_per_pair Cases.two_visitors "S1"
              RateLimit.order_placement 30 40000 40000) as [Hone Hfresh].
  split.
  - apply Hone. reflexivity.
  - apply (Hfresh eq_refl).
Defined.


Lemma getStoredRateLimits_stored ls now e :
  In e (RateLimit.getStoredRateLimits ls now) ->
  In e (RateLimitAdmin.stored ls) /\ now < RateLimit.expiresAt e.
Proof.
  intros H. apply getStoredRateLimits_In in H.
  destruct H as [entries [Hi [Hin [Hlt _]]]].
  unfold RateLimitAdmin.stored. rewrite Hi. split; assumption.
Qed.

Lemma getStoredRateLimits_later ls now now' e :
  now <= now' -> In e (RateLimit.getStoredRateLimits ls now') ->
  In e (RateLimit.getStoredRateLimits ls now).
Proof.
  unfold RateLimit.getStoredRateLimits. intros Hle.
  destruct (RateLimit.getItem_throws ls); [tauto|].
  destruct (RateLimit.item ls); try tauto.
  rewrite !filter_In. intros [Hin Hlt]. split; [exact Hin|].
  apply Z.ltb_lt in Hlt. apply Z.ltb_lt. lia.
Qed.

(** X2 ([checkRateLimit]).  While the storage holds at most one entry per
    identity and action, which is what [recordAction] maintains, a check that
    allows keeps allowing at every later time, whatever the cooldown
    argument, until the next action is recorded. *)
Theorem allowed_stays_allowed (ls : RateLimit.LocalStorage) (ip0 : string)
    (a : RateLimit.ActionType) (c c' now0 now now0' now' : Z) :
  RateLimitAdmin.one_per_pair (RateLimitAdmin.stored ls) = true ->
  now0 <= now0' -> now <= now' ->
  RateLimit.allowed (RateLimit.checkRateLimit ls ip0 a c now0 now) = true ->
  RateLimit.checkRateLimit ls ip0 a c' now0' now' = RateLimit.mkResult true None.
Proof.
  intros Hinv H0 H1 Hallowed.
  unfold RateLimit.checkRateLimit in *.
  destruct (RateLimit.most_recent ip0 a (RateLimit.getStoredRateLimits ls now0'))
    as [e'|] eqn:E'; [|reflexivity].
  apply most_recent_Some in E'. destruct E' as [Hin' [Hp' _]].
  pose proof (getStoredRateLimits_later ls now0 now0' e' H0 Hin') as Hin0.
  destruct (RateLimit.most_recent ip0 a (RateLimit.getStoredRateLimits ls now0))
    as [e|] eqn:E.
  - apply most_recent_Some in E. destruct E as [Hin [Hp _]].
    assert (e = e').
    { apply (filter_unique (RateLimit.same_pair ip0 a) (RateLimitAdmin.stored ls)).
      - apply one_per_pair_count. exact Hinv.
      - apply (getStoredRateLimits_stored ls now0 e Hin).
      - exact Hp.
      - apply (getStoredRateLimits_stored ls now0' e' Hin').
      - exact Hp'. }
    subst e'.
    destruct (RateLimit.expiresAt e <=? now) eqn:Ee; simpl in Hallowed;
      [|discriminate].
    apply Z.leb_le in Ee.
    replace (RateLimit.expiresAt e <=? now') with true; [reflexivity|].
    symmetry. apply Z.leb_le. lia.
  - pose proof (most_recent_None ip0 a _ E e' Hin0) as Hno. congruence.
Qed.

(** Identity [S1], allowed again after its cooldown, is allowed later too. *)
Lemma allowed_stays_allowed_witness :
  RateLimit.checkRateLimit Scenario.storage_S1 "S1" RateLimit.order_placement
    30 40000 40000 = RateLimit.mkResult true None.
Proof.
  apply (allowed_stays_allowed Scenario.storage_S1 "S1"
           RateLimit.order_placement 30 30 31000 31000 40000 40000);
    [reflexivity | lia | lia | reflexivity].
Defined.

Lemma survives_covered ipo ao ip0 a e :
  (Hook.truthy_string ipo = None \/ Hook.truthy_string ipo = Some ip0) ->
  (ao = None \/ ao = Some a) ->
  RateLimit.same_pair ip0 a e = true ->
  RateLimitAdmin.survives (Hook.truthy_string ipo) ao e = false.
Proof.
  intros Hi Ha Hp. apply same_pair_eq in Hp. destruct Hp as [Hip Hact].
  unfold RateLimitAdmin.survives.
  destruct Hi as [-> | ->], Ha as [-> | ->]; rewrite ?Hip, ?Hact, ?String.eqb_refl;
    simpl; try reflexivity; destruct a; reflexivity.
Qed.

Lemma most_recent_nothing ip0 a entries :
  (forall e, In e entries -> RateLimit.same_pair ip0 a e = false) ->
  RateLimit.most_recent ip0 a entries = None.
Proof.
  intros H. unfold RateLimit.most_recent.
  replace (filter (RateLimit.same_pair ip0 a) entries)
    with (@nil RateLimit.RateLimitEntry); [reflexivity|].
  symmetry. induction entries as [|x l IH]; simpl; [reflexivity|].
  rewrite (H x (or_introl eq_refl)). apply IH. intros e He. apply H. right. exact He.
Qed.

(** X3 ([clearRateLimits]).  When the storage takes the write, clearing
    lifts the cooldown of every identity and action the arguments cover (an
    absent or empty [ip] covers every identity, an absent [actionType] every
    action): the next check allows, at any time and for any cooldown. *)
Theorem clearRateLimits_lifts_cooldown (ls ls' : RateLimit.LocalStorage)
    (ipo : option string) (ao : option RateLimit.ActionType) (rm : bool) (t : Z)
    (ip0 : string) (a : RateLimit.ActionType) (c now0 now : Z) :
  RateLimitAdmin.clearRateLimits ls ipo ao rm t = Some ls' ->
  RateLimit.setItem_throws ls = false ->
  (Hook.truthy_string ipo = None \/ Hook.truthy_string ipo = Some ip0) ->
  (ao = None \/ ao = Some a) ->
  RateLimit.checkRateLimit ls' ip0 a c now0 now = RateLimit.mkResult true None.
Proof.
  intros Hclear Hset Hi Ha.
  assert (Hnone : RateLimit.most_recent ip0 a (RateLimit.getStoredRateLimits ls' now0)
                  = None).
  { apply most_recent_nothing. intros e He.
    apply getStoredRateLimits_stored in He. destruct He as [He _].
    destruct (RateLimit.same_pair ip0 a e) eqn:Hp; [exfalso|reflexivity].
    pose proof (survives_covered ipo ao ip0 a e Hi Ha Hp) as Hs.
    unfold RateLimitAdmin.clearRateLimits in Hclear.
    assert (Hsaved : ls' = RateLimit.saveRateLimits ls
                             (filter (RateLimitAdmin.survives (Hook.truthy_string ipo) ao)
                                (RateLimit.getStoredRateLimits ls t))
                     \/ RateLimitAdmin.stored ls' = []).
    { destruct (Hook.truthy_string ipo), ao; try (left; congruence).
      destruct rm; [discriminate|]. right.
      injection Hclear as <-. reflexivity. }
    destruct Hsaved as [-> | Hnil]; [|rewrite Hnil in He; exact He].
    unfold RateLimit.saveRateLimits in He. rewrite Hset in He.
    unfold RateLimitAdmin.stored in He. simpl in He.
    apply filter_In in He. destruct He as [_ He]. congruence. }
  unfold RateLimit.checkRateLimit. rewrite Hnone. reflexivity.
Qed.

(** Five seconds into its cooldown, [S1] is cleared and let through. *)
Lemma clearRateLimits_lifts_cooldown_witness :
  exists ls',
    RateLimitAdmin.clearRateLimits Scenario.storage_S1 (Some "S1")
      (Some RateLimit.order_placement) false 5000 = Some ls'
    /\ RateLimit.allowed
         (RateLimit.checkRateLimit Scenario.storage_S1 "S1"
            RateLimit.order_placement 30 5000 5000) = false
    /\ RateLimit.checkRateLimit ls' "S1" RateLimit.order_placement 30 5000 5000
       = RateLimit.mkResult true None.
Proof.
  eexists. split; [reflexivity|]. split; [reflexivity|].
  apply (clearRateLimits_lifts_cooldown Scenario.storage_S1 _ (Some "S1")
           (Some RateLimit.order_placement) false 5000 "S1"
           RateLimit.order_placement 30 5000 5000);
    [reflexivity | reflexivity | right; reflexivity | right; reflexivity].
Defined.

Lemma most_recent_filter_ext ip0 a l l' :
  filter (RateLimit.same_pair ip0 a) l = filter (RateLimit.same_pair ip0 a) l' ->
  RateLimit.most_recent ip0 a l = RateLimit.most_recent ip0 a l'.
Proof. unfold RateLimit.most_recent. intros ->. reflexivity. Qed.

(** X4 ([clearRateLimits]).  Clearing says nothing about the pairs it does
    not cover: for an identity other than the one given, or an action other
    than the one given, every later check answers as it would have without
    the clearing. *)
Theorem clearRateLimits_keeps_other_pairs (ls ls' : RateLimit.LocalStorage)
    (ipo : option string) (ao : option RateLimit.ActionType) (rm : bool) (t : Z)
    (ip1 : string) (a1 : RateLimit.ActionType) (c now0 now : Z) :
  RateLimitAdmin.clearRateLimits ls ipo ao rm t = Some ls' ->
  ((exists i, Hook.truthy_string ipo = Some i /\ i <> ip1)
   \/ (exists x, ao = Some x /\ x <> a1)) ->
  t <= now0 ->
  RateLimit.checkRateLimit ls' ip1 a1 c now0 now
  = RateLimit.checkRateLimit ls ip1 a1 c now0 now.
Proof.
  intros Hclear Hother Ht.
  assert (Hkeep : forall e, RateLimit.same_pair ip1 a1 e = true ->
                            RateLimitAdmin.survives (Hook.truthy_string ipo) ao e = true).
  { intros e Hp. apply same_pair_eq in Hp. destruct Hp as [Hip Hact].
    unfold RateLimitAdmin.survives.
    destruct Hother as [[i [-> Hne]] | [x [-> Hne]]].
    - rewrite Hip. replace (String.eqb ip1 i) with false; [reflexivity|].
      symmetry. apply String.eqb_neq. congruence.
    - rewrite Hact.
      destruct (match Hook.truthy_string ipo with
                | Some i => negb (String.eqb (RateLimit.ip e) i)
                | None => false
                end); [reflexivity|].
      destruct a1, x; simpl; congruence. }
  assert (Hls' : ls' = RateLimit.saveRateLimits ls
                         (filter (RateLimitAdmin.survives (Hook.truthy_string ipo) ao)
                            (RateLimit.getStoredRateLimits ls t))).
  { unfold RateLimitAdmin.clearRateLimits in Hclear.
    destruct Hother as [[i [Hi _]] | [x [Hx _]]].
    - rewrite Hi in *. congruence.
    - subst ao. destruct (Hook.truthy_string ipo); congruence. }
  subst ls'. unfold RateLimit.checkRateLimit.
  rewrite (most_recent_filter_ext ip1 a1 _ (RateLimit.getStoredRateLimits ls now0));
    [reflexivity|].
  unfold RateLimit.saveRateLimits.
  destruct (RateLimit.setItem_throws ls); [reflexivity|].
  unfold RateLimit.getStoredRateLimits; simpl.
  destruct (RateLimit.getItem_throws ls); [reflexivity|].
  destruct (RateLimit.item ls) as [| |entries]; simpl; try reflexivity.
  rewrite !filter_filter. apply filter_ext_in. intros e _.
  destruct (RateLimit.same_pair ip1 a1 e) eqn:Hp; [|reflexivity].
  rewrite (Hkeep e Hp). simpl.
  destruct (now0 <? RateLimit.expiresAt e) eqn:E; [|reflexivity].
  apply Z.ltb_lt in E.
  replace (t <? RateLimit.expiresAt e) with true; [reflexivity|].
  symmetry. apply Z.ltb_lt. lia.
Qed.

(** Clearing [S2] leaves [S1] in its cooldown. *)
Lemma clearRateLimits_keeps_other_pairs_witness :
  exists ls',
    RateLimitAdmin.clearRateLimits Cases.two_visitors (Some "S2") None false 5000
    = Some ls'
    /\ RateLimit.checkRateLimit ls' "S1" RateLimit.order_placement 30 5000 5000
       = RateLimit.checkRateLimit Cases.two_visitors "S1"
           RateLimit.order_placement 30 5000 5000
    /\ RateLimit.allowed
         (RateLimit.checkRateLimit ls' "S1" RateLimit.order_placement 30 5000
            5000) = false.
Proof.
  eexists. split; [reflexivity|].
  split; [|reflexivity].
  apply (clearRateLimits_keeps_other_pairs Cases.two_visitors _ (Some "S2")
           None false 5000 "S1" RateLimit.order_placement 30 5000 5000);
    [reflexivity | | lia].
  left. exists "S2". split; [reflexivity | discriminate].
Defined.

(** X5 ([getClientIP]).  The identity of a browser session is made once: the
    first call stores a non-empty identifier, and every later call returns
    that identifier and changes nothing, whatever the clock and the random
    source say then. *)
Theorem getClientIP_is_stable (o o' : Outside) (w : World) :
  exists ip,
    fst (getClientIP o w) = inr ip
    /\ ip <> ""
    /\ getClientIP o' (snd (getClientIP o w)) = (inr ip, snd (getClientIP o w)).
Proof.
  destruct (getClientIP_run o w) as [ip [Hrun [Hne _]]].
  exists ip. rewrite Hrun. simpl. split; [reflexivity|]. split; [exact Hne|].
  unfold getClientIP. simpl.
  destruct (String.eqb ip "") eqn:E.
  - apply String.eqb_eq in E. contradiction.
  - reflexivity.
Qed.

(* ------------------------------------------------------------------------- *)
(** ** The server-side limiter and the clean-up of its log *)

Lemma last_action_time_cleanup logs ip0 a tc t :
  tc - Calendar.usec_per_day <= t ->
  last_action_time (Maintenance.cleanup_rate_limit_logs logs tc) ip0 a t
  = last_action_time logs ip0 a t.
Proof.
  intros Ht. induction logs as [|l logs IH]; [reflexivity|].
  unfold Maintenance.cleanup_rate_limit_logs in *. cbn [filter].
  destruct (expires_at l <? tc - Calendar.usec_per_day) eqn:E; cbn [negb].
  - rewrite IH. unfold last_action_time at 2. cbn [fold_right].
    replace (t <? expires_at l) with false; [rewrite andb_false_r; reflexivity|].
    symmetry. apply Z.ltb_ge. apply Z.ltb_lt in E. lia.
  - unfold last_action_time in *. cbn [fold_right]. rewrite IH. reflexivity.
Qed.

(** X6 ([cleanup_rate_limit_logs], [check_rate_limit]).  The clean-up only
    removes rows the limiter no longer looks at: a check made after a
    clean-up (or up to a day before its time), in whatever session, decides
    as it would have on the full log, fails as it would have, and adds the
    same row. *)
Theorem cleanup_keeps_decisions (role : Role) (logs : list RateLimitLog)
    (tc : Z) (uuid ip0 a : string) (c t : Z) :
  tc - Calendar.usec_per_day <= t ->
  let cleaned := Maintenance.cleanup_rate_limit_logs logs tc in
  check_rate_limit role cleaned uuid ip0 a c t
  = match check_rate_limit role logs uuid ip0 a c t with
    | inl e => inl e
    | inr (ok, _) =>
        inr (ok, if ok
                 then (cleaned ++ [mkRateLimitLog uuid ip0 a t (t + seconds c)])%list
                 else cleaned)
    end.
Proof.
  intros Ht cleaned. subst cleaned. unfold check_rate_limit.
  assert (Hseen :
            last_action_time
              (filter (may_read_log role)
                 (Maintenance.cleanup_rate_limit_logs logs tc)) ip0 a t
            = last_action_time (filter (may_read_log role) logs) ip0 a t).
  { destruct role.
    - rewrite !visitor_reads_no_log. reflexivity.
    - rewrite !staff_reads_the_log. apply last_action_time_cleanup. exact Ht. }
  rewrite Hseen. unfold insert_rate_limit_log.
  destruct (last_action_time (filter (may_read_log role) logs) ip0 a t) as [m|].
  - destruct (m + seconds c <=? t); [|reflexivity].
    destruct (action_type_ok a); reflexivity.
  - destruct (action_type_ok a); reflexivity.
Qed.

(** Two days on, the clean-up deletes the entry of [S1], and [S1] is let
    through as without the clean-up. *)
Lemma cleanup_keeps_decisions_witness :
  let tc := 2 * Calendar.usec_per_day in
  Maintenance.cleanup_rate_limit_logs Scenario.server_logs_S1 tc = []
  /\ check_rate_limit authenticated
       (Maintenance.cleanup_rate_limit_logs Scenario.server_logs_S1 tc)
       "log-2" "S1" "order_placement" 30 tc
     = inr (true, [mkRateLimitLog "log-2" "S1" "order_placement" tc
                     (tc + seconds 30)]).
Proof.
  cbv zeta. split; [reflexivity|].
  pose proof (cleanup_keeps_decisions authenticated Scenario.server_logs_S1
                (2 * Calendar.usec_per_day) "log-2" "S1" "order_placement" 30
                (2 * Calendar.usec_per_day)) as H.
  cbv zeta in H. rewrite H; [reflexivity|].
  unfold Calendar.usec_per_day. lia.
Defined.

Lemma fold_last_action_ge (f : RateLimitLog -> bool) (logs : list RateLimitLog) (m0 : Z) :
  exists m,
    fold_right (fun l acc =>
                  if f l
                  then match acc with
                       | None => Some (log_timestamp l)
                       | Some m => Some (Z.max (log_timestamp l) m)
                       end
                  else acc) (Some m0) logs = Some m
    /\ m0 <= m.
Proof.
  induction logs as [|l logs IH]; simpl.
  - exists m0. split; [reflexivity|lia].
  - destruct IH as [m [-> Hm]]. destruct (f l).
    + eexists. split; [reflexivity|lia].
    + exists m. split; [reflexivity|exact Hm].
Qed.

(** X7 ([check_rate_limit]).  The server-side function, called twice for
    one address and action, the second time before the end of the cooldown
    counted from the first.  In a session that may read [rate_limit_logs],
    which row level security grants to signed-in users only, the second call
    is denied and writes nothing, whatever else the log holds.  In a
    visitor's session, which may insert but not read, the function sees no
    earlier action: the second call is let through as well and adds its
    row. *)
Theorem check_rate_limit_within_cooldown (role : Role)
    (logs logs1 : list RateLimitLog) (u1 u2 ip0 a : string) (c1 c2 t1 t2 : Z) :
  check_rate_limit role logs u1 ip0 a c1 t1 = inr (true, logs1) ->
  t1 <= t2 -> t2 < t1 + seconds c1 -> t2 < t1 + seconds c2 ->
  check_rate_limit role logs1 u2 ip0 a c2 t2
  = match role with
    | authenticated => inr (false, logs1)
    | anon =>
        inr (true,
             (logs1 ++ [mkRateLimitLog u2 ip0 a t2 (t2 + seconds c2)])%list)
    end.
Proof.
  intros H1 Hle Hc1 Hc2.
  pose proof (check_rate_limit_records _ _ _ _ _ _ _ _ _ H1) as Hlogs.
  cbn in Hlogs. destruct role.
  - unfold check_rate_limit in *. rewrite visitor_reads_no_log in *.
    cbn [last_action_time fold_right] in *. unfold insert_rate_limit_log in *.
    destruct (action_type_ok a); [reflexivity|discriminate].
  - subst logs1. unfold check_rate_limit at 1. rewrite staff_reads_the_log.
    assert (Hlast : exists m,
               last_action_time
                 (logs ++ [mkRateLimitLog u1 ip0 a t1 (t1 + seconds c1)]) ip0 a t2
               = Some m /\ t1 <= m).
    { unfold last_action_time. rewrite fold_right_app. cbn [fold_right].
      cbn [ip_address action_type expires_at log_timestamp].
      rewrite !String.eqb_refl.
      replace (t2 <? t1 + seconds c1) with true by (symmetry; apply Z.ltb_lt; lia).
      cbn [andb].
      apply (fold_last_action_ge
               (fun l => String.eqb (ip_address l) ip0 && String.eqb (action_type l) a
                         && (t2 <? expires_at l))). }
    destruct Hlast as [m [-> Hm]].
    replace (m + seconds c2 <=? t2) with false; [reflexivity|].
    symmetry. apply Z.leb_gt. lia.
Qed.

(** Let through at time 0, [S1] is refused five seconds later when the
    function is called by a signed-in session, and let through again when it
    is called by a visitor's. *)
Lemma check_rate_limit_within_cooldown_witness :
  check_rate_limit authenticated Scenario.server_logs_S1 "log-2" "S1"
    "order_placement" 30 (seconds 5)
  = inr (false, Scenario.server_logs_S1)
  /\ check_rate_limit anon Scenario.server_logs_S1 "log-2" "S1"
       "order_placement" 30 (seconds 5)
     = inr (true,
            (Scenario.server_logs_S1
             ++ [mkRateLimitLog "log-2" "S1" "order_placement" (seconds 5)
                   (seconds 5 + seconds 30)])%list).
Proof.
  split.
  - apply (check_rate_limit_within_cooldown authenticated []
             Scenario.server_logs_S1 "log-1" "log-2" "S1" "order_placement" 30
             30 0 (seconds 5));
      [reflexivity | | | ]; unfold seconds; lia.
  - apply (check_rate_limit_within_cooldown anon []
             Scenario.server_logs_S1 "log-1" "log-2" "S1" "order_placement" 30
             30 0 (seconds 5));
      [reflexivity | | | ]; unfold seconds; lia.
Defined.

(* ------------------------------------------------------------------------- *)
(** ** What the hook's operations keep true of the database *)

Section Keeps.

Variable Q : Database -> Prop.

Lemma keeps_same {A} (m : M A) :
  (forall w, db (snd (m w)) = db w) -> Frame.keeps Q m.
Proof. intros H w Hq. rewrite H. exact Hq. Qed.

Lemma keeps_bind {A B} (m : M A) (k : A -> M B) :
  Frame.keeps Q m -> (forall a, Frame.keeps Q (k a)) -> Frame.keeps Q (bind m k).
Proof.
  intros Hm Hk w Hq. specialize (Hm w Hq). unfold bind.
  destruct (m w) as [[e|a] w']; cbn [snd] in *; [exact Hm|].
  apply Hk. exact Hm.
Qed.

Lemma keeps_ret {A} (a : A) : Frame.keeps Q (ret a).
Proof. intros w Hq. exact Hq. Qed.

Lemma keeps_throw {A} (e : Thrown) : Frame.keeps Q (@throw A e).
Proof. intros w Hq. exact Hq. Qed.

Lemma keeps_rethrow {A} (label : string) (m : M A) :
  Frame.keeps Q m -> Frame.keeps Q (try_log_rethrow label m).
Proof.
  intros Hm w Hq. specialize (Hm w Hq). unfold try_log_rethrow.
  destruct (m w) as [[e|a] w']; cbn in *; exact Hm.
Qed.

Lemma keeps_throttle o : Frame.keeps Q (throttle o).
Proof.
  apply keeps_same. intros w.
  destruct (throttle_run o w) as (ip & w1 & _ & _ & Hdb & _ & _ & _ & ->).
  exact Hdb.
Qed.

Lemma keeps_booking o cfg name contact st opts order :
  Frame.keeps Q (booking o cfg name contact st opts order).
Proof.
  apply keeps_same. intros w.
  destruct (booking_run o cfg name contact st opts order w)
    as (res & w' & -> & Hdb & _).
  exact Hdb.
Qed.

Lemma keeps_finish o ip order : Frame.keeps Q (finish o ip order).
Proof.
  apply keeps_same. intros w.
  destruct (finish_run o ip order w) as (w' & -> & Hdb & _).
  exact Hdb.
Qed.

Lemma keeps_fetchOrders o : Frame.keeps Q (fetchOrders o).
Proof.
  apply keeps_same. intros w.
  destruct (fetchOrders_run o w) as (w' & -> & Hdb & _). exact Hdb.
Qed.

Hypothesis Q_insert :
  forall d uuid now values r d',
    insert_order d uuid now values = inr (r, d') -> Q d -> Q d'.

Hypothesis Q_items :
  forall d uuid now its d',
    insert_order_items d uuid now its = inr d' -> Q d -> Q d'.

Hypothesis Q_update :
  forall role d sel set fault now d',
    (forall r, id (set r) = id r /\ order_number (set r) = order_number r) ->
    update_orders role d sel set fault now = inr d' -> Q d -> Q d'.

Lemma keeps_update_request o role sel set :
  (forall r, id (set r) = id r /\ order_number (set r) = order_number r) ->
  Frame.keeps Q (update_request o role sel set).
Proof.
  intros Hset w Hq.
  unfold update_request, bind, get_db, put_db, or_throw, throw, ret. cbn.
  destruct (update_request_fault o); [exact Hq|].
  destruct (update_orders role (db w) sel set (update_fault o) (update_now o))
    as [e|d'] eqn:E; cbn; [exact Hq|].
  exact (Q_update _ _ _ _ _ _ _ Hset E Hq).
Qed.

Lemma keeps_persist o cart name contact st pay total opts ip :
  Frame.keeps Q (persist o cart name contact st pay total opts ip).
Proof.
  intros w Hq.
  unfold persist, rpc_generate_order_number, insert_order_request,
    insert_items_request, bind, get_db, put_db, or_throw, throw, ret.
  cbn [fst snd].
  destruct (rpc_fault o); [exact Hq|].
  destruct (generate_order_number (rpc_fuel o) (orders (db w)) (rpc_now o))
    as [[e|n]|]; cbn [fst snd]; try exact Hq.
  destruct (String.eqb n ""); [exact Hq|].
  cbn [db].
  destruct (insert_fault o); [exact Hq|].
  destruct (insert_order (db w) (insert_uuid o) (insert_now o)
              (order_values n name contact st pay total opts ip))
    as [e|[r d1]] eqn:E1; cbn [fst snd db]; [exact Hq|].
  pose proof (Q_insert _ _ _ _ _ _ E1 Hq) as Hq1.
  destruct (items_fault o); [exact Hq1|].
  destruct (insert_order_items d1 (item_uuid o) (items_now o)
              (map (order_item_values r) cart)) as [e|d2] eqn:E2;
    cbn [fst snd db]; [exact Hq1|].
  exact (Q_items _ _ _ _ _ E2 Hq1).
Qed.

Lemma with_lalamove_keys a b c r :
  id (with_lalamove a b c r) = id r
  /\ order_number (with_lalamove a b c r) = order_number r.
Proof. split; reflexivity. Qed.

Lemma with_status_keys s r :
  id (with_status s r) = id r /\ order_number (with_status s r) = order_number r.
Proof. split; reflexivity. Qed.

Lemma keeps_save_booking o order res : Frame.keeps Q (save_booking o order res).
Proof.
  intros w Hq. unfold save_booking. destruct res as [r|]; [|exact Hq].
  pose proof (keeps_update_request o (checkout_role o)
                (fun x => String.eqb (id x) (id order))
                (with_lalamove (Some (orderId r)) (Some (bookingStatus r))
                   (Some (shareLink r)))
                (with_lalamove_keys _ _ _) w Hq) as H.
  destruct (update_request o _ _ _ w) as [[e|u] w']; cbn in *; exact H.
Qed.

Lemma keeps_createOrder o cfg cart name contact st pay total opts :
  Frame.keeps Q (createOrder o cfg cart name contact st pay total opts).
Proof.
  intros w Hq. rewrite createOrder_stages. revert w Hq.
  apply keeps_rethrow.
  apply keeps_bind; [apply keeps_throttle|]. intros ip.
  apply keeps_bind; [apply keeps_persist|]. intros order.
  apply keeps_bind; [apply keeps_booking|]. intros r.
  apply keeps_bind; [apply keeps_save_booking|]. intros _.
  apply keeps_finish.
Qed.

Lemma keeps_updateOrderStatus o id0 s : Frame.keeps Q (updateOrderStatus o id0 s).
Proof.
  unfold updateOrderStatus. apply keeps_rethrow.
  apply keeps_bind; [|intros _; apply keeps_fetchOrders].
  apply keeps_update_request. apply with_status_keys.
Qed.

Lemma keeps_bulkUpdateStatus o ids s : Frame.keeps Q (bulkUpdateStatus o ids s).
Proof.
  unfold bulkUpdateStatus. apply keeps_rethrow.
  apply keeps_bind; [|intros _; apply keeps_fetchOrders].
  apply keeps_update_request. apply with_status_keys.
Qed.

End Keeps.


Lemma existsb_key_false {A} (key : A -> string) (x : string) (l : list A) :
  existsb (fun o => String.eqb (key o) x) l = false -> ~ In x (map key l).
Proof.
  induction l as [|o l IH]; simpl; [tauto|].
  intros H. apply orb_false_iff in H. destruct H as [H1 H2].
  intros [Heq|Hin]; [|exact (IH H2 Hin)].
  rewrite Heq, String.eqb_refl in H1. discriminate.
Qed.

Lemma NoDup_snoc {A} (l : list A) (x : A) :
  NoDup l -> ~ In x l -> NoDup (l ++ [x]).
Proof.
  induction l as [|y l IH]; simpl; intros Hnd Hnot.
  - constructor; [tauto|constructor].
  - inversion Hnd as [|? ? Hy Hl]; subst. constructor.
    + rewrite in_app_iff. simpl. intros [H|[H|[]]]; [tauto|].
      apply Hnot. left. symmetry. exact H.
    + apply IH; [exact Hl|tauto].
Qed.

Lemma update_rows_keys sel set fault now rows rows' :
  (forall r, id (set r) = id r /\ order_number (set r) = order_number r) ->
  update_rows sel set fault now rows = inr rows' ->
  map id rows' = map id rows /\ map order_number rows' = map order_number rows.
Proof.
  intros Hset H. apply update_rows_inr in H. destruct H as [-> _].
  rewrite !map_map. split; apply map_ext; intros r; destruct (sel r);
    try reflexivity.
  - rewrite before_update_id. apply Hset.
  - unfold before_update, update_updated_at_column. rewrite set_completed_at_cases.
    cbn. apply Hset.
Qed.

Lemma keys_unique_insert d uuid now values r d' :
  insert_order d uuid now values = inr (r, d') ->
  Maintenance.keys_unique d -> Maintenance.keys_unique d'.
Proof.
  unfold insert_order, number_exists. intros H [Hid Hnum].
  destruct (existsb (fun o => String.eqb (order_number o) (order_number values))
              (orders d)) eqn:En; [discriminate|].
  destruct (existsb (fun o => String.eqb (id o) uuid) (orders d)) eqn:Ei;
    [discriminate|].
  injection H as <- <-. unfold Maintenance.keys_unique. cbn [orders].
  rewrite !map_app. cbn [map inserted_row id order_number]. split.
  - apply NoDup_snoc; [exact Hid|]. apply existsb_key_false. exact Ei.
  - apply NoDup_snoc; [exact Hnum|]. apply existsb_key_false. exact En.
Qed.

Lemma keys_unique_items d uuid now its d' :
  insert_order_items d uuid now its = inr d' ->
  Maintenance.keys_unique d -> Maintenance.keys_unique d'.
Proof.
  unfold insert_order_items. destruct (first_violation d its); [discriminate|].
  intros H. injection H as <-. tauto.
Qed.

Lemma keys_unique_update role d sel set fault now d' :
  (forall r, id (set r) = id r /\ order_number (set r) = order_number r) ->
  update_orders role d sel set fault now = inr d' ->
  Maintenance.keys_unique d -> Maintenance.keys_unique d'.
Proof.
  intros Hset. unfold update_orders.
  destruct (update_rows (fun r => may_update role r && sel r) set fault now
              (orders d)) as [e|rows] eqn:E;
    [discriminate|].
  intros H. injection H as <-.
  destruct (update_rows_keys _ _ _ _ _ _ Hset E) as [Hi Hn].
  unfold Maintenance.keys_unique. cbn [orders]. rewrite Hi, Hn. tauto.
Qed.

(** X8 (the keys of [orders]; [createOrder], [updateOrderStatus],
    [bulkUpdateStatus]).  No operation of the hook ever makes two orders
    share an id or an order number: if they are unique before a call, they
    are unique after it, whether the call succeeds or fails and whatever the
    outside does. *)
Theorem orders_keys_stay_unique (o : Outside) (w : World) :
  Maintenance.keys_unique (db w) ->
  (forall cfg cart name contact st pay total opts,
     Maintenance.keys_unique
       (db (snd (createOrder o cfg cart name contact st pay total opts w))))
  /\ (forall id0 s, Maintenance.keys_unique (db (snd (updateOrderStatus o id0 s w))))
  /\ (forall ids s, Maintenance.keys_unique (db (snd (bulkUpdateStatus o ids s w)))).
Proof.
  intros H. split; [|split]; intros.
  - apply (keeps_createOrder Maintenance.keys_unique keys_unique_insert
             keys_unique_items keys_unique_update); exact H.
  - apply (keeps_updateOrderStatus Maintenance.keys_unique keys_unique_update);
      exact H.
  - apply (keeps_bulkUpdateStatus Maintenance.keys_unique keys_unique_update);
      exact H.
Qed.

(** The two orders of the day have distinct ids and numbers, and so have the
    three orders after a further checkout. *)
Lemma orders_keys_stay_unique_witness :
  Maintenance.keys_unique (db Cases.admin_world)
  /\ Maintenance.keys_unique
       (db (snd (createOrder Cases.admin_outside None Scenario.shake_cart "Ann"
                   "09171234567" dine_in "cash" 240 None Cases.admin_world))).
Proof.
  assert (H : Maintenance.keys_unique (db Cases.admin_world)).
  { split; cbn; repeat constructor; cbn; intuition discriminate. }
  split; [exact H|].
  destruct (orders_keys_stay_unique Cases.admin_outside Cases.admin_world H)
    as [Hc _].
  apply Hc.
Defined.

Lemma existsb_app_l {A} (p : A -> bool) (l l' : list A) :
  existsb p l = true -> existsb p (l ++ l') = true.
Proof. intros H. rewrite existsb_app, H. reflexivity. Qed.

Lemma items_consistent_insert d uuid now values r d' :
  insert_order d uuid now values = inr (r, d') ->
  Maintenance.items_consistent d -> Maintenance.items_consistent d'.
Proof.
  unfold insert_order. intros H Hc.
  destruct (number_exists (orders d) (order_number values)); [discriminate|].
  destruct (existsb (fun o => String.eqb (id o) uuid) (orders d)); [discriminate|].
  injection H as <- <-. unfold Maintenance.items_consistent in *. cbn [orders order_items].
  eapply Forall_impl; [|exact Hc]. cbn beta. intros it [Hq Hfk].
  split; [exact Hq|]. apply existsb_app_l. exact Hfk.
Qed.

Lemma first_violation_None d its :
  first_violation d its = None ->
  Forall (fun it =>
            0 < quantity it
            /\ existsb (fun o => String.eqb (id o) (order_id it)) (orders d) = true)
         its.
Proof.
  induction its as [|it its IH]; simpl; intros H; [constructor|].
  unfold item_violation in H.
  destruct (existsb (fun o => String.eqb (id o) (order_id it)) (orders d)) eqn:Efk;
    cbn [negb] in H; [|discriminate].
  destruct (quantity it <=? 0) eqn:Eq; [discriminate|].
  constructor; [|exact (IH H)]. split; [|exact Efk].
  apply Z.leb_gt in Eq. exact Eq.
Qed.

Lemma with_item_defaults_Forall (P : Z -> string -> Prop) uuid now its :
  forall k,
    Forall (fun it => P (quantity it) (order_id it)) its ->
    Forall (fun it => P (quantity it) (order_id it))
      (with_item_defaults uuid now k its).
Proof.
  induction its as [|it its IH]; intros k H; simpl; [constructor|].
  inversion H; subst. constructor; [assumption|]. apply IH. assumption.
Qed.

Lemma items_consistent_items d uuid now its d' :
  insert_order_items d uuid now its = inr d' ->
  Maintenance.items_consistent d -> Maintenance.items_consistent d'.
Proof.
  unfold insert_order_items. destruct (first_violation d its) eqn:E; [discriminate|].
  intros H Hc. injection H as <-. unfold Maintenance.items_consistent in *.
  cbn [orders order_items]. apply Forall_app. split; [exact Hc|].
  apply (with_item_defaults_Forall
           (fun q oid => 0 < q
              /\ existsb (fun o => String.eqb (id o) oid) (orders d) = true)).
  apply first_violation_None. exact E.
Qed.

Lemma existsb_map_key (g : OrderRow -> OrderRow) (x : string) (l : list OrderRow) :
  map id (map g l) = map id l ->
  existsb (fun o => String.eqb (id o) x) (map g l)
  = existsb (fun o => String.eqb (id o) x) l.
Proof.
  revert g. induction l as [|o l IH]; intros g H; simpl in *; [reflexivity|].
  injection H as H1 H2. rewrite H1. f_equal. apply IH. exact H2.
Qed.

Lemma existsb_same_ids (x : string) (l l' : list OrderRow) :
  map id l' = map id l ->
  existsb (fun o => String.eqb (id o) x) l'
  = existsb (fun o => String.eqb (id o) x) l.
Proof.
  revert l'. induction l as [|o l IH]; intros [|o' l'] H; simpl in *;
    try discriminate; [reflexivity|].
  injection H as H1 H2. rewrite H1. f_equal. apply IH. exact H2.
Qed.

Lemma items_consistent_update role d sel set fault now d' :
  (forall r, id (set r) = id r /\ order_number (set r) = order_number r) ->
  update_orders role d sel set fault now = inr d' ->
  Maintenance.items_consistent d -> Maintenance.items_consistent d'.
Proof.
  intros Hset. unfold update_orders.
  destruct (update_rows (fun r => may_update role r && sel r) set fault now
              (orders d)) as [e|rows] eqn:E;
    [discriminate|].
  intros H Hc. injection H as <-.
  destruct (update_rows_keys _ _ _ _ _ _ Hset E) as [Hi _].
  unfold Maintenance.items_consistent in *. cbn [orders order_items].
  eapply Forall_impl; [|exact Hc]. cbn beta. intros it [Hq Hfk].
  split; [exact Hq|]. rewrite (existsb_same_ids _ _ _ Hi). exact Hfk.
Qed.

(** X9 (the constraints of [order_items]; [createOrder],
    [updateOrderStatus], [bulkUpdateStatus]).  The hook never stores a line
    with a quantity of zero or less, and never a line whose order does not
    exist: if every stored line has a positive quantity and an existing
    order before a call, so it is after it, on success and on failure. *)
Theorem order_items_stay_consistent (o : Outside) (w : World) :
  Maintenance.items_consistent (db w) ->
  (forall cfg cart name contact st pay total opts,
     Maintenance.items_consistent
       (db (snd (createOrder o cfg cart name contact st pay total opts w))))
  /\ (forall id0 s,
        Maintenance.items_consistent (db (snd (updateOrderStatus o id0 s w))))
  /\ (forall ids s,
        Maintenance.items_consistent (db (snd (bulkUpdateStatus o ids s w)))).
Proof.
  intros H. split; [|split]; intros.
  - apply (keeps_createOrder Maintenance.items_consistent items_consistent_insert
             items_consistent_items items_consistent_update); exact H.
  - apply (keeps_updateOrderStatus Maintenance.items_consistent
             items_consistent_update); exact H.
  - apply (keeps_bulkUpdateStatus Maintenance.items_consistent
             items_consistent_update); exact H.
Qed.

(** The line of the first order refers to it, also once the order is
    completed. *)
Lemma order_items_stay_consistent_witness :
  Maintenance.items_consistent (db (snd Scenario.first_order))
  /\ Maintenance.items_consistent
       (db (snd (updateOrderStatus Cases.admin_outside "id-1" completed
                   (snd Scenario.first_order)))).
Proof.
  assert (H : Maintenance.items_consistent (db (snd Scenario.first_order))).
  { unfold Maintenance.items_consistent. vm_compute.
    repeat constructor. }
  split; [exact H|].
  destruct (order_items_stay_consistent Cases.admin_outside
              (snd Scenario.first_order) H) as (_ & Hu & _).
  apply Hu.
Defined.

(* ------------------------------------------------------------------------- *)
(** ** Status changes: unknown orders, and what a change leaves alone *)

Lemma map_if_false {A} (sel : A -> bool) (f : A -> A) (l : list A) :
  (forall x, In x l -> sel x = false) ->
  map (fun x => if sel x then f x else x) l = l.
Proof.
  induction l as [|x l IH]; simpl; intros H; [reflexivity|].
  rewrite (H x (or_introl eq_refl)). f_equal. apply IH. intros y Hy. apply H.
  right. exact Hy.
Qed.

Lemma database_eq (d d' : Database) :
  orders d' = orders d -> order_items d' = order_items d ->
  rate_limit_logs d' = rate_limit_logs d -> d' = d.
Proof. destruct d, d'; simpl; intros -> -> ->; reflexivity. Qed.

Lemma status_update_nothing_selected o sel s label w :
  update_request_fault o = None ->
  (forall r, In r (orders (db w)) -> sel r = false) ->
  let res := try_log_rethrow label
               (bind (update_request o authenticated sel (with_status s))
                     (fun _ => fetchOrders o)) w in
  fst res = inr tt /\ db (snd res) = db w.
Proof.
  intros Hreq Hsel res.
  pose proof (status_update_run o sel s label w) as H. cbv zeta in H. fold res in H.
  destruct H
    as [(Hok & Horders & Hitems & Hlogs & _)|(e & _ & _ & [Hf|(r & Hin & Hs & _)])].
  - split; [exact Hok|]. apply database_eq; try assumption.
    rewrite Horders. apply map_if_false. exact Hsel.
  - congruence.
  - rewrite (Hsel r Hin) in Hs. discriminate.
Qed.

(** X10 ([updateOrderStatus], [bulkUpdateStatus]).  A status change aimed at
    an order that does not exist is not an error: when the request itself
    goes through, the call reports success and the database is left exactly
    as it was.  The same holds for a bulk change none of whose ids exists,
    the empty batch included. *)
Theorem status_update_of_unknown_order_is_silent (o : Outside) (w : World)
    (s : OrderStatus) :
  update_request_fault o = None ->
  (forall id0,
     existsb (fun r => String.eqb (id r) id0) (orders (db w)) = false ->
     fst (updateOrderStatus o id0 s w) = inr tt
     /\ db (snd (updateOrderStatus o id0 s w)) = db w)
  /\ (forall ids,
        (forall r, In r (orders (db w)) -> ~ In (id r) ids) ->
        fst (bulkUpdateStatus o ids s w) = inr tt
        /\ db (snd (bulkUpdateStatus o ids s w)) = db w).
Proof.
  intros Hreq. split.
  - intros id0 Hnone. unfold updateOrderStatus.
    apply status_update_nothing_selected; [exact Hreq|].
    intros r Hin. destruct (String.eqb (id r) id0) eqn:E; [|reflexivity].
    exfalso. assert (existsb (fun r => String.eqb (id r) id0) (orders (db w)) = true).
    { apply existsb_exists. exists r. split; assumption. }
    congruence.
  - intros ids Hnone. unfold bulkUpdateStatus.
    apply status_update_nothing_selected; [exact Hreq|].
    intros r Hin. destruct (existsb (String.eqb (id r)) ids) eqn:E; [|reflexivity].
    exfalso. apply existsb_exists in E. destruct E as [x [Hx Heq]].
    apply String.eqb_eq in Heq. apply (Hnone r Hin). rewrite Heq. exact Hx.
Qed.

(** No order has the id [id-9]: completing it changes nothing and is not an
    error. *)
Lemma status_update_of_unknown_order_is_silent_witness :
  fst (updateOrderStatus Cases.admin_outside "id-9" completed Cases.admin_world)
  = inr tt
  /\ db (snd (updateOrderStatus Cases.admin_outside "id-9" completed
                Cases.admin_world))
     = db Cases.admin_world.
Proof.
  destruct (status_update_of_unknown_order_is_silent Cases.admin_outside
              Cases.admin_world completed eq_refl) as [H _].
  apply H. reflexivity.
Defined.

Lemma before_update_same_but_status (s : OrderStatus) (r : OrderRow) (now : Z) :
  Maintenance.same_but_status r (before_update r (with_status s r) now).
Proof.
  unfold Maintenance.same_but_status, before_update, update_updated_at_column.
  rewrite set_completed_at_cases. destruct r; reflexivity.
Qed.

Lemma Forall2_map_if {A} (R : A -> A -> Prop) (sel : A -> bool) (f : A -> A)
    (l : list A) :
  (forall x, R x (if sel x then f x else x)) ->
  Forall2 R l (map (fun x => if sel x then f x else x) l).
Proof.
  intros H. induction l as [|x l IH]; simpl; constructor; [apply H|exact IH].
Qed.

Lemma Forall2_refl {A} (R : A -> A -> Prop) (l : list A) :
  (forall x, R x x) -> Forall2 R l l.
Proof. intros H. induction l; constructor; auto. Qed.

Lemma status_update_frame o (sel : OrderRow -> bool) s label w :
  let res := try_log_rethrow label
               (bind (update_request o authenticated sel (with_status s))
                     (fun _ => fetchOrders o)) w in
  order_items (db (snd res)) = order_items (db w)
  /\ rate_limit_logs (db (snd res)) = rate_limit_logs (db w)
  /\ Forall2 (fun r r' => Maintenance.same_but_status r r'
                          /\ (sel r = false -> r' = r))
       (orders (db w)) (orders (db (snd res))).
Proof.
  intros res.
  pose proof (status_update_run o sel s label w) as H. cbv zeta in H. fold res in H.
  destruct H as [(_ & Horders & Hitems & Hlogs & _)|(e & _ & Hdb & _)].
  - split; [exact Hitems|]. split; [exact Hlogs|]. rewrite Horders.
    apply Forall2_map_if. intros r. destruct (sel r).
    + split; [apply before_update_same_but_status|discriminate].
    + split; [reflexivity|reflexivity].
  - rewrite Hdb. split; [reflexivity|]. split; [reflexivity|].
    apply Forall2_refl. intros r. split; reflexivity.
Qed.

(** X11 ([updateOrderStatus], [bulkUpdateStatus], the two triggers).  A
    status change writes three columns at most, [status], [updated_at] and
    [completed_at], and only of the orders it names: every other column of
    those orders, every other order, the order lines and the rate-limit log
    are as before, on success and on failure. *)
Theorem status_update_writes_status_columns_only (o : Outside) (w : World)
    (s : OrderStatus) :
  (forall id0,
     let w' := snd (updateOrderStatus o id0 s w) in
     order_items (db w') = order_items (db w)
     /\ rate_limit_logs (db w') = rate_limit_logs (db w)
     /\ Forall2 (fun r r' => Maintenance.same_but_status r r'
                             /\ (id r <> id0 -> r' = r))
          (orders (db w)) (orders (db w')))
  /\ (forall ids,
        let w' := snd (bulkUpdateStatus o ids s w) in
        order_items (db w') = order_items (db w)
        /\ rate_limit_logs (db w') = rate_limit_logs (db w)
        /\ Forall2 (fun r r' => Maintenance.same_but_status r r'
                                /\ (~ In (id r) ids -> r' = r))
             (orders (db w)) (orders (db w'))).
Proof.
  split.
  - intros id0 w'. subst w'. unfold updateOrderStatus.
    destruct (status_update_frame o (fun r => String.eqb (id r) id0) s
                "Error updating order status:" w) as (Hi & Hl & Hrows).
    split; [exact Hi|]. split; [exact Hl|].
    eapply Forall2_impl; [|exact Hrows]. cbn beta. intros r r' [Hs Hsel].
    split; [exact Hs|]. intros Hne. apply Hsel. apply String.eqb_neq. exact Hne.
  - intros ids w'. subst w'. unfold bulkUpdateStatus.
    destruct (status_update_frame o (fun r => existsb (String.eqb (id r)) ids) s
                "Error bulk updating order status:" w) as (Hi & Hl & Hrows).
    split; [exact Hi|]. split; [exact Hl|].
    eapply Forall2_impl; [|exact Hrows]. cbn beta. intros r r' [Hs Hsel].
    split; [exact Hs|]. intros Hne. apply Hsel.
    destruct (existsb (String.eqb (id r)) ids) eqn:E; [|reflexivity].
    exfalso. apply existsb_exists in E. destruct E as [x [Hx Heq]].
    apply String.eqb_eq in Heq. apply Hne. rewrite Heq. exact Hx.
Qed.

(* ------------------------------------------------------------------------- *)
(** ** [createOrder]: the cooldown, the returned order, the courier *)

(** X12 ([createOrder], [recordAction]).  The cooldown starts only once
    both inserts are through: a submission that is turned away or fails
    before that leaves the limiter's storage as it was, so it can be repeated
    at once; a submission that succeeds has recorded its action.  The one
    failure that leaves a cooldown behind is a failed read-back of the order
    that was just created. *)
Theorem cooldown_starts_with_a_placed_order o cfg cart name contact st pay total
    opts w :
  let res := createOrder o cfg cart name contact st pay total opts w in
  (forall e, fst res = inl e -> fetch_fault o = None ->
             storage (snd res) = storage w)
  /\ (forall order, fst res = inr order ->
        exists ip,
          customer_ip (row order) = ip
          /\ client_session_id (snd res) = Some ip
          /\ storage (snd res)
             = RateLimit.recordAction (storage w) ip RateLimit.order_placement 30
                 (record_now0 o) (record_now o)).
Proof.
  intros res.
  pose proof (createOrder_run o cfg cart name contact st pay total opts w) as H.
  cbv zeta in H. fold res in H.
  destruct H as (ip & _ & _ & Hsess & _ & _ & Hcases).
  destruct Hcases as [(_ & Hres & _ & Hst)
                     |[(_ & [e0 Hres] & _ & Hst)
                      |[(_ & n & r & e0 & _ & _ & _ & Hres & _ & _ & Hst)
                       |(_ & n & r & r' & _ & Hr & _ & _ & _ & _ & Hr' & _ & Hst & Hres)]]].
  - split; [intros; exact Hst|]. intros order Ho. congruence.
  - split; [intros; exact Hst|]. intros order Ho. congruence.
  - split; [intros; exact Hst|]. intros order Ho. congruence.
  - split.
    + intros e He Hf. rewrite Hf in Hres. congruence.
    + intros order Ho. exists ip. split; [|split; assumption].
      rewrite Hres in Ho. destruct (fetch_fault o); [discriminate|].
      injection Ho as <-. unfold formatOrderData. cbn [row].
      destruct Hr' as [-> | [b ->]]; subst r; reflexivity.
Qed.

(** The first order of the day starts the cooldown of its visitor. *)
Lemma cooldown_starts_with_a_placed_order_witness :
  exists ip,
    client_session_id (snd Scenario.first_order) = Some ip
    /\ storage (snd Scenario.first_order)
       = RateLimit.recordAction Scenario.empty_storage ip
           RateLimit.order_placement 30 (Scenario.t0 + 900) (Scenario.t0 + 901).
Proof.
  pose proof (cooldown_starts_with_a_placed_order
                (Scenario.outside Scenario.t0 "id-1" None Scenario.no_booking
                   Scenario.no_fault)
                None Scenario.shake_cart "Ann" "09171234567" dine_in "cash" 240
                None
                (Scenario.world_of (mkDatabase [] [] []) Scenario.empty_storage))
    as H.
  cbv zeta in H. destruct H as [_ H].
  assert (E : exists order, fst Scenario.first_order = inr order).
  { vm_compute. eexists. reflexivity. }
  destruct E as [order E].
  destruct (H order E) as (ip & _ & Hs & Hst).
  exists ip. split; [exact Hs | exact Hst].
Defined.


Lemma item_lines_of_cart r cart uuid now :
  forall k,
    map Frame.item_line
      (with_item_defaults uuid now k (map (order_item_values r) cart))
    = map Frame.cart_line cart.
Proof.
  induction cart as [|c cart IH]; intros k; simpl; [reflexivity|].
  rewrite IH. reflexivity.
Qed.

Lemma filter_all {A} (p : A -> bool) (l : list A) :
  Forall (fun x => p x = true) l -> filter p l = l.
Proof.
  induction 1 as [|x l Hx _ IH]; simpl; [reflexivity|]. rewrite Hx, IH. reflexivity.
Qed.

Lemma filter_none {A} (p : A -> bool) (l : list A) :
  Forall (fun x => p x = false) l -> filter p l = [].
Proof.
  induction 1 as [|x l Hx _ IH]; simpl; [reflexivity|]. rewrite Hx, IH. reflexivity.
Qed.

Lemma no_lines_of_a_new_order d i :
  Maintenance.items_consistent d ->
  existsb (fun x => String.eqb (id x) i) (orders d) = false ->
  filter (fun it => String.eqb (order_id it) i) (order_items d) = [].
Proof.
  intros Hc Hnew. apply filter_none. eapply Forall_impl; [|exact Hc].
  cbn beta. intros it [_ Hfk].
  destruct (String.eqb (order_id it) i) eqn:E; [|reflexivity].
  apply String.eqb_eq in E. rewrite E in Hfk. congruence.
Qed.

(** X13 ([createOrder], [fetchOrderById], [formatOrderData]).  On a database
    whose lines all belong to existing orders, the order a successful
    submission returns says who ordered what: the customer, the contact
    number, the service and the payment method as given, status [pending],
    and the lines of the cart, each cart line once with its name and
    quantity, every quantity positive, every line referring to the order.
    A later lookup by its id returns the same row with the same lines.  The
    lines are compared up to their order, which the embedded select does not
    fix, and nothing is said of the amounts. *)
Theorem created_order_mirrors_submission o cfg cart name contact st pay total
    opts w order :
  Maintenance.items_consistent (db w) ->
  fst (createOrder o cfg cart name contact st pay total opts w) = inr order ->
  let w' := snd (createOrder o cfg cart name contact st pay total opts w) in
  Permutation (map Frame.item_line (items order)) (map Frame.cart_line cart)
  /\ Forall (fun it => order_id it = id (row order) /\ 0 < quantity it) (items order)
  /\ customer_name (row order) = name
  /\ contact_number (row order) = contact
  /\ service_type (row order) = st
  /\ payment_method (row order) = pay
  /\ status (row order) = pending
  /\ In (id (row order)) (map id (orders (db w')))
  /\ (forall o', fetch_fault o' = None ->
        exists order',
          fst (fetchOrderById o' (id (row order)) w') = inr (Some order')
          /\ row order' = row order
          /\ Permutation (items order') (items order)).
Proof.
  intros Hc Hok w'.
  assert (Hc' : Maintenance.items_consistent (db w')).
  { apply (keeps_createOrder Maintenance.items_consistent items_consistent_insert
             items_consistent_items items_consistent_update). exact Hc. }
  pose proof (createOrder_run o cfg cart name contact st pay total opts w) as H.
  cbv zeta in H. fold w' in H. rewrite Hok in H.
  destruct H as (ip & _ & _ & _ & _ & _ & Hcases).
  destruct Hcases as [(_ & Hres & _)
                     |[(_ & [e0 Hres] & _)
                      |[(_ & n & r & e0 & _ & _ & _ & Hres & _)
                       |(_ & n & r & r' & _ & Hr & Hnew & Hid & Horders & Hitems
                           & Hr' & _ & _ & Hres)]]];
    try discriminate.
  destruct (fetch_fault o); [discriminate|].
  injection Hres as Horder.
  assert (Hlines : filter (fun it => String.eqb (order_id it) (id r))
                     (order_items (db w'))
                   = with_item_defaults (item_uuid o) (items_now o) 0
                       (map (order_item_values r) cart)).
  { rewrite Hitems, filter_app.
    rewrite (no_lines_of_a_new_order (db w) (id r) Hc Hnew). cbn [app].
    apply filter_all.
    pose proof (with_item_defaults_order_id (item_uuid o) (items_now o) 0
                  (map (order_item_values r) cart) (id r)
                  (order_item_values_order_id r cart)) as Hall.
    eapply Forall_impl; [|exact Hall]. cbn beta. intros it ->.
    apply String.eqb_refl. }
  assert (Hrow : id (row order) = id r
                 /\ customer_name (row order) = name
                 /\ contact_number (row order) = contact
                 /\ service_type (row order) = st
                 /\ payment_method (row order) = pay
                 /\ status (row order) = pending).
  { rewrite Horder. unfold formatOrderData. cbn [row].
    destruct Hr' as [-> | [b ->]]; subst r; repeat split; reflexivity. }
  destruct Hrow as (Hrid & Hn & Hcn & Hst & Hpm & Hsta).
  assert (Hits : items order
                 = with_item_defaults (item_uuid o) (items_now o) 0
                     (map (order_item_values r) cart)).
  { rewrite Horder. unfold formatOrderData. cbn [items]. exact Hlines. }
  split; [rewrite Hits, item_lines_of_cart; apply Permutation_refl|].
  split.
  { rewrite Hrid. apply Forall_forall. intros it Hit. split.
    - rewrite Hits in Hit.
      pose proof (with_item_defaults_order_id (item_uuid o) (items_now o) 0
                    (map (order_item_values r) cart) (id r)
                    (order_item_values_order_id r cart)) as Hall.
      rewrite Forall_forall in Hall. exact (Hall it Hit).
    - unfold Maintenance.items_consistent in Hc'. rewrite Forall_forall in Hc'.
      apply Hc'. rewrite Hitems. apply in_or_app. right.
      rewrite <- Hits. exact Hit. }
  do 5 (split; [assumption|]).
  split.
  { rewrite Horders, map_app, in_app_iff. right. left. congruence. }
  intros o' Hf.
  unfold fetchOrderById, try_log_rethrow, bind, get_db, or_throw, ret, throw.
  rewrite Hf. cbn [fst snd].
  assert (Hsel : select_order (db w') (id (row order))
                 = inr (r', filter (fun it => String.eqb (order_id it) (id r))
                              (order_items (db w')))).
  { rewrite Hrid, <- Hid.
    replace (db w') with (mkDatabase (orders (db w) ++ [r']) (order_items (db w'))
                            (rate_limit_logs (db w')))
      by (rewrite <- Horders; destruct (db w'); reflexivity).
    rewrite select_order_last; [reflexivity|]. rewrite Hid. exact Hnew. }
  rewrite Hsel. cbn [fst snd]. rewrite <- Horder.
  exists order. split; [reflexivity|]. split; [reflexivity|].
  apply Permutation_refl.
Qed.

(** The first order of the day has the line of the cart, two shakes, and
    reading it by its id gives its row back. *)
Lemma created_order_mirrors_submission_witness :
  exists order,
    fst Scenario.first_order = inr order
    /\ Permutation (map Frame.item_line (items order)) [("Shake", 2)]
    /\ exists order',
         fst (fetchOrderById Cases.admin_outside (id (row order))
                (snd Scenario.first_order)) = inr (Some order')
         /\ row order' = row order.
Proof.
  assert (E : exists order, fst Scenario.first_order = inr order).
  { vm_compute. eexists. reflexivity. }
  destruct E as [order E]. exists order. split; [exact E|].
  pose proof (created_order_mirrors_submission
                (Scenario.outside Scenario.t0 "id-1" None Scenario.no_booking
                   Scenario.no_fault)
                None Scenario.shake_cart "Ann" "09171234567" dine_in "cash" 240
                None
                (Scenario.world_of (mkDatabase [] [] []) Scenario.empty_storage)
                order (Forall_nil _) E) as H.
  cbv zeta in H.
  destruct H as (Hlines & _ & _ & _ & _ & _ & _ & _ & Hread).
  split; [exact Hlines|].
  destruct (Hread Cases.admin_outside eq_refl) as (order' & Hf & Hrow & _).
  exists order'. split; [exact Hf | exact Hrow].
Defined.


(** X14 ([createOrder], the booking step).  The courier is asked only for a
    delivery order that carries a quotation id, and only when the store's
    courier configuration is complete: in every other case the whole run of
    [createOrder], its answer and everything it leaves behind, is the same
    whatever the courier proxy would have answered. *)
Theorem courier_is_asked_for_quoted_deliveries_only o bk cfg cart name contact st
    pay total opts w :
  st <> delivery \/ truthy_string (opt opt_lalamoveQuotationId opts) = None
  \/ cfg = None ->
  createOrder (Frame.with_book bk o) cfg cart name contact st pay total opts w
  = createOrder o cfg cart name contact st pay total opts w.
Proof.
  intros H. destruct o. unfold Frame.with_book. cbn -[createOrder].
  unfold createOrder.
  destruct st; try reflexivity.
  destruct H as [H | [H | H]].
  - congruence.
  - rewrite H. reflexivity.
  - subst cfg. destruct (truthy_string (opt opt_lalamoveQuotationId opts));
      reflexivity.
Qed.

(** A dine-in order goes the same way whatever the courier would answer. *)
Lemma courier_is_asked_for_quoted_deliveries_only_witness :
  createOrder
    (Frame.with_book Cases.courier_accepts
       (Scenario.outside Scenario.t0 "id-1" None Scenario.no_booking
          Scenario.no_fault))
    (Some Scenario.store_config) Scenario.shake_cart "Ann" "09171234567" dine_in
    "cash" 240 Scenario.delivery_options Scenario.empty_world
  = createOrder
      (Scenario.outside Scenario.t0 "id-1" None Scenario.no_booking
         Scenario.no_fault)
      (Some Scenario.store_config) Scenario.shake_cart "Ann" "09171234567"
      dine_in "cash" 240 Scenario.delivery_options Scenario.empty_world.
Proof.
  apply courier_is_asked_for_quoted_deliveries_only. left. discriminate.
Defined.


Lemma booking_success o c name contact opts order q b w :
  truthy_string (opt opt_lalamoveQuotationId opts) = Some q ->
  book o (mkBookingCall q name
            match normalizePhoneNumber contact with
            | Some p => p
            | None => contact
            end c (id order) (opt opt_address opts)
            (opt opt_deliveryLat opts) (opt opt_deliveryLng opts)) = inr b ->
  booking o (Some c) name contact delivery opts order w = (inr (Some b), w).
Proof.
  intros Hq Hb. unfold booking. rewrite Hq. unfold try_log_swallow.
  rewrite Hb. reflexivity.
Qed.

Lemma update_rows_none set fault now rows :
  update_rows (fun _ => false) set fault now rows = inr rows.
Proof.
  induction rows as [|x l IH]; cbn [update_rows]; [reflexivity|].
  rewrite IH. reflexivity.
Qed.

(** X15 ([createOrder], the booking step and the save of its result).  For a
    delivery order with a quotation and a configured store, when both inserts
    are through and the courier proxy answers with a booking, the order is
    handed back, still [pending].  Whether it carries the booking depends on
    the session that checks out, because the booking is written with one
    more update and row level security lets signed-in users only update
    [orders].  In a signed-in session the order carries the courier's order
    id, status and tracking link, unless that update fails.  In a visitor's
    session the update changes no row and reports no error: the order is
    handed back without the booking.  A failed update is only logged.  In
    the last two cases the courier is booked and the order does not say
    so. *)
Theorem booking_is_saved_for_signed_in_sessions o c cart name contact pay total
    opts w q b ip w1 r w2 :
  throttle o w = (inr ip, w1) ->
  persist o cart name contact delivery pay total opts ip w1 = (inr r, w2) ->
  truthy_string (opt opt_lalamoveQuotationId opts) = Some q ->
  book o (mkBookingCall q name
            match normalizePhoneNumber contact with
            | Some p => p
            | None => contact
            end c (id r) (opt opt_address opts)
            (opt opt_deliveryLat opts) (opt opt_deliveryLng opts)) = inr b ->
  fetch_fault o = None ->
  let res := createOrder o (Some c) cart name contact delivery pay total opts w in
  exists order,
    fst res = inr order
    /\ id (row order) = id r
    /\ status (row order) = pending
    /\ ((checkout_role o = authenticated
         /\ update_request_fault o = None /\ update_fault o r = None
         /\ lalamove_order_id (row order) = Some (orderId b)
         /\ lalamove_status (row order) = Some (bookingStatus b)
         /\ lalamove_tracking_url (row order) = Some (shareLink b)
         /\ updated_at (row order) = update_now o)
        \/ (checkout_role o = anon
            /\ update_request_fault o = None
            /\ lalamove_order_id (row order) = None
            /\ lalamove_status (row order) = None
            /\ lalamove_tracking_url (row order) = None
            /\ updated_at (row order) = updated_at r)
        \/ (exists e,
              (update_request_fault o = Some e
               \/ (checkout_role o = authenticated /\ update_fault o r = Some e))
              /\ lalamove_order_id (row order) = None
              /\ lalamove_status (row order) = None
              /\ lalamove_tracking_url (row order) = None
              /\ In (Log "Failed to save Lalamove order info:"
                       (Some (PostgrestError e)))
                    (console (snd res)))).
Proof.
  intros Eg Ep Hq Hbook Hfetch. cbv zeta.
  rewrite createOrder_stages. unfold try_log_rethrow.
  rewrite (bind_inr _ _ _ _ _ Eg). rewrite (bind_inr _ _ _ _ _ Ep).
  pose proof (persist_cases o cart name contact delivery pay total opts ip w1) as Hp.
  cbv zeta in Hp. rewrite Ep in Hp. cbn [fst snd] in Hp.
  destruct Hp as (_ & _ & _ & _ & _ & Hcases).
  destruct Hcases as [(e0 & H & _)|[(n & r0 & e0 & _ & _ & _ & H & _)
                                   |(n & r0 & _ & Hr & Hfresh & [= <-] & Hdb2)]];
    try discriminate H.
  rewrite (bind_inr _ _ _ _ _ (booking_success o c name contact opts r q b w2 Hq Hbook)).
  assert (Hrows : orders (db w2) = (orders (db w1) ++ [r])%list)
    by (rewrite Hdb2; reflexivity).
  assert (Hupd : update_rows (fun x => String.eqb (id x) (id r))
                   (with_lalamove (Some (orderId b)) (Some (bookingStatus b))
                      (Some (shareLink b))) (update_fault o) (update_now o)
                   (orders (db w2))
                 = match update_fault o r with
                   | Some e => inl e
                   | None =>
                       inr (orders (db w1)
                            ++ [before_update r
                                  (with_lalamove (Some (orderId b))
                                     (Some (bookingStatus b)) (Some (shareLink b)) r)
                                  (update_now o)])%list
                   end).
  { rewrite Hrows. clear - Hfresh.
    induction (orders (db w1)) as [|x l IH]; cbn [app update_rows].
    - rewrite String.eqb_refl. destruct (update_fault o r); reflexivity.
    - cbn [existsb] in Hfresh. apply orb_false_iff in Hfresh.
      destruct Hfresh as [Hx Hl]. rewrite Hx. rewrite (IH Hl).
      destruct (update_fault o r); reflexivity. }
  set (r' := before_update r
               (with_lalamove (Some (orderId b)) (Some (bookingStatus b))
                  (Some (shareLink b)) r) (update_now o)).
  fold r' in Hupd.
  assert (Hs : exists w3 rs,
             save_booking o r (Some b) w2 = (inr tt, w3)
             /\ order_items (db w3) = order_items (db w2)
             /\ rate_limit_logs (db w3) = rate_limit_logs (db w2)
             /\ orders (db w3) = (orders (db w1) ++ [rs])%list
             /\ ((rs = r' /\ checkout_role o = authenticated
                  /\ update_request_fault o = None /\ update_fault o r = None)
                 \/ (rs = r /\ checkout_role o = anon
                     /\ update_request_fault o = None)
                 \/ (exists e,
                       rs = r
                       /\ (update_request_fault o = Some e
                           \/ (checkout_role o = authenticated
                               /\ update_fault o r = Some e))
                       /\ In (Log "Failed to save Lalamove order info:"
                                (Some (PostgrestError e))) (console w3)))).
  { unfold save_booking, update_request, bind, get_db, put_db, or_throw, throw, ret.
    cbn [fst snd]. unfold update_orders.
    destruct (update_request_fault o) as [e1|] eqn:Ereq.
    - eexists. exists r. split; [reflexivity|]. cbn [db console].
      do 3 (split; [auto|]). right. right. exists e1. split; [reflexivity|].
      split; [left; reflexivity|]. apply in_or_app. right. left. reflexivity.
    - destruct (checkout_role o) eqn:Erole; cbn [may_update andb].
      + rewrite update_rows_none. eexists. exists r.
        split; [reflexivity|]. cbn [db orders order_items rate_limit_logs].
        do 2 (split; [reflexivity|]). split; [exact Hrows|].
        right. left. auto.
      + change (fun r0 : OrderRow => String.eqb (id r0) (id r))
          with (fun x : OrderRow => String.eqb (id x) (id r)).
        rewrite Hupd.
        destruct (update_fault o r) as [e1|] eqn:Erow.
        * eexists. exists r. split; [reflexivity|]. cbn [db console].
          do 3 (split; [auto|]). right. right. exists e1. split; [reflexivity|].
          split; [right; split; reflexivity|].
          apply in_or_app. right. left. reflexivity.
        * eexists. exists r'. split; [reflexivity|].
          cbn [db orders order_items rate_limit_logs].
          do 3 (split; [reflexivity|]). left. auto. }
  destruct Hs as (w3 & rs & Es & Hitems3 & Hlogs3 & Horders3 & Hcase).
  rewrite (bind_inr _ _ _ _ _ Es).
  destruct (finish_run o ip r w3) as (w5 & Ef & Hdb5 & _ & _ & Hco5).
  rewrite Ef, Hfetch.
  assert (Hidrs : id rs = id r).
  { destruct Hcase as [(-> & _)|[(-> & _)|(e & -> & _)]]; try reflexivity.
    unfold r'. rewrite before_update_id. reflexivity. }
  assert (Hsel : select_order (db w3) (id r)
                 = inr (rs, filter (fun it => String.eqb (order_id it) (id r))
                              (order_items (db w3)))).
  { replace (db w3) with (mkDatabase (orders (db w1) ++ [rs]) (order_items (db w3))
                            (rate_limit_logs (db w3)))
      by (rewrite <- Horders3; destruct (db w3); reflexivity).
    rewrite <- Hidrs. apply select_order_last. rewrite Hidrs. exact Hfresh. }
  rewrite Hsel. cbn [fst snd].
  eexists. split; [reflexivity|]. unfold formatOrderData. cbn [row].
  destruct Hcase as [(-> & Hrole & Hreq & Hrow)
                    |[(-> & Hrole & Hreq)|(e & -> & He & Hlog)]].
  - split; [subst r'; rewrite Hr; reflexivity|].
    split; [subst r'; rewrite Hr; reflexivity|].
    left. split; [exact Hrole|]. split; [exact Hreq|]. split; [exact Hrow|].
    subst r'. rewrite Hr. repeat split; reflexivity.
  - split; [reflexivity|]. split; [rewrite Hr; reflexivity|].
    right. left. split; [exact Hrole|]. split; [exact Hreq|].
    do 3 (split; [rewrite Hr; reflexivity|]). reflexivity.
  - split; [reflexivity|]. split; [rewrite Hr; reflexivity|].
    right. right. exists e. split; [exact He|].
    do 3 (split; [rewrite Hr; reflexivity|]).
    apply Hco5. exact Hlog.
Qed.

(** A quoted delivery that the courier accepts: checked out by a visitor,
    the order is handed out without the courier's order id; checked out in a
    signed-in session, with it. *)
Lemma booking_is_saved_for_signed_in_sessions_witness :
  (exists order,
     fst (createOrder Cases.booked_outside (Some Scenario.store_config)
            Scenario.shake_cart "Ann" "09171234567" delivery "cash" 300
            Scenario.delivery_options Scenario.empty_world) = inr order
     /\ lalamove_order_id (row order) = None
     /\ lalamove_tracking_url (row order) = None)
  /\ (exists order,
        fst (createOrder (Frame.with_role authenticated Cases.booked_outside)
               (Some Scenario.store_config) Scenario.shake_cart "Ann"
               "09171234567" delivery "cash" 300 Scenario.delivery_options
               Scenario.empty_world) = inr order
        /\ lalamove_order_id (row order) = Some "LM-1"
        /\ lalamove_tracking_url (row order)
           = Some "https://share.lalamove.com/LM-1").
Proof.
  assert (Hany : forall role,
            exists order,
              fst (createOrder (Frame.with_role role Cases.booked_outside)
                     (Some Scenario.store_config) Scenario.shake_cart "Ann"
                     "09171234567" delivery "cash" 300 Scenario.delivery_options
                     Scenario.empty_world) = inr order
              /\ lalamove_order_id (row order)
                 = match role with
                   | authenticated => Some "LM-1"
                   | anon => None
                   end
              /\ lalamove_tracking_url (row order)
                 = match role with
                   | authenticated => Some "https://share.lalamove.com/LM-1"
                   | anon => None
                   end).
  { intros role.
    destruct (throttle (Frame.with_role role Cases.booked_outside)
                Scenario.empty_world) as [res1 w1] eqn:E1.
    assert (I1 : exists ip, res1 = inr ip).
    { vm_compute in E1. inversion E1. eexists. reflexivity. }
    destruct I1 as [ip ->].
    destruct (persist (Frame.with_role role Cases.booked_outside)
                Scenario.shake_cart "Ann" "09171234567" delivery "cash" 300
                Scenario.delivery_options ip w1) as [res2 w2] eqn:E2.
    assert (I2 : exists r, res2 = inr r).
    { vm_compute in E1. inversion E1. subst ip w1. vm_compute in E2.
      inversion E2. eexists. reflexivity. }
    destruct I2 as [r ->].
    pose proof (booking_is_saved_for_signed_in_sessions
                  (Frame.with_role role Cases.booked_outside)
                  Scenario.store_config Scenario.shake_cart "Ann" "09171234567"
                  "cash" 300 Scenario.delivery_options Scenario.empty_world "Q-1"
                  (mkDeliveryOrderResult "LM-1" "ASSIGNING_DRIVER"
                     "https://share.lalamove.com/LM-1" None)
                  ip w1 r w2 E1 E2 eq_refl eq_refl eq_refl) as H.
    cbv zeta in H.
    destruct H as (order & Hok & _ & _ & Hcase).
    exists order. split; [exact Hok|].
    destruct Hcase as [(Hrole & _ & _ & Hid & _ & Hurl & _)
                      |[(Hrole & _ & Hid & _ & Hurl & _)
                       |(e & [He|[_ He]] & _)]];
      try discriminate He.
    - cbn in Hrole. subst role. split; [exact Hid | exact Hurl].
    - cbn in Hrole. subst role. split; [exact Hid | exact Hurl]. }
  split.
  - apply (Hany anon).
  - apply (Hany authenticated).
Defined.

(* ------------------------------------------------------------------------- *)
(** ** [normalizePhoneNumber] and the menu item id of a cart line *)

Lemma append_assoc (s t u : string) : (s ++ t) ++ u = s ++ (t ++ u).
Proof. induction s as [|c s IH]; simpl; [reflexivity|]. rewrite IH. reflexivity. Qed.

Lemma string_rev_app (s acc : string) :
  string_rev s acc = string_rev s "" ++ acc.
Proof.
  revert acc. induction s as [|c s IH]; intros acc; simpl; [reflexivity|].
  rewrite (IH (String c acc)), (IH (String c "")).
  rewrite append_assoc. reflexivity.
Qed.

Lemma append_nil_r (s : string) : s ++ "" = s.
Proof. induction s; simpl; congruence. Qed.

Lemma string_rev_append (s t : string) :
  string_rev (s ++ t) "" = string_rev t "" ++ string_rev s "".
Proof.
  induction s as [|c s IH]; simpl.
  - rewrite append_nil_r. reflexivity.
  - rewrite (string_rev_app (s ++ t)), IH, (string_rev_app s (String c "")).
    rewrite append_assoc. reflexivity.
Qed.

Lemma string_rev_involutive (s : string) :
  string_rev (string_rev s "") "" = s.
Proof.
  induction s as [|c s IH]; simpl; [reflexivity|].
  rewrite (string_rev_app s), string_rev_append, IH. reflexivity.
Qed.

Lemma all_chars_append p (s t : string) :
  Frame.all_chars p (s ++ t) = Frame.all_chars p s && Frame.all_chars p t.
Proof.
  induction s as [|c s IH]; simpl; [reflexivity|]. rewrite IH, andb_assoc. reflexivity.
Qed.

Lemma all_chars_rev p (s : string) :
  Frame.all_chars p (string_rev s "") = Frame.all_chars p s.
Proof.
  induction s as [|c s IH]; simpl; [reflexivity|].
  rewrite string_rev_app, all_chars_append, IH. simpl.
  rewrite andb_true_r. apply andb_comm.
Qed.

Lemma all_chars_trim_left p (s : string) :
  Frame.all_chars p s = true -> Frame.all_chars p (trim_left s) = true.
Proof.
  induction s as [|c s IH]; simpl; [reflexivity|]. intros H.
  destruct (is_space c); [|exact H].
  apply andb_true_iff in H. apply IH, H.
Qed.

Lemma all_chars_trim p (s : string) :
  Frame.all_chars p s = true -> Frame.all_chars p (trim s) = true.
Proof.
  intros H. unfold trim. rewrite all_chars_rev. apply all_chars_trim_left.
  rewrite all_chars_rev. apply all_chars_trim_left. exact H.
Qed.

Lemma all_chars_impl (p q : ascii -> bool) (s : string) :
  (forall c, p c = true -> q c = true) ->
  Frame.all_chars p s = true -> Frame.all_chars q s = true.
Proof.
  intros Hpq. induction s as [|c s IH]; simpl; [reflexivity|]. intros H.
  apply andb_true_iff in H. destruct H as [H1 H2].
  rewrite (Hpq c H1), (IH H2). reflexivity.
Qed.

Lemma all_digits_all_chars (s : string) :
  Text.all_digits s = Frame.all_chars Text.is_digit s.
Proof. induction s as [|c s IH]; simpl; congruence. Qed.

Lemma digit_not_space (c : ascii) : Text.is_digit c = true -> is_space c = false.
Proof.
  unfold Text.is_digit, is_space. intros H.
  apply andb_true_iff in H. destruct H as [H1 H2].
  apply Nat.leb_le in H1. apply Nat.leb_le in H2.
  apply orb_false_iff. split.
  - apply andb_false_iff. right. apply Nat.leb_gt. lia.
  - apply Nat.eqb_neq. lia.
Qed.

(** A string that does not begin with white space. *)
Lemma trim_left_fixed (s : string) :
  match s with String c _ => is_space c = false | EmptyString => True end ->
  trim_left s = s.
Proof. destruct s as [|c s]; simpl; [reflexivity|]. intros ->. reflexivity. Qed.

Lemma trim_left_head (s : string) :
  match trim_left s with String c _ => is_space c = false | EmptyString => True end.
Proof.
  induction s as [|c s IH]; simpl; [exact I|].
  destruct (is_space c) eqn:E; [exact IH|exact E].
Qed.

Lemma trim_left_suffix (s : string) : exists pre, s = pre ++ trim_left s.
Proof.
  induction s as [|c s [pre IH]]; simpl.
  - exists "". reflexivity.
  - destruct (is_space c).
    + exists (String c pre). simpl. rewrite <- IH. reflexivity.
    + exists "". reflexivity.
Qed.

Lemma head_of_append (s t : string) :
  match s ++ t with String c _ => is_space c = false | EmptyString => True end ->
  match s with String c _ => is_space c = false | EmptyString => True end.
Proof. destruct s; simpl; auto. Qed.

Lemma trim_fixed (s : string) :
  match s with String c _ => is_space c = false | EmptyString => True end ->
  match string_rev s "" with String c _ => is_space c = false | EmptyString => True end ->
  trim s = s.
Proof.
  intros H1 H2. unfold trim. rewrite (trim_left_fixed s H1).
  rewrite (trim_left_fixed _ H2). apply string_rev_involutive.
Qed.

Lemma trim_idempotent (s : string) : trim (trim s) = trim s.
Proof.
  apply trim_fixed.
  - unfold trim.
    destruct (trim_left_suffix (string_rev (trim_left s) "")) as [pre Hpre].
    pose proof (trim_left_head s) as Hhead.
    rewrite <- (string_rev_involutive (trim_left s)) in Hhead.
    remember (string_rev (trim_left s) "") as X eqn:EX. clear EX.
    remember (trim_left X) as Y eqn:EY. clear EY.
    rewrite Hpre, string_rev_append in Hhead.
    exact (head_of_append _ _ Hhead).
  - unfold trim. rewrite string_rev_involutive. apply trim_left_head.
Qed.

Lemma no_space_head (s : string) :
  Frame.all_chars (fun c => negb (is_space c)) s = true ->
  match s with String c _ => is_space c = false | EmptyString => True end.
Proof.
  destruct s as [|c s]; simpl; [auto|]. intros H.
  apply andb_true_iff in H. destruct H as [H _].
  apply negb_true_iff in H. exact H.
Qed.

Lemma trim_no_space (s : string) :
  Frame.all_chars (fun c => negb (is_space c)) s = true -> trim s = s.
Proof.
  intros H. apply trim_fixed; apply no_space_head; [exact H|].
  rewrite all_chars_rev. exact H.
Qed.

Lemma digits_no_space (s : string) :
  Text.all_digits s = true ->
  Frame.all_chars (fun c => negb (is_space c)) s = true.
Proof.
  rewrite all_digits_all_chars. apply all_chars_impl.
  intros c Hc. rewrite (digit_not_space c Hc). reflexivity.
Qed.

Lemma only_digits_all (s : string) : Text.all_digits (only_digits s) = true.
Proof.
  induction s as [|c s IH]; simpl; [reflexivity|].
  destruct (Text.is_digit c) eqn:E; simpl; [rewrite E, IH; reflexivity|exact IH].
Qed.

Lemma only_digits_fixed (s : string) :
  Text.all_digits s = true -> only_digits s = s.
Proof.
  induction s as [|c s IH]; simpl; [reflexivity|]. intros H.
  apply andb_true_iff in H. destruct H as [H1 H2]. rewrite H1, (IH H2). reflexivity.
Qed.

Lemma only_digits_append (s t : string) :
  only_digits (s ++ t) = only_digits s ++ only_digits t.
Proof.
  induction s as [|c s IH]; simpl; [reflexivity|].
  destruct (Text.is_digit c); simpl; rewrite IH; reflexivity.
Qed.

Lemma only_digits_rev (s : string) :
  only_digits (string_rev s "") = string_rev (only_digits s) "".
Proof.
  induction s as [|c s IH]; simpl; [reflexivity|].
  rewrite string_rev_app, only_digits_append, IH. simpl.
  destruct (Text.is_digit c); simpl.
  - rewrite (string_rev_app (only_digits s) (String c "")). reflexivity.
  - apply append_nil_r.
Qed.

Lemma only_digits_trim_left (s : string) :
  only_digits (trim_left s) = only_digits s.
Proof.
  induction s as [|c s IH]; simpl; [reflexivity|].
  destruct (is_space c) eqn:E; [|reflexivity].
  destruct (Text.is_digit c) eqn:D; [|exact IH].
  rewrite (digit_not_space c D) in E. discriminate.
Qed.

Lemma only_digits_trim (s : string) : only_digits (trim s) = only_digits s.
Proof.
  unfold trim. rewrite only_digits_rev, only_digits_trim_left, only_digits_rev,
    string_rev_involutive. apply only_digits_trim_left.
Qed.

Lemma plus_digits_fixed (d : string) :
  Text.all_digits d = true -> trim ("+" ++ d) = "+" ++ d.
Proof.
  intros H. apply trim_no_space. simpl. apply digits_no_space. exact H.
Qed.

Lemma substring_all (s : string) : substring 0 (String.length s) s = s.
Proof. induction s as [|c s IH]; simpl; [reflexivity|]. rewrite IH. reflexivity. Qed.

Lemma all_digits_tail (s : string) :
  Text.all_digits s = true ->
  Text.all_digits (substring 1 (String.length s - 1) s) = true.
Proof.
  destruct s as [|c s]; simpl; [reflexivity|]. intros H.
  apply andb_true_iff in H. destruct H as [_ H].
  rewrite Nat.sub_0_r, substring_all. exact H.
Qed.

Lemma prefix_plus (s : string) : prefix "+" (String "+"%char s) = true.
Proof. simpl. destruct s; reflexivity. Qed.

(** X16 ([normalizePhoneNumber]).  Whatever is typed, a normalised number
    begins with a plus sign, has no white space at either end, and is left
    as it is when it is normalised again. *)
Theorem normalizePhoneNumber_is_idempotent (phone q : string) :
  normalizePhoneNumber phone = Some q ->
  prefix "+" q = true /\ trim q = q /\ normalizePhoneNumber q = Some q.
Proof.
  intros H.
  assert (Hq : prefix "+" q = true /\ trim q = q).
  { unfold normalizePhoneNumber in H.
    destruct (String.eqb phone ""); [discriminate|].
    destruct (String.eqb (trim phone) ""); [discriminate|].
    destruct (prefix "+" (trim phone)) eqn:Eplus.
    { injection H as <-. split; [exact Eplus|apply trim_idempotent]. }
    pose proof (only_digits_all (trim phone)) as Hd.
    destruct (String.eqb (only_digits (trim phone)) ""); [discriminate|].
    destruct (prefix "63" (only_digits (trim phone))
              || prefix "0" (only_digits (trim phone))
              || prefix "9" (only_digits (trim phone))).
    - destruct (prefix "63" (only_digits (trim phone))).
      { injection H as <-. split; [apply prefix_plus|apply plus_digits_fixed; exact Hd]. }
      destruct (prefix "0" (only_digits (trim phone))).
      + injection H as <-. split; [apply prefix_plus|].
        apply (plus_digits_fixed ("63" ++ _)). simpl. apply all_digits_tail. exact Hd.
      + injection H as <-. split; [apply prefix_plus|].
        apply (plus_digits_fixed ("63" ++ _)). exact Hd.
    - injection H as <-. split; [apply prefix_plus|apply plus_digits_fixed; exact Hd]. }
  destruct Hq as [Hplus Htrim]. split; [exact Hplus|]. split; [exact Htrim|].
  unfold normalizePhoneNumber. rewrite Htrim.
  destruct q as [|c q]; [discriminate|]. cbn [String.eqb]. rewrite Hplus. reflexivity.
Qed.

(** A local mobile number is normalised once and for all. *)
Lemma normalizePhoneNumber_is_idempotent_witness :
  normalizePhoneNumber " 0917-123 4567" = Some "+639171234567"
  /\ normalizePhoneNumber "+639171234567" = Some "+639171234567".
Proof.
  split; [reflexivity|].
  apply (normalizePhoneNumber_is_idempotent " 0917-123 4567" "+639171234567").
  reflexivity.
Defined.


Lemma prefix_char (a c : ascii) (s : string) :
  prefix (String a "") (String c s) = Ascii.eqb a c.
Proof.
  cbn [prefix]. destruct (ascii_dec a c) as [->|Hne].
  - rewrite Ascii.eqb_refl. destruct s; reflexivity.
  - apply Ascii.eqb_neq in Hne. rewrite Hne. reflexivity.
Qed.

Lemma no_plus_prefix (s : string) :
  Frame.no_plus s = true -> prefix "+" s = false.
Proof.
  destruct s as [|c s]; [reflexivity|]. unfold Frame.no_plus. cbn [Frame.all_chars].
  intros H. apply andb_true_iff in H. destruct H as [H _]. apply negb_true_iff in H.
  rewrite prefix_char, Ascii.eqb_sym. exact H.
Qed.

Lemma normalizePhoneNumber_no_plus (phone : string) :
  Frame.no_plus phone = true ->
  normalizePhoneNumber phone
  = let digits := only_digits phone in
    if String.eqb digits "" then None
    else if prefix "63" digits then Some ("+" ++ digits)
    else if prefix "0" digits
    then Some ("+63" ++ substring 1 (String.length digits - 1) digits)
    else if prefix "9" digits then Some ("+63" ++ digits)
    else Some ("+" ++ digits).
Proof.
  intros H. cbv zeta. unfold normalizePhoneNumber.
  rewrite only_digits_trim.
  rewrite (no_plus_prefix (trim phone) (all_chars_trim _ _ H)).
  destruct (String.eqb phone "") eqn:E0.
  { apply String.eqb_eq in E0. subst phone. reflexivity. }
  destruct (String.eqb (trim phone) "") eqn:E1.
  { apply String.eqb_eq in E1.
    pose proof (only_digits_trim phone) as Ht. rewrite E1 in Ht. simpl in Ht.
    rewrite <- Ht. reflexivity. }
  destruct (String.eqb (only_digits phone) ""); [reflexivity|].
  destruct (prefix "63" (only_digits phone)); [reflexivity|].
  destruct (prefix "0" (only_digits phone)); [reflexivity|].
  destruct (prefix "9" (only_digits phone)); reflexivity.
Qed.

Lemma digits_no_plus (d : string) :
  Text.all_digits d = true -> Frame.no_plus d = true.
Proof.
  rewrite all_digits_all_chars. apply all_chars_impl. intros c Hc.
  apply negb_true_iff. apply Ascii.eqb_neq. intros ->. discriminate.
Qed.

Lemma prefix_nil (s : string) : prefix "" s = true.
Proof. destruct s; reflexivity. Qed.

(** X17 ([normalizePhoneNumber]).  Of a number typed without a plus sign
    only the digits count: spaces, hyphens and brackets make no difference.
    The three ways a Philippine number is written, with the country code 63,
    with the trunk 0, or bare from the 9 on, give the same international
    number. *)
Theorem normalizePhoneNumber_reads_the_digits :
  (forall phone phone',
     Frame.no_plus phone = true -> Frame.no_plus phone' = true ->
     only_digits phone = only_digits phone' ->
     normalizePhoneNumber phone = normalizePhoneNumber phone')
  /\ (forall d,
        Text.all_digits d = true ->
        normalizePhoneNumber ("63" ++ d) = Some ("+63" ++ d)
        /\ normalizePhoneNumber ("0" ++ d) = Some ("+63" ++ d)
        /\ (prefix "9" d = true -> normalizePhoneNumber d = Some ("+63" ++ d))).
Proof.
  split.
  - intros phone phone' H H' Hd.
    rewrite (normalizePhoneNumber_no_plus phone H),
      (normalizePhoneNumber_no_plus phone' H'), Hd. reflexivity.
  - intros d Hd.
    assert (H63 : Text.all_digits ("63" ++ d) = true) by exact Hd.
    assert (H0 : Text.all_digits ("0" ++ d) = true) by exact Hd.
    split; [|split].
    + rewrite (normalizePhoneNumber_no_plus _ (digits_no_plus _ H63)).
      cbv zeta. rewrite (only_digits_fixed _ H63). simpl.
      rewrite prefix_nil. reflexivity.
    + rewrite (normalizePhoneNumber_no_plus _ (digits_no_plus _ H0)).
      cbv zeta. rewrite (only_digits_fixed _ H0). simpl.
      rewrite prefix_nil, Nat.sub_0_r, substring_all. reflexivity.
    + intros H9. rewrite (normalizePhoneNumber_no_plus _ (digits_no_plus _ Hd)).
      cbv zeta. rewrite (only_digits_fixed _ Hd), H9.
      destruct d as [|c d]; [discriminate|]. cbn [String.eqb].
      rewrite prefix_char in H9. apply Ascii.eqb_eq in H9. subst c.
      reflexivity.
Qed.

(** Two spellings of one number. *)
Lemma normalizePhoneNumber_reads_the_digits_witness :
  normalizePhoneNumber "0917-123-4567" = normalizePhoneNumber "(0917) 123 4567"
  /\ normalizePhoneNumber "9171234567" = Some "+639171234567".
Proof.
  destruct normalizePhoneNumber_reads_the_digits as [Hsame Hforms].
  split.
  - apply Hsame; reflexivity.
  - destruct (Hforms "9171234567" eq_refl) as (_ & _ & H). apply H. reflexivity.
Defined.

Lemma hex_run_append (n : nat) :
  forall s s' rest,
    hex_run n s = Some s' -> hex_run n (s ++ rest) = Some (s' ++ rest).
Proof.
  induction n as [|n IH]; intros s s' rest; simpl.
  - intros [= <-]. reflexivity.
  - destruct s as [|c s]; [discriminate|]. simpl.
    destruct (is_hex c); [apply IH|discriminate].
Qed.

Lemma hyphen_append (s s' rest : string) :
  hyphen s = Some s' -> hyphen (s ++ rest) = Some (s' ++ rest).
Proof.
  destruct s as [|c s]; [discriminate|]. simpl.
  destruct c as [[] [] [] [] [] [] [] []]; try discriminate.
  intros [= <-]. reflexivity.
Qed.

Lemma hex_run_length (n : nat) :
  forall s s', hex_run n s = Some s' ->
               String.length s = (n + String.length s')%nat.
Proof.
  induction n as [|n IH]; intros s s'; simpl.
  - intros [= <-]. reflexivity.
  - destruct s as [|c s]; [discriminate|].
    destruct (is_hex c); [|discriminate]. intros H. simpl. rewrite (IH _ _ H).
    reflexivity.
Qed.

Lemma hyphen_length (s s' : string) :
  hyphen s = Some s' -> String.length s = S (String.length s').
Proof.
  destruct s as [|c s]; [discriminate|]. simpl.
  destruct c as [[] [] [] [] [] [] [] []]; try discriminate.
  intros [= <-]. reflexivity.
Qed.

Lemma substring_0_append (n : nat) :
  forall s t, (n <= String.length s)%nat ->
              substring 0 n (s ++ t) = substring 0 n s.
Proof.
  induction n as [|n IH]; intros s t H.
  - destruct s, t; reflexivity.
  - destruct s as [|c s]; simpl in *; [lia|]. rewrite IH by lia. reflexivity.
Qed.

Lemma substring_0_idem (n : nat) :
  forall s, substring 0 n (substring 0 n s) = substring 0 n s.
Proof.
  induction n as [|n IH]; intros s.
  - destruct s; reflexivity.
  - destruct s as [|c s]; simpl; [reflexivity|]. rewrite IH. reflexivity.
Qed.

Lemma substring_0_prefix (n : nat) :
  forall s, prefix (substring 0 n s) s = true.
Proof.
  induction n as [|n IH]; intros s.
  - destruct s; reflexivity.
  - destruct s as [|c s]; simpl; [reflexivity|].
    destruct (ascii_dec c c); [apply IH|congruence].
Qed.

Lemma uuid_match_length (s m : string) :
  uuid_match s = Some m ->
  m = substring 0 36 s /\ (36 <= String.length s)%nat.
Proof.
  unfold uuid_match, and_then. intros H.
  destruct (hex_run 8 s) as [s1|] eqn:E1; [|discriminate].
  destruct (hyphen s1) as [s2|] eqn:E2; [|discriminate].
  destruct (hex_run 4 s2) as [s3|] eqn:E3; [|discriminate].
  destruct (hyphen s3) as [s4|] eqn:E4; [|discriminate].
  destruct (hex_run 4 s4) as [s5|] eqn:E5; [|discriminate].
  destruct (hyphen s5) as [s6|] eqn:E6; [|discriminate].
  destruct (hex_run 4 s6) as [s7|] eqn:E7; [|discriminate].
  destruct (hyphen s7) as [s8|] eqn:E8; [|discriminate].
  destruct (hex_run 12 s8) as [s9|] eqn:E9; [|discriminate].
  injection H as <-. split; [reflexivity|].
  apply hex_run_length in E1, E3, E5, E7, E9.
  apply hyphen_length in E2, E4, E6, E8. lia.
Qed.

Lemma uuid_match_append (s m rest : string) :
  uuid_match s = Some m -> uuid_match (s ++ rest) = Some m.
Proof.
  intros H. destruct (uuid_match_length s m H) as [Hm Hlen].
  unfold uuid_match, and_then in *.
  destruct (hex_run 8 s) as [s1|] eqn:E1; [|discriminate].
  destruct (hyphen s1) as [s2|] eqn:E2; [|discriminate].
  destruct (hex_run 4 s2) as [s3|] eqn:E3; [|discriminate].
  destruct (hyphen s3) as [s4|] eqn:E4; [|discriminate].
  destruct (hex_run 4 s4) as [s5|] eqn:E5; [|discriminate].
  destruct (hyphen s5) as [s6|] eqn:E6; [|discriminate].
  destruct (hex_run 4 s6) as [s7|] eqn:E7; [|discriminate].
  destruct (hyphen s7) as [s8|] eqn:E8; [|discriminate].
  destruct (hex_run 12 s8) as [s9|] eqn:E9; [|discriminate].
  rewrite (hex_run_append _ _ _ rest E1), (hyphen_append _ _ rest E2),
    (hex_run_append _ _ _ rest E3), (hyphen_append _ _ rest E4),
    (hex_run_append _ _ _ rest E5), (hyphen_append _ _ rest E6),
    (hex_run_append _ _ _ rest E7), (hyphen_append _ _ rest E8),
    (hex_run_append _ _ _ rest E9).
  rewrite substring_0_append by exact Hlen. rewrite Hm. reflexivity.
Qed.

Lemma hex_run_substring (n : nat) :
  forall k s s',
    hex_run n s = Some s' ->
    hex_run n (substring 0 (n + k) s) = Some (substring 0 k s').
Proof.
  induction n as [|n IH]; intros k s s'; simpl.
  - intros [= <-]. reflexivity.
  - destruct s as [|c s]; [discriminate|].
    destruct (is_hex c) eqn:E; [|discriminate]. intros H. simpl. rewrite E.
    apply IH. exact H.
Qed.

Lemma hyphen_substring (k : nat) (s s' : string) :
  hyphen s = Some s' -> hyphen (substring 0 (S k) s) = Some (substring 0 k s').
Proof.
  destruct s as [|c s]; [discriminate|]. simpl.
  destruct c as [[] [] [] [] [] [] [] []]; try discriminate.
  intros [= <-]. reflexivity.
Qed.

Lemma uuid_match_leading (s : string) :
  uuid_match s = Some (substring 0 36 s) ->
  uuid_match (substring 0 36 s) = Some (substring 0 36 s).
Proof.
  unfold uuid_match, and_then.
  destruct (hex_run 8 s) as [s1|] eqn:E1; [|discriminate].
  destruct (hyphen s1) as [s2|] eqn:E2; [|discriminate].
  destruct (hex_run 4 s2) as [s3|] eqn:E3; [|discriminate].
  destruct (hyphen s3) as [s4|] eqn:E4; [|discriminate].
  destruct (hex_run 4 s4) as [s5|] eqn:E5; [|discriminate].
  destruct (hyphen s5) as [s6|] eqn:E6; [|discriminate].
  destruct (hex_run 4 s6) as [s7|] eqn:E7; [|discriminate].
  destruct (hyphen s7) as [s8|] eqn:E8; [|discriminate].
  destruct (hex_run 12 s8) as [s9|] eqn:E9; [|discriminate].
  intros _.
  rewrite (hex_run_substring 8 28 _ _ E1
           : hex_run 8 (substring 0 36 s) = _).
  rewrite (hyphen_substring 27 _ _ E2).
  rewrite (hex_run_substring 4 23 _ _ E3
           : hex_run 4 (substring 0 27 s2) = _).
  rewrite (hyphen_substring 22 _ _ E4).
  rewrite (hex_run_substring 4 18 _ _ E5
           : hex_run 4 (substring 0 22 s4) = _).
  rewrite (hyphen_substring 17 _ _ E6).
  rewrite (hex_run_substring 4 13 _ _ E7
           : hex_run 4 (substring 0 17 s6) = _).
  rewrite (hyphen_substring 12 _ _ E8).
  rewrite (hex_run_substring 12 0 _ _ E9
           : hex_run 12 (substring 0 12 s8) = _).
  rewrite substring_0_idem. reflexivity.
Qed.

(** X18 ([createOrder], the menu item id of a line).  A cart line whose id
    is a menu item's UUID followed by anything (the variation and add-on
    suffix) is stored with exactly that UUID as [menu_item_id].  Conversely,
    a stored [menu_item_id] is always the first 36 characters of the cart
    line's id and has the UUID shape itself; a cart id that does not begin
    with a UUID is stored with no menu item. *)
Theorem menu_item_id_is_the_leading_uuid (order : OrderRow) (item : CartItem) :
  (forall u rest,
     uuid_match u = Some u -> cart_id item = u ++ rest ->
     menu_item_id (order_item_values order item) = Some u)
  /\ (forall m,
        menu_item_id (order_item_values order item) = Some m ->
        String.length m = 36%nat
        /\ prefix m (cart_id item) = true
        /\ uuid_match m = Some m)
  /\ (uuid_match (cart_id item) = None ->
      menu_item_id (order_item_values order item) = None).
Proof.
  unfold order_item_values. cbn [menu_item_id].
  split; [|split].
  - intros u rest Hu Hid. rewrite Hid.
    destruct (uuid_match_length u u Hu) as [_ Hlen].
    destruct (String.eqb (u ++ rest) "") eqn:E.
    + apply String.eqb_eq in E. destruct u; simpl in *; [lia|discriminate].
    + apply uuid_match_append. exact Hu.
  - intros m Hm.
    destruct (String.eqb (cart_id item) ""); [discriminate|].
    destruct (uuid_match_length _ _ Hm) as [-> Hlen].
    split; [apply substring_0_length; exact Hlen|].
    split; [apply substring_0_prefix|].
    apply uuid_match_leading. exact Hm.
  - intros H. rewrite H. destruct (String.eqb (cart_id item) ""); reflexivity.
Qed.

(** The cart line of the shake carries the id of its menu item. *)
Lemma menu_item_id_is_the_leading_uuid_witness :
  menu_item_id
    (order_item_values
       (Scenario.plain_order "id-1" "ORD-20250902-0001" pending None)
       (mkCartItem "41d67da1-f4ba-4b92-bfee-429d1be59e3f-265399d1-none" "Shake"
          2 120 None None))
  = Some "41d67da1-f4ba-4b92-bfee-429d1be59e3f".
Proof.
  destruct (menu_item_id_is_the_leading_uuid
              (Scenario.plain_order "id-1" "ORD-20250902-0001" pending None)
              (mkCartItem "41d67da1-f4ba-4b92-bfee-429d1be59e3f-265399d1-none"
                 "Shake" 2 120 None None)) as [H _].
  apply (H "41d67da1-f4ba-4b92-bfee-429d1be59e3f" "-265399d1-none");
    reflexivity.
Defined.

(* ------------------------------------------------------------------------- *)
(** ** [fetchOrders]: the list the hook shows *)

Section SortedByKey.

Context {A : Type}.
Variable key : A -> Z.

Lemma insert_sorted_desc (x : A) (l : list A) :
  StronglySorted (fun x y => key y <= key x) l ->
  StronglySorted (fun x y => key y <= key x)
    (Js.insert_sorted (fun a b => key b - key a) x l).
Proof.
  induction 1 as [|y l Hl IH Hy]; simpl.
  - constructor; constructor.
  - destruct (key y - key x <=? 0) eqn:E.
    + apply Z.leb_le in E. constructor.
      * constructor; assumption.
      * constructor; [lia|]. eapply Forall_impl; [|exact Hy].
        cbn beta. intros z Hz. lia.
    + apply Z.leb_gt in E. constructor; [exact IH|].
      apply Forall_forall. intros z Hz. apply insert_sorted_In in Hz.
      destruct Hz as [->|Hz]; [lia|].
      rewrite Forall_forall in Hy. apply Hy. exact Hz.
Qed.

Lemma sort_desc_sorted (l : list A) :
  StronglySorted (fun x y => key y <= key x)
    (Js.sort (fun a b => key b - key a) l).
Proof.
  induction l as [|x l IH]; simpl; [constructor|].
  apply insert_sorted_desc. exact IH.
Qed.

Lemma insert_sorted_perm (cmp : A -> A -> Z) (x : A) (l : list A) :
  Permutation (Js.insert_sorted cmp x l) (x :: l).
Proof.
  induction l as [|y l IH]; simpl; [reflexivity|].
  destruct (cmp x y <=? 0); [reflexivity|].
  rewrite IH. apply perm_swap.
Qed.

Lemma sort_perm (cmp : A -> A -> Z) (l : list A) : Permutation (Js.sort cmp l) l.
Proof.
  induction l as [|x l IH]; simpl; [reflexivity|].
  rewrite insert_sorted_perm. constructor. exact IH.
Qed.

End SortedByKey.

Lemma StronglySorted_map {A B} (f : A -> B) (R : B -> B -> Prop) (l : list A) :
  StronglySorted (fun x y => R (f x) (f y)) l -> StronglySorted R (map f l).
Proof.
  induction 1 as [|x l Hl IH Hx]; simpl; constructor; [exact IH|].
  apply Forall_map. exact Hx.
Qed.

(** X19 ([fetchOrders]).  Reading the list never throws and never writes to
    the database.  When the read goes through, the hook shows every order
    once, the most recently created first, each with exactly the lines that
    carry its id, and the error is cleared; when it fails, the list shown
    before stays and an error is set. *)
Theorem fetchOrders_lists_newest_first (o : Outside) (w : World) :
  let w' := snd (fetchOrders o w) in
  fst (fetchOrders o w) = inr tt
  /\ db w' = db w
  /\ (list_fault o = None ->
      hook_error w' = None
      /\ Permutation (map (fun x => id (row x)) (hook_orders w'))
           (map id (orders (db w)))
      /\ StronglySorted (fun x y => created_at (row y) <= created_at (row x))
           (hook_orders w')
      /\ Forall (fun x =>
                   items x
                   = filter (fun it => String.eqb (order_id it) (id (row x)))
                       (order_items (db w)))
           (hook_orders w'))
  /\ (list_fault o <> None ->
      hook_orders w' = hook_orders w /\ hook_error w' <> None).
Proof.
  unfold fetchOrders. destruct (list_fault o) as [e|]; cbn.
  - repeat split; try reflexivity; try congruence.
  - split; [reflexivity|]. split; [reflexivity|]. split; [|congruence].
    intros _. split; [reflexivity|]. split; [|split].
    + rewrite map_map. cbn.
      apply Permutation_map. apply sort_perm.
    + apply StronglySorted_map. cbn.
      apply (sort_desc_sorted created_at).
    + apply Forall_map. apply Forall_forall. intros r _. reflexivity.
Qed.

(* ------------------------------------------------------------------------- *)
(** ** [generate_order_number] past the 9999th number of a day *)

Lemma string_of_uint_revapp (d acc : Decimal.uint) :
  NilEmpty.string_of_uint (Decimal.revapp d acc)
  = NilEmpty.string_of_uint (Decimal.rev d) ++ NilEmpty.string_of_uint acc.
Proof.
  unfold Decimal.rev. revert acc.
  induction d; intros acc; simpl; try reflexivity;
    rewrite IHd; symmetry; rewrite IHd; rewrite append_assoc; reflexivity.
Qed.

Lemma string_of_uint_nilzero (d : Decimal.uint) :
  d <> Decimal.Nil -> NilZero.string_of_uint d = NilEmpty.string_of_uint d.
Proof. destruct d; simpl; congruence. Qed.

(** The decimal text of [10 * q + r] is the text of [q] followed by the
    digit [r]. *)
Lemma to_little_uint_digit (q : positive) (r : Z) :
  0 <= r <= 9 ->
  DecimalPos.Unsigned.to_lu (Z.to_N (10 * Z.pos q + r))
  = match r with
    | 0 => Decimal.D0 | 1 => Decimal.D1 | 2 => Decimal.D2 | 3 => Decimal.D3
    | 4 => Decimal.D4 | 5 => Decimal.D5 | 6 => Decimal.D6 | 7 => Decimal.D7
    | 8 => Decimal.D8 | _ => Decimal.D9
    end (Pos.to_little_uint q).
Proof.
  intros Hr.
  assert (H10 : DecimalPos.Unsigned.to_lu (10 * N.pos q)
                = Decimal.D0 (Pos.to_little_uint q))
    by apply DecimalPos.Unsigned.to_ldec_tenfold.
  assert (Hcases : r = 0 \/ r = 1 \/ r = 2 \/ r = 3 \/ r = 4 \/ r = 5 \/ r = 6
                   \/ r = 7 \/ r = 8 \/ r = 9) by lia.
  destruct Hcases as [->|[->|[->|[->|[->|[->|[->|[->|[->| ->]]]]]]]]].
  - replace (Z.to_N (10 * Z.pos q + 0)) with (10 * N.pos q)%N by lia. exact H10.
  - replace (Z.to_N (10 * Z.pos q + 1)) with (N.succ (10 * N.pos q))%N by lia.
    rewrite DecimalPos.Unsigned.to_lu_succ, H10. reflexivity.
  - replace (Z.to_N (10 * Z.pos q + 2))
      with (N.succ (N.succ (10 * N.pos q)))%N by lia.
    rewrite !DecimalPos.Unsigned.to_lu_succ, H10. reflexivity.
  - replace (Z.to_N (10 * Z.pos q + 3))
      with (N.succ (N.succ (N.succ (10 * N.pos q))))%N by lia.
    rewrite !DecimalPos.Unsigned.to_lu_succ, H10. reflexivity.
  - replace (Z.to_N (10 * Z.pos q + 4))
      with (N.succ (N.succ (N.succ (N.succ (10 * N.pos q)))))%N by lia.
    rewrite !DecimalPos.Unsigned.to_lu_succ, H10. reflexivity.
  - replace (Z.to_N (10 * Z.pos q + 5))
      with (N.succ (N.succ (N.succ (N.succ (N.succ (10 * N.pos q))))))%N by lia.
    rewrite !DecimalPos.Unsigned.to_lu_succ, H10. reflexivity.
  - replace (Z.to_N (10 * Z.pos q + 6))
      with (N.succ (N.succ (N.succ (N.succ (N.succ (N.succ (10 * N.pos q)))))))%N
      by lia.
    rewrite !DecimalPos.Unsigned.to_lu_succ, H10. reflexivity.
  - replace (Z.to_N (10 * Z.pos q + 7))
      with (N.succ (N.succ (N.succ (N.succ (N.succ (N.succ (N.succ
             (10 * N.pos q))))))))%N by lia.
    rewrite !DecimalPos.Unsigned.to_lu_succ, H10. reflexivity.
  - replace (Z.to_N (10 * Z.pos q + 8))
      with (N.succ (N.succ (N.succ (N.succ (N.succ (N.succ (N.succ (N.succ
             (10 * N.pos q)))))))))%N by lia.
    rewrite !DecimalPos.Unsigned.to_lu_succ, H10. reflexivity.
  - replace (Z.to_N (10 * Z.pos q + 9))
      with (N.succ (N.succ (N.succ (N.succ (N.succ (N.succ (N.succ (N.succ
             (N.succ (10 * N.pos q))))))))))%N by lia.
    rewrite !DecimalPos.Unsigned.to_lu_succ, H10. reflexivity.
Qed.

Lemma of_Z_pos (p : positive) :
  Text.of_Z (Z.pos p) = NilEmpty.string_of_uint (Decimal.rev (Pos.to_little_uint p)).
Proof.
  unfold Text.of_Z. cbn [Z.to_int NilZero.string_of_int].
  rewrite string_of_uint_nilzero by apply DecimalPos.Unsigned.to_uint_nonnil.
  reflexivity.
Qed.

Lemma of_Z_tenfold (q r : Z) :
  0 < q -> 0 <= r <= 9 ->
  exists digit : ascii,
    Text.of_Z (10 * q + r) = Text.of_Z q ++ String digit "".
Proof.
  intros Hq Hr. destruct q as [|q|q]; try lia.
  pose proof (to_little_uint_digit q r Hr) as Hlu.
  destruct (Z.to_N (10 * Z.pos q + r)) as [|p] eqn:Ep; [lia|].
  assert (Hz : 10 * Z.pos q + r = Z.pos p) by lia.
  rewrite Hz, !of_Z_pos. cbn [DecimalPos.Unsigned.to_lu] in Hlu. rewrite Hlu.
  assert (Hcases : r = 0 \/ r = 1 \/ r = 2 \/ r = 3 \/ r = 4 \/ r = 5 \/ r = 6
                   \/ r = 7 \/ r = 8 \/ r = 9) by lia.
  clear - Hcases. unfold Decimal.rev at 1.
  destruct Hcases as [->|[->|[->|[->|[->|[->|[->|[->|[->| ->]]]]]]]]];
    cbn [Decimal.revapp]; rewrite string_of_uint_revapp; eexists; reflexivity.
Qed.


Lemma of_Z_nonempty (z : Z) : (1 <= String.length (Text.of_Z z))%nat.
Proof.
  unfold Text.of_Z. destruct z as [|p|p]; cbn [Z.to_int NilZero.string_of_int].
  - simpl. lia.
  - rewrite string_of_uint_nilzero by apply DecimalPos.Unsigned.to_uint_nonnil.
    pose proof (DecimalPos.Unsigned.to_uint_nonnil p) as H.
    destruct (Pos.to_uint p); simpl; try lia. congruence.
  - simpl. lia.
Qed.

Lemma of_Z_length_ge (k : nat) :
  forall z, 10 ^ Z.of_nat k <= z -> (k + 1 <= String.length (Text.of_Z z))%nat.
Proof.
  induction k as [|k IH]; intros z Hz.
  - apply of_Z_nonempty.
  - rewrite Nat2Z.inj_succ, Z.pow_succ_r in Hz by lia.
    assert (Hq : 10 ^ Z.of_nat k <= z / 10).
    { apply Z.div_le_lower_bound; lia. }
    assert (Hpos : 0 < 10 ^ Z.of_nat k) by (apply Z.pow_pos_nonneg; lia).
    destruct (of_Z_tenfold (z / 10) (z mod 10)) as [digit Hd].
    { lia. }
    { pose proof (Z.mod_pos_bound z 10). lia. }
    rewrite <- Z.div_mod in Hd by lia.
    rewrite Hd, append_length. simpl. specialize (IH _ Hq). lia.
Qed.

Lemma lpad4_tenth (z : Z) :
  10000 <= z ->
  Text.lpad (Text.of_Z z) 4 "0"%char = Text.lpad (Text.of_Z (z / 10)) 4 "0"%char.
Proof.
  intros Hz.
  assert (Hq : 10 ^ Z.of_nat 3 <= z / 10).
  { apply Z.div_le_lower_bound; [lia|]. change (10 ^ Z.of_nat 3) with 1000. lia. }
  pose proof (of_Z_length_ge 3 _ Hq) as Hlen.
  destruct (of_Z_tenfold (z / 10) (z mod 10)) as [digit Hd].
  { change (10 ^ Z.of_nat 3) with 1000 in Hq. lia. }
  { pose proof (Z.mod_pos_bound z 10). lia. }
  rewrite <- Z.div_mod in Hd by lia.
  unfold Text.lpad. rewrite Hd, append_length.
  replace (4 <=? String.length (Text.of_Z (z / 10)) + String.length (String digit ""))%nat
    with true by (symmetry; apply Nat.leb_le; lia).
  replace (4 <=? String.length (Text.of_Z (z / 10)))%nat
    with true by (symmetry; apply Nat.leb_le; lia).
  apply substring_0_append. lia.
Qed.

Lemma lpad4_alias (z : Z) :
  10000 <= z ->
  exists s, 1000 <= s <= 9999
            /\ Text.lpad (Text.of_Z z) 4 "0"%char = Text.lpad (Text.of_Z s) 4 "0"%char.
Proof.
  intros Hz. assert (H0 : 0 <= z) by lia. revert Hz.
  pattern z. apply Zlt_0_ind; [|exact H0]. clear z H0.
  intros z IH Hz'. intros Hz.
  destruct (Z_lt_le_dec (z / 10) 10000) as [Hsmall|Hbig].
  - exists (z / 10). split.
    + split; [apply Z.div_le_lower_bound; lia|lia].
    + apply lpad4_tenth. exact Hz.
  - destruct (IH (z / 10)) as [s [Hs Heq]].
    + split; [lia|]. apply Z.div_lt; lia.
    + exact Hbig.
    + exists s. split; [exact Hs|]. rewrite lpad4_tenth by exact Hz. exact Heq.
Qed.


Lemma format_order_number_alias (today : Calendar.Date) (seq : Z) :
  10000 <= seq ->
  exists s, 1000 <= s <= 9999
            /\ format_order_number today seq = format_order_number today s.
Proof.
  intros H. destruct (lpad4_alias seq H) as [s [Hs Heq]].
  exists s. split; [exact Hs|]. unfold format_order_number. rewrite Heq. reflexivity.
Qed.

(** X20 ([generate_order_number]).  The numbering of a day holds 9999
    numbers.  [LPAD] cuts a longer sequence number down to its first four
    digits, so the number made for a sequence number of 10000 or more is the
    number of some sequence number between 1000 and 9999.  Hence, on a day
    that has 9999 orders or more and on which the numbers 1000 to 9999 are
    all in use, the function never returns a number: the loop runs until the
    counter leaves the integer range, and the call ends in [integer out of
    range]. *)
Theorem a_day_holds_9999_order_numbers :
  (forall today seq,
     10000 <= seq ->
     exists s, 1000 <= s <= 9999
               /\ format_order_number today seq = format_order_number today s)
  /\ (forall os now,
        let today := Calendar.DATE now in
        9999 <= count_today os today ->
        (forall s, 1000 <= s <= 9999 ->
                   number_exists os (format_order_number today s) = true) ->
        (forall fuel n, generate_order_number fuel os now <> Some (inr n))
        /\ (exists fuel,
              generate_order_number fuel os now = Some (inl integer_out_of_range))).
Proof.
  split; [exact format_order_number_alias|].
  intros os now today Hcount Hfull.
  assert (Htaken : forall s, 10000 <= s ->
                     number_exists os (format_order_number today s) = true).
  { intros s Hs. destruct (format_order_number_alias today s Hs) as [s' [Hs' ->]].
    apply Hfull. exact Hs'. }
  unfold generate_order_number. fold today.
  set (c := count_today os today) in *.
  destruct (Z_le_gt_dec c int4_max) as [Hc|Hc].
  2:{ rewrite (int4_inl c) by lia. split; [intros; discriminate|].
      exists O. reflexivity. }
  rewrite (int4_inr c) by (unfold int4_min; lia).
  destruct (Z_le_gt_dec (c + 1) int4_max) as [Hc1|Hc1].
  2:{ rewrite (int4_inl (c + 1)) by lia. split; [intros; discriminate|].
      exists O. reflexivity. }
  rewrite (int4_inr (c + 1)) by (unfold int4_min; lia).
  assert (Hnever : forall fuel n,
             uniqueness_loop fuel os today c (format_order_number today (c + 1))
             <> Some (inr n)).
  { intros fuel n H.
    pose proof (uniqueness_loop_result os today fuel c (inr n)
                  ltac:(lia) Hc1 H) as Hr.
    cbv beta iota in Hr. destruct Hr as (k & Hk & _ & _ & Hfree & _).
    rewrite Htaken in Hfree by lia. discriminate. }
  split; [exact Hnever|].
  exists (Z.to_nat (int4_max - c)).
  pose proof (uniqueness_loop_terminates os today (Z.to_nat (int4_max - c)) c
                ltac:(lia) Hc1 ltac:(lia)) as Hterm.
  destruct (uniqueness_loop (Z.to_nat (int4_max - c)) os today c
              (format_order_number today (c + 1))) as [[e|n]|] eqn:E.
  - pose proof (uniqueness_loop_result os today _ c (inl e) ltac:(lia) Hc1 E) as Hr.
    cbv beta iota in Hr. destruct Hr as [-> _]. reflexivity.
  - exfalso. exact (Hnever _ _ E).
  - congruence.
Qed.

Lemma full_day_count :
  count_today Cases.full_day (Calendar.DATE (Scenario.t0 * 1000)) = 9999.
Proof.
  unfold count_today, Cases.full_day.
  rewrite filter_all.
  - rewrite length_map, length_seq. lia.
  - apply Forall_forall. intros r Hr. apply in_map_iff in Hr.
    destruct Hr as (k & <- & _). reflexivity.
Qed.

Lemma full_day_numbers (s : Z) :
  1 <= s <= 9999 ->
  number_exists Cases.full_day
    (format_order_number (Calendar.DATE (Scenario.t0 * 1000)) s) = true.
Proof.
  intros Hs. unfold number_exists. apply existsb_exists.
  exists (Scenario.plain_order ("id-" ++ Text.of_Z s)
            (format_order_number (Calendar.DATE (Scenario.t0 * 1000)) s)
            pending None).
  split; [|apply String.eqb_refl].
  unfold Cases.full_day. apply in_map_iff. exists (Z.to_nat s).
  rewrite Z2Nat.id by lia. split; [reflexivity|].
  apply in_seq. lia.
Qed.

(** On a day whose 9999 numbers are taken the next call fails. *)
Lemma a_day_holds_9999_order_numbers_witness :
  count_today Cases.full_day (Calendar.DATE (Scenario.t0 * 1000)) = 9999
  /\ exists fuel,
       generate_order_number fuel Cases.full_day (Scenario.t0 * 1000)
       = Some (inl integer_out_of_range).
Proof.
  split; [exact full_day_count|].
  destruct a_day_holds_9999_order_numbers as [_ H].
  destruct (H Cases.full_day (Scenario.t0 * 1000)) as [_ Hfuel].
  - rewrite full_day_count. lia.
  - intros s Hs. apply full_day_numbers. lia.
  - exact Hfuel.
Defined.

(* ------------------------------------------------------------------------- *)
(** ** [getOrderStats] *)

Lemma three_statuses_length (os : list OrderRow) :
  (List.length (filter (fun o => OrderStatus_eqb (status o) pending) os)
   + List.length (filter (fun o => OrderStatus_eqb (status o) completed) os)
   + List.length (filter (fun o => OrderStatus_eqb (status o) cancelled) os)
   <= List.length os)%nat.
Proof.
  induction os as [|o os IH]; simpl; [lia|].
  destruct (status o); simpl; lia.
Qed.

Lemma fold_total_nonneg (rows : list OrderRow) :
  Forall (fun o => 0 <= total o) rows ->
  forall acc, 0 <= acc -> 0 <= fold_left (fun sum order => sum + total order) rows acc.
Proof.
  induction 1 as [|o rows Ho _ IH]; intros acc Hacc; simpl; [exact Hacc|].
  apply IH. lia.
Qed.

(** X21 ([getOrderStats]).  Reading the dashboard figures never throws and
    changes nothing.  When the six queries all answer, and no other session
    writes to [orders] between them, the figures fit together: the pending,
    completed and cancelled orders together are at most all orders, today's
    orders are at most all orders, and the revenue of a day is not negative
    when no total is.  A query that fails is not reported: its figure is
    shown as 0. *)
Theorem getOrderStats_figures_fit (so : Stats.StatsOutside) (w : World) :
  exists stats,
    Stats.getOrderStats so w = (inr stats, w)
    /\ ((forall k, Stats.query_fails so k = false) ->
        Stats.total_orders stats = Z.of_nat (List.length (orders (db w)))
        /\ 0 <= Stats.pending_orders stats
        /\ 0 <= Stats.completed_orders stats
        /\ 0 <= Stats.cancelled_orders stats
        /\ Stats.pending_orders stats + Stats.completed_orders stats
           + Stats.cancelled_orders stats <= Stats.total_orders stats
        /\ 0 <= Stats.today_orders stats <= Stats.total_orders stats
        /\ (Forall (fun o => 0 <= total o) (orders (db w)) ->
            0 <= Stats.today_revenue stats))
    /\ (Stats.query_fails so 0 = true -> Stats.total_orders stats = 0)
    /\ (Stats.query_fails so 1 = true -> Stats.pending_orders stats = 0)
    /\ (Stats.query_fails so 2 = true -> Stats.today_orders stats = 0)
    /\ (Stats.query_fails so 3 = true -> Stats.today_revenue stats = 0)
    /\ (Stats.query_fails so 4 = true -> Stats.completed_orders stats = 0)
    /\ (Stats.query_fails so 5 = true -> Stats.cancelled_orders stats = 0).
Proof.
  eexists. split; [reflexivity|]. cbn [Stats.total_orders Stats.pending_orders
    Stats.today_orders Stats.today_revenue Stats.completed_orders
    Stats.cancelled_orders fst snd].
  split.
  - intros Hok. rewrite !Hok. unfold Stats.count, Stats.or_zero.
    pose proof (three_statuses_length (orders (db w))) as H3.
    split.
    { f_equal. f_equal. apply filter_all. apply Forall_forall. reflexivity. }
    replace (filter (fun _ : OrderRow => true) (orders (db w))) with (orders (db w))
      by (symmetry; apply filter_all; apply Forall_forall; reflexivity).
    split; [lia|]. split; [lia|]. split; [lia|]. split; [lia|].
    split.
    { split; [lia|]. apply inj_le. apply filter_length_le. }
    intros Hnn. apply fold_total_nonneg; [|lia].
    apply Forall_forall. intros o Ho. apply filter_In in Ho.
    rewrite Forall_forall in Hnn. apply Hnn. apply Ho.
  - repeat split; intros ->; reflexivity.
Qed.

(* ------------------------------------------------------------------------- *)
(** ** The courier proxy: its address, [handleOrder], and the browser's request *)

Lemma drop_trailing_slash_added (b : string) :
  Delivery.drop_trailing_slash (b ++ "/") = b.
Proof.
  induction b as [|c b IH]; [reflexivity|].
  cbn [append]. cbn [Delivery.drop_trailing_slash].
  destruct (b ++ "/") eqn:E.
  - destruct b; discriminate.
  - rewrite IH. reflexivity.
Qed.

Lemma drop_trailing_slash_kept (b : string) :
  prefix "/" (string_rev b "") = false -> Delivery.drop_trailing_slash b = b.
Proof.
  induction b as [|c b IH]; [reflexivity|]. intros H.
  cbn [Delivery.drop_trailing_slash]. destruct b as [|c' b'].
  - cbn [string_rev] in H. rewrite prefix_char in H. rewrite Ascii.eqb_sym, H.
    reflexivity.
  - f_equal. apply IH.
    cbn [string_rev] in H |- *. rewrite string_rev_app in H |- *.
    rewrite (string_rev_app b') in H. rewrite (string_rev_app b').
    remember (string_rev b' "") as r eqn:Er. clear Er.
    destruct r as [|x r]; cbn [append] in *; rewrite prefix_char in *; exact H.
Qed.

Lemma prefix_plus_like (c : ascii) (s : string) :
  prefix (String c "") (String c s) = true.
Proof. rewrite prefix_char. apply Ascii.eqb_refl. Qed.

(** X22 ([requireProxy], [buildFunctionUrl]).  However the proxy's base
    address and the path are written, with or without the slash between
    them, the address that is built has exactly one: the four spellings give
    the same address.  Without a base address, absent or empty, nothing is
    built and an error is thrown. *)
Theorem buildFunctionUrl_joins_with_one_slash (base path : string) :
  (forall e, Delivery.buildFunctionUrl None path <> inr e)
  /\ (forall e, Delivery.buildFunctionUrl (Some "") path <> inr e)
  /\ (prefix "/" path = false ->
      Delivery.buildFunctionUrl (Some (base ++ "/")) path
      = inr (base ++ "/" ++ path)
      /\ Delivery.buildFunctionUrl (Some (base ++ "/")) ("/" ++ path)
         = inr (base ++ "/" ++ path)
      /\ (base <> "" -> prefix "/" (string_rev base "") = false ->
          Delivery.buildFunctionUrl (Some base) path = inr (base ++ "/" ++ path)
          /\ Delivery.buildFunctionUrl (Some base) ("/" ++ path)
             = inr (base ++ "/" ++ path))).
Proof.
  split; [discriminate|]. split; [discriminate|]. intros Hp.
  assert (Hslash : prefix "/" ("/" ++ path) = true) by apply (prefix_plus_like "/").
  assert (Hne : forall b, String.eqb (b ++ "/") "" = false).
  { intros b. destruct b; reflexivity. }
  unfold Delivery.buildFunctionUrl, Delivery.requireProxy, truthy_string.
  rewrite Hne, Hp, Hslash, drop_trailing_slash_added.
  split; [reflexivity|]. split; [reflexivity|].
  intros Hb Hend. destruct (String.eqb base "") eqn:E.
  - apply String.eqb_eq in E. contradiction.
  - rewrite (drop_trailing_slash_kept base Hend). split; reflexivity.
Qed.

(** A base address with and without its final slash. *)
Lemma buildFunctionUrl_joins_with_one_slash_witness :
  Delivery.buildFunctionUrl (Some "https://cafe.example/functions/v1/") "/order"
  = inr "https://cafe.example/functions/v1/order"
  /\ Delivery.buildFunctionUrl (Some "https://cafe.example/functions/v1") "order"
     = inr "https://cafe.example/functions/v1/order".
Proof.
  destruct (buildFunctionUrl_joins_with_one_slash
              "https://cafe.example/functions/v1" "order") as (_ & _ & H).
  destruct (H eq_refl) as (_ & Hslash & Hbare).
  split; [exact Hslash|].
  apply Hbare; [discriminate | reflexivity].
Defined.


Lemma makeLalamoveRequest_request KEY SECRET (w : Proxy.Wire) method path body market
    sandbox :
  let r := fst (Proxy.makeLalamoveRequest KEY SECRET w method path body market sandbox) in
  Proxy.url r = Proxy.quoteBaseUrl sandbox ++ path
  /\ Proxy.method r = method
  /\ Proxy.header "X-LLM-Market" (Proxy.headers r) = Some market
  /\ (exists signature,
        Proxy.header "Authorization" (Proxy.headers r)
        = Some ("hmac " ++ KEY ++ ":" ++ signature)
        /\ String.length signature = 44%nat)
  /\ snd (Proxy.makeLalamoveRequest KEY SECRET w method path body market sandbox)
     = match Proxy.fetch w r with
       | inl rejection => inl rejection
       | inr response =>
           if Proxy.ok response then inr (Proxy.json response)
           else inl (if String.eqb (Proxy.text response) ""
                     then "Lalamove API request failed"
                     else Proxy.text response)
       end.
Proof.
  cbv zeta. unfold Proxy.makeLalamoveRequest. cbn [fst snd].
  unfold Proxy.lalamove_request. cbn [Proxy.url Proxy.method Proxy.headers].
  split; [reflexivity|]. split; [reflexivity|]. split; [reflexivity|].
  split; [|reflexivity].
  eexists. split; [reflexivity|].
  unfold Proxy.signRequest. cbn [Proxy.signature].
  apply base64_length_32. apply hmac_sha256_length.
Qed.


Lemma handleOrder_cases KEY SECRET (wires : nat -> Proxy.Wire) (p : Proxy.Json) :
  p <> Proxy.JNull ->
  Edge.lacks Edge.ORDER_REQUIRED p = false ->
  let market := Edge.text_of (Edge.member p "market") in
  let sandbox := Edge.to_Boolean (Edge.member p "sandbox") in
  let quotation :=
    Edge.request KEY SECRET wires 0 "GET"
      ("/quotations/" ++ Edge.text_of (Edge.member p "quotationId")) None market
      sandbox in
  exists rest out,
    Edge.handleOrder KEY SECRET wires (Some p) = (fst quotation :: rest, out)
    /\ (forall a, out = Edge.Answered a -> Edge.status a = 200)
    /\ ((rest = [] /\ forall a, out <> Edge.Answered a)
        \/ exists q,
             snd quotation = inr (Some q) /\ q <> Proxy.JNull
             /\ rest = [fst (Edge.request KEY SECRET wires 1 "POST" "/orders"
                               (Some (Edge.order_body p q)) market sandbox)]).
Proof.
  intros Hp Hlacks. cbv zeta. unfold Edge.handleOrder. rewrite Hlacks. cbv zeta.
  destruct (Edge.request KEY SECRET wires 0 "GET"
              ("/quotations/" ++ Edge.text_of (Edge.member p "quotationId")) None
              (Edge.text_of (Edge.member p "market"))
              (Edge.to_Boolean (Edge.member p "sandbox"))) as [get r1].
  cbn [fst snd].
  assert (Hshape :
    forall X : list Proxy.HttpRequest * Edge.Outcome,
      match p with
      | Proxy.JNull => (@nil Proxy.HttpRequest, Edge.Threw None)
      | _ => X
      end = X) by (intros X; destruct p; congruence).
  rewrite Hshape. clear Hshape.
  destruct r1 as [m|[q|]]; try (exists [], (Edge.Threw (Some m)); split;
    [reflexivity|split; [discriminate|left; split; [reflexivity|discriminate]]]).
  2:{ exists [], (Edge.Threw None). split; [reflexivity|].
      split; [discriminate|left; split; [reflexivity|discriminate]]. }
  destruct (Edge.request KEY SECRET wires 1 "POST" "/orders"
              (Some (Edge.order_body p q))
              (Edge.text_of (Edge.member p "market"))
              (Edge.to_Boolean (Edge.member p "sandbox"))) as [post r2] eqn:Epost.
  assert (Hq : q = Proxy.JNull \/ q <> Proxy.JNull).
  { destruct q; try (right; discriminate). left; reflexivity. }
  destruct Hq as [-> | Hq].
  { exists [], (Edge.Threw None). split; [reflexivity|].
    split; [discriminate|left; split; [reflexivity|discriminate]]. }
  assert (Hout : exists out,
            match q with
            | Proxy.JNull => ([get], Edge.Threw None)
            | _ =>
                match snd (post, r2) with
                | inl message => ([get; fst (post, r2)], Edge.Threw (Some message))
                | inr None => ([get; fst (post, r2)], Edge.Threw None)
                | inr (Some Proxy.JNull) => ([get; fst (post, r2)], Edge.Threw None)
                | inr (Some o) =>
                    ([get; fst (post, r2)], Edge.Answered (Edge.booked o))
                end
            end = ([get; post], out)
            /\ (forall a, out = Edge.Answered a -> Edge.status a = 200)).
  { cbn [fst snd]. destruct q; try congruence;
      destruct r2 as [m|[[]|]]; eexists; (split; [reflexivity|]);
      try discriminate; intros a [= <-]; reflexivity. }
  destruct Hout as (out & -> & Hout).
  exists [post], out. split; [reflexivity|]. split; [exact Hout|].
  right. exists q. split; [reflexivity|]. split; [exact Hq|].
  rewrite Epost. reflexivity.
Qed.

(** X23 ([handleOrder]).  The proxy books in two steps and in this order:
    it first fetches the quotation, and only when the courier answered that
    request with a success and a body other than null does it place the
    order.  A payload that lacks one of the seven required members is
    answered with 400 and nothing is sent to the courier; a 200 is answered
    only after both requests were sent.  Every request that is sent goes to
    the host the payload's [sandbox] selects, names the payload's market and
    carries an [hmac] authorization with a 44-character signature. *)
Theorem handleOrder_books_after_the_quotation (KEY SECRET : string)
    (wires : nat -> Proxy.Wire) (payload : option Proxy.Json) :
  let run := Edge.handleOrder KEY SECRET wires payload in
  let sent := fst run in
  (forall p, payload = Some p -> p <> Proxy.JNull ->
             Edge.lacks Edge.ORDER_REQUIRED p = true ->
             sent = []
             /\ exists a, snd run = Edge.Answered a /\ Edge.status a = 400)
  /\ (forall a, snd run = Edge.Answered a -> Edge.status a = 200 ->
                List.length sent = 2%nat)
  /\ (forall p, payload = Some p ->
        let host := Proxy.quoteBaseUrl (Edge.to_Boolean (Edge.member p "sandbox")) in
        (sent = []
         \/ (exists get, sent = [get])
         \/ (exists get post response,
               sent = [get; post]
               /\ Proxy.method post = "POST"
               /\ Proxy.url post = host ++ "/orders"
               /\ Proxy.fetch (wires 0%nat) get = inr response
               /\ Proxy.ok response = true
               /\ Proxy.json response <> None
               /\ Proxy.json response <> Some Proxy.JNull))
        /\ (forall get rest, sent = get :: rest ->
              Proxy.method get = "GET"
              /\ Proxy.url get
                 = host ++ "/quotations/"
                     ++ Edge.text_of (Edge.member p "quotationId")
              /\ Proxy.body get = None)
        /\ (forall r, In r sent ->
              Proxy.header "X-LLM-Market" (Proxy.headers r)
              = Some (Edge.text_of (Edge.member p "market"))
              /\ exists signature,
                   Proxy.header "Authorization" (Proxy.headers r)
                   = Some ("hmac " ++ KEY ++ ":" ++ signature)
                   /\ String.length signature = 44%nat)).
Proof.
  cbv zeta.
  destruct payload as [p|].
  2:{ split; [intros; discriminate|]. split; [intros; discriminate|].
      intros; discriminate. }
  assert (Hp : p = Proxy.JNull \/ p <> Proxy.JNull).
  { destruct p; try (right; discriminate). left; reflexivity. }
  destruct Hp as [-> | Hp].
  { cbn [Edge.handleOrder fst snd]. split; [intros p' [= <-] Hne; congruence|].
    split; [intros; discriminate|].
    intros p' [= <-]. split; [left; reflexivity|].
    split; [intros; discriminate|]. intros r []. }
  destruct (Edge.lacks Edge.ORDER_REQUIRED p) eqn:Elacks.
  { assert (Hrun : Edge.handleOrder KEY SECRET wires (Some p)
                   = ([], Edge.Answered Edge.missing_fields)).
    { unfold Edge.handleOrder. rewrite Elacks. destruct p; congruence. }
    rewrite Hrun. cbn [fst snd]. split.
    - intros p' _ _ _. split; [reflexivity|]. eexists. split; reflexivity.
    - split; [intros a [= <-]; cbn; discriminate|].
      intros p' [= <-]. split; [left; reflexivity|].
      split; [intros; discriminate|]. intros r []. }
  split; [intros p' [= <-] _ H; congruence|].
  destruct (handleOrder_cases KEY SECRET wires p Hp Elacks)
    as (rest & out & Hrun & Hout & Hrest).
  rewrite Hrun. cbn [fst snd]. clear Hrun.
  pose proof (makeLalamoveRequest_request KEY SECRET (wires 0%nat) "GET"
                ("/quotations/" ++ Edge.text_of (Edge.member p "quotationId")) None
                (Edge.text_of (Edge.member p "market"))
                (Edge.to_Boolean (Edge.member p "sandbox"))) as Hget.
  cbv zeta in Hget.
  change (Proxy.makeLalamoveRequest KEY SECRET (wires 0%nat))
    with (Edge.request KEY SECRET wires 0) in Hget.
  assert (Hb1 : Proxy.body
                  (fst (Edge.request KEY SECRET wires 0 "GET"
                          ("/quotations/" ++ Edge.text_of (Edge.member p "quotationId"))
                          None (Edge.text_of (Edge.member p "market"))
                          (Edge.to_Boolean (Edge.member p "sandbox")))) = None)
    by reflexivity.
  destruct (Edge.request KEY SECRET wires 0 "GET"
              ("/quotations/" ++ Edge.text_of (Edge.member p "quotationId")) None
              (Edge.text_of (Edge.member p "market"))
              (Edge.to_Boolean (Edge.member p "sandbox"))) as [get r1].
  cbn [fst snd] in *. destruct Hget as (Hu1 & Hm1 & Hk1 & Hs1 & Hr1).
  destruct Hrest as [[-> Hnot] | (q & -> & Hq & ->)].
  - split.
    + intros a Ha. destruct (Hnot a Ha).
    + intros p' [= <-]. split; [right; left; eexists; reflexivity|]. split.
      * intros g rest [= <- <-]. auto.
      * intros r [<-|[]]. split; assumption.
  - pose proof (makeLalamoveRequest_request KEY SECRET (wires 1%nat) "POST" "/orders"
                  (Some (Edge.order_body p q))
                  (Edge.text_of (Edge.member p "market"))
                  (Edge.to_Boolean (Edge.member p "sandbox"))) as Hpost.
    cbv zeta in Hpost.
    change (Proxy.makeLalamoveRequest KEY SECRET (wires 1%nat))
      with (Edge.request KEY SECRET wires 1) in Hpost.
    destruct (Edge.request KEY SECRET wires 1 "POST" "/orders"
                (Some (Edge.order_body p q))
                (Edge.text_of (Edge.member p "market"))
                (Edge.to_Boolean (Edge.member p "sandbox"))) as [post r2].
    cbn [fst snd] in *. destruct Hpost as (Hu2 & Hm2 & Hk2 & Hs2 & _).
    split; [intros; reflexivity|].
    intros p' [= <-]. split.
    + right; right.
      destruct (Proxy.fetch (wires 0%nat) get) as [rej|resp] eqn:Efetch;
        [discriminate|].
      destruct (Proxy.ok resp) eqn:Eok; [|discriminate].
      injection Hr1 as Hjson.
      exists get, post, resp.
      split; [reflexivity|]. split; [exact Hm2|]. split; [exact Hu2|].
      split; [exact Efetch|]. split; [exact Eok|].
      rewrite <- Hjson. split; [discriminate|]. congruence.
    + split.
      * intros g rest [= <- <-]. auto.
      * intros r [<-|[<-|[]]]; split; assumption.
Qed.

(** A payload without a quotation id is answered with 400 and nothing is
    sent to the courier. *)
Lemma handleOrder_books_after_the_quotation_witness :
  fst (Edge.handleOrder "pk_test" "sk_test" (fun _ => Scenario.wire)
         (Some (Proxy.JObject [("market", Proxy.JString "PH")]))) = []
  /\ exists a,
       snd (Edge.handleOrder "pk_test" "sk_test" (fun _ => Scenario.wire)
              (Some (Proxy.JObject [("market", Proxy.JString "PH")])))
       = Edge.Answered a
       /\ Edge.status a = 400.
Proof.
  pose proof (handleOrder_books_after_the_quotation "pk_test" "sk_test"
                (fun _ => Scenario.wire)
                (Some (Proxy.JObject [("market", Proxy.JString "PH")]))) as H.
  cbv zeta in H. destruct H as [H _].
  apply (H (Proxy.JObject [("market", Proxy.JString "PH")]) eq_refl);
    [discriminate | reflexivity].
Defined.


Lemma field_order_payload q name phone config md :
  let fs := Delivery.order_payload q name phone config md in
  Edge.field "quotationId" fs = Some (Proxy.JString q)
  /\ Edge.field "recipientName" fs = Some (Proxy.JString name)
  /\ Edge.field "recipientPhone" fs = Some (Proxy.JString phone)
  /\ Edge.field "market" fs = Some (Proxy.JString (market config))
  /\ Edge.field "sandbox" fs = Some (Proxy.JBool (sandbox config))
  /\ Edge.field "storeName" fs = Some (Proxy.JString (storeName config))
  /\ Edge.field "storePhone" fs = Some (Proxy.JString (storePhone config))
  /\ Edge.field "metadata" fs = md.
Proof.
  cbv zeta. unfold Delivery.order_payload. repeat split; try reflexivity.
  destruct md; reflexivity.
Qed.

(** X24 ([createDeliveryOrder] and [handleOrder] together).  What the
    browser serialises for a booking is a payload the proxy accepts: the
    seven required members are there, so the answer is never the 400 for
    missing fields, and there is nothing the proxy would read that the
    browser leaves undefined.  The proxy then asks the courier for the
    quotation the browser named, on the host and for the market of the
    store's configuration, and the booking it places names the store as
    sender and the customer, with the phone number the browser passed, as
    recipient. *)
Theorem browser_bookings_fit_the_proxy (KEY SECRET : string)
    (wires : nat -> Proxy.Wire) (q name phone : string)
    (config : DeliveryStoreConfig) (md : option Proxy.Json) :
  let payload := Proxy.JObject (Delivery.order_payload q name phone config md) in
  let run := Edge.handleOrder KEY SECRET wires (Some payload) in
  Edge.lacks Edge.ORDER_REQUIRED payload = false
  /\ (forall a, snd run = Edge.Answered a -> Edge.status a = 200)
  /\ (exists get rest,
        fst run = get :: rest
        /\ Proxy.method get = "GET"
        /\ Proxy.url get = Proxy.quoteBaseUrl (sandbox config) ++ "/quotations/" ++ q
        /\ Proxy.header "X-LLM-Market" (Proxy.headers get) = Some (market config))
  /\ (forall quotation,
        Edge.order_body payload quotation
        = [("data",
            Proxy.JObject
              [("quotationId", Proxy.JString q);
               ("sender",
                Proxy.JObject
                  [("stopId",
                    Edge.or_else (Edge.stop_id quotation 0) (Proxy.JString ""));
                   ("name", Proxy.JString (storeName config));
                   ("phone", Proxy.JString (storePhone config))]);
               ("recipients",
                Proxy.JArray
                  [Proxy.JObject
                     [("stopId",
                       Edge.or_else (Edge.stop_id quotation 1) (Proxy.JString ""));
                      ("name", Proxy.JString name);
                      ("phone", Proxy.JString phone);
                      ("remarks", Proxy.JString "")]]);
               ("isPODEnabled", Proxy.JBool true);
               ("metadata", Edge.or_else md (Proxy.JObject []))])]).
Proof.
  cbv zeta.
  pose proof (field_order_payload q name phone config md) as Hf. cbv zeta in Hf.
  destruct Hf as (Fq & Fn & Fp & Fm & Fs & Fsn & Fsp & Fmd).
  assert (Hlacks : Edge.lacks Edge.ORDER_REQUIRED
                     (Proxy.JObject (Delivery.order_payload q name phone config md))
                   = false).
  { unfold Edge.lacks, Edge.ORDER_REQUIRED, Edge.member. cbn [existsb].
    rewrite Fq, Fn, Fp, Fm, Fs, Fsn, Fsp. reflexivity. }
  split; [exact Hlacks|].
  destruct (handleOrder_cases KEY SECRET wires
              (Proxy.JObject (Delivery.order_payload q name phone config md))
              ltac:(discriminate) Hlacks) as (rest & out & Hrun & Hout & _).
  rewrite Hrun. cbn [fst snd]. split; [exact Hout|]. split.
  - eexists. exists rest. split; [reflexivity|].
    unfold Edge.member. rewrite Fq, Fm, Fs. cbn [Edge.text_of Edge.to_String Edge.to_Boolean].
    pose proof (makeLalamoveRequest_request KEY SECRET (wires 0%nat) "GET"
                  ("/quotations/" ++ q) None (market config) (sandbox config)) as H.
    cbv zeta in H. destruct H as (H1 & H2 & H3 & _).
    unfold Edge.request. split; [exact H2|]. split; [exact H1|exact H3].
  - intros quotation. unfold Edge.order_body, Edge.member.
    rewrite Fq, Fn, Fp, Fsn, Fsp, Fmd. reflexivity.
Qed.

(* ------------------------------------------------------------------------- *)
(** ** [arrayBufferToBase64] *)

Lemma base64_char_ok (i : N) : Edge.is_base64_char (Crypto.base64_char i) = true.
Proof.
  unfold Crypto.base64_char, Edge.is_base64_char.
  destruct (N.ltb_spec i 26);
    [|destruct (N.ltb_spec i 52); [|destruct (N.ltb_spec i 62);
      [|destruct (N.eqb_spec i 62)]]];
    try reflexivity; cbv zeta; rewrite N_ascii_embedding by lia.
  - replace (65 <=? 65 + i)%N with true by (symmetry; apply N.leb_le; lia).
    replace (65 + i <=? 90)%N with true by (symmetry; apply N.leb_le; lia).
    reflexivity.
  - replace (97 <=? 97 + (i - 26))%N with true by (symmetry; apply N.leb_le; lia).
    replace (97 + (i - 26) <=? 122)%N with true
      by (symmetry; apply N.leb_le; lia).
    rewrite orb_true_r. reflexivity.
  - replace (48 <=? 48 + (i - 52))%N with true by (symmetry; apply N.leb_le; lia).
    replace (48 + (i - 52) <=? 57)%N with true by (symmetry; apply N.leb_le; lia).
    rewrite !orb_true_r. reflexivity.
Qed.

Lemma base64_shape (fuel : nat) :
  forall bytes, (List.length bytes < fuel)%nat ->
    String.length (Crypto.base64 fuel bytes)
      = (4 * ((List.length bytes + 2) / 3))%nat
    /\ Frame.all_chars Edge.is_base64_char (Crypto.base64 fuel bytes) = true.
Proof.
  induction fuel as [|fuel IH]; intros bytes Hlen; [lia|].
  destruct bytes as [|a [|b [|c rest]]].
  - split; reflexivity.
  - split; [reflexivity|].
    cbn [Crypto.base64 Frame.all_chars]. rewrite !base64_char_ok. reflexivity.
  - split; [reflexivity|].
    cbn [Crypto.base64 Frame.all_chars]. rewrite !base64_char_ok. reflexivity.
  - cbn [List.length] in Hlen.
    destruct (IH rest ltac:(lia)) as [Hl Hc].
    split.
    + cbn [Crypto.base64 String.length List.length]. rewrite Hl.
      replace (S (S (S (List.length rest))) + 2)%nat
        with (List.length rest + 2 + 1 * 3)%nat by lia.
      rewrite Nat.div_add by lia. lia.
    + cbn [Crypto.base64 Frame.all_chars]. rewrite !base64_char_ok, Hc.
      reflexivity.
Qed.

(** X25 ([arrayBufferToBase64]): whatever the bytes, the text is made of
    base64 characters only (letters, digits, [+], [/], [=]) and has four
    characters for every three bytes started; so the [SIGNATURE] header never
    needs escaping. *)
Theorem arrayBufferToBase64_shape (buffer : list N) :
  String.length (Crypto.arrayBufferToBase64 buffer)
    = (4 * ((List.length buffer + 2) / 3))%nat
  /\ Frame.all_chars Edge.is_base64_char (Crypto.arrayBufferToBase64 buffer)
     = true.
Proof. apply base64_shape. lia. Qed.

(* ------------------------------------------------------------------------- *)
(** ** Status changes: reading the order back *)

Lemma filter_by_unique_key (key : OrderRow -> string) (l : list OrderRow)
    (g : OrderRow -> OrderRow) (r : OrderRow) :
  NoDup (map key l) -> In r l ->
  (forall x, key (g x) = key x) ->
  filter (fun x => String.eqb (key x) (key r))
    (map (fun x => if String.eqb (key x) (key r) then g x else x) l)
  = [g r].
Proof.
  intros Hnd Hin Hkey. induction l as [|x l IH]; [destruct Hin|].
  cbn [map] in Hnd. apply NoDup_cons_iff in Hnd. destruct Hnd as [Hx Hnd].
  cbn [map filter].
  assert (Hnone : forall y, ~ In (key y) (map key l) ->
            filter (fun x => String.eqb (key x) (key y))
              (map (fun x => if String.eqb (key x) (key y) then g x else x) l)
            = []).
  { intros y Hy. clear -Hy. induction l as [|z l IHl]; [reflexivity|].
    cbn [map filter]. cbn [map] in Hy.
    destruct (String.eqb_spec (key z) (key y)) as [E|E].
    - exfalso. apply Hy. left. exact E.
    - destruct (String.eqb_spec (key z) (key y)); [contradiction|].
      apply IHl. intros H. apply Hy. right. exact H. }
  destruct Hin as [->|Hin].
  - rewrite String.eqb_refl, Hkey, String.eqb_refl. f_equal.
    apply Hnone. exact Hx.
  - destruct (String.eqb_spec (key x) (key r)) as [E|E].
    + exfalso. apply Hx. rewrite E. apply in_map. exact Hin.
    + destruct (String.eqb_spec (key x) (key r)); [contradiction|].
      apply IH; assumption.
Qed.

Lemma before_update_writes (OLD NEW : OrderRow) (now : Z) :
  status (before_update OLD NEW now) = status NEW
  /\ updated_at (before_update OLD NEW now) = now
  /\ id (before_update OLD NEW now) = id NEW.
Proof.
  unfold before_update, update_updated_at_column.
  rewrite set_completed_at_cases. destruct NEW; cbn. auto.
Qed.

(** X26 ([updateOrderStatus], then [fetchOrderById]).  A status change that
    went through is read back: with unique order ids, reading the order
    afterwards gives it with the new status, [updated_at] at the time of the
    update, the other columns (but [completed_at]) and the lines as before.
    The list the hook shows is another matter: when its reload failed, the
    call still reports success and the list is the stale one. *)
Theorem status_update_is_read_back (o o' : Outside) (w : World)
    (s : OrderStatus) (r : OrderRow) :
  Maintenance.keys_unique (db w) ->
  In r (orders (db w)) ->
  fst (updateOrderStatus o (id r) s w) = inr tt ->
  fetch_fault o' = None ->
  let w' := snd (updateOrderStatus o (id r) s w) in
  (exists r',
     fst (fetchOrderById o' (id r) w')
     = inr (Some (formatOrderData r' (items_of (db w) r)))
     /\ status r' = s
     /\ updated_at r' = update_now o
     /\ Maintenance.same_but_status r r')
  /\ (list_fault o <> None -> hook_orders w' = hook_orders w).
Proof.
  intros [Hids _] Hin Hok Hfetch w'.
  split.
  - pose proof (status_update_run o (fun x => String.eqb (id x) (id r)) s
                  "Error updating order status:" w) as H.
    cbv zeta in H. fold (updateOrderStatus o (id r) s) in H.
    destruct H as [(_ & Horders & Hitems & _)|(e & Hf & _)];
      [|rewrite Hf in Hok; discriminate].
    fold w' in Horders, Hitems.
    exists (before_update r (with_status s r) (update_now o)).
    destruct (before_update_writes r (with_status s r) (update_now o))
      as (Hst & Hup & Hid).
    split; [|split; [|split]].
    + unfold fetchOrderById, try_log_rethrow, bind, get_db. rewrite Hfetch.
      unfold or_throw, select_order. rewrite Horders.
      rewrite (filter_by_unique_key id (orders (db w))
                 (fun x => before_update x (with_status s x) (update_now o)) r
                 Hids Hin).
      * cbn. unfold items_of. rewrite Hitems. reflexivity.
      * intros x.
        destruct (before_update_writes x (with_status s x) (update_now o))
          as (_ & _ & E).
        rewrite E. destruct x; reflexivity.
    + rewrite Hst. destruct r; reflexivity.
    + exact Hup.
    + apply before_update_same_but_status.
  - intros Hlist. subst w'. unfold updateOrderStatus, try_log_rethrow.
    destruct (update_request_run o authenticated
                (fun x => String.eqb (id x) (id r)) (with_status s) w)
      as (res & w1 & E & _ & _ & _ & Hview & _ & _ & _ & Hcases).
    destruct Hcases as [(e & -> & _)|(-> & _)].
    + rewrite (bind_inl _ _ _ _ _ E). cbn. exact Hview.
    + rewrite (bind_inr _ _ _ _ _ E). unfold fetchOrders.
      destruct (list_fault o) as [e|]; [|congruence]. cbn. exact Hview.
Qed.

(** The first of the two orders is completed and read back as completed. *)
Lemma status_update_is_read_back_witness :
  exists r',
    fst (fetchOrderById Cases.admin_outside "id-1"
           (snd (updateOrderStatus Cases.admin_outside "id-1" completed
                   Cases.admin_world)))
    = inr (Some (formatOrderData r' []))
    /\ status r' = completed
    /\ updated_at r' = update_now Cases.admin_outside.
Proof.
  assert (Hk : Maintenance.keys_unique (db Cases.admin_world)).
  { split; cbn; repeat constructor; cbn; intuition discriminate. }
  pose proof (status_update_is_read_back Cases.admin_outside Cases.admin_outside
                Cases.admin_world completed
                (Scenario.plain_order "id-1" "ORD-20250902-0001" pending None)
                Hk (or_introl eq_refl) eq_refl eq_refl) as H.
  cbv zeta in H. destruct H as [(r' & Hread & Hs & Hu & _) _].
  exists r'. split; [exact Hread|]. split; [exact Hs | exact Hu].
Defined.
